(** * Catholic Saints network visualization: a shallow embedding of index.js

    The page script loads one JSON document, hands its nodes and links to the
    d3 force layout, draws one circle and one label per node and one line per
    link, and reacts to hover, drag and filter buttons.

    Conventions of the embedding.
    - JavaScript numbers that are coordinates, radii or opacities are exact
      rationals ([Q]); comparisons are stated with [Qle]/[Qlt].  NaN,
      infinities and rounding are not represented.  Years and pointer page
      coordinates are integers ([Z]) and are printed in decimal, as
      [Number.prototype.toString] prints integers below 10^21.
    - Objects shared by reference (the node objects reached from
      [saintsData.nodes], from a link's [source]/[target] and from the datum
      of a circle or label) live in one list; a reference is an index into it.
    - A function that can throw returns a [completion]: the state reached and
      whether control left normally or by an exception.
    - The d3 calls are modelled by what the script relies on: a data join on
      an empty selection creates one element per datum, in order; [attr] and
      [style] with a function evaluate it on each element's datum; the link
      force replaces the identifiers in [source] and [target] by the node
      objects and throws when an identifier has no node. *)

From Stdlib Require Import ZArith QArith Qminmax Lqa Lia String Ascii DecimalString.
From stdpp Require Import base option list strings.

Open Scope string_scope.

(** ** Numbers and strings *)

(** [String(n)] for an integer [n]. *)
Definition Number_toString (n : Z) : string :=
  NilZero.string_of_int (Z.to_int n).

(** The double quote character (code 34) and the line feed (code 10). *)
Definition dquote : string := String "034"%char EmptyString.
Definition nl : string := String "010"%char EmptyString.

(** [s.startsWith(p)] *)
Fixpoint startsWith (p s : string) : bool :=
  match p, s with
  | EmptyString, _ => true
  | String a p', String b s' => if Ascii.eqb a b then startsWith p' s' else false
  | String _ _, EmptyString => false
  end.

(** The rest of [s] after [n] characters. *)
Fixpoint drop_chars (n : nat) (s : string) : string :=
  match n, s with
  | O, _ => s
  | S n', String _ s' => drop_chars n' s'
  | S _, EmptyString => EmptyString
  end.

(** [s.replace(pat, by)] with a string pattern: only the first occurrence is
    replaced. *)
Fixpoint replace (pat by_ s : string) : string :=
  if startsWith pat s then by_ ++ drop_chars (String.length pat) s
  else match s with
       | EmptyString => EmptyString
       | String c s' => String c (replace pat by_ s')
       end.

(** A JavaScript object literal used as a table: a later property with the
    same key overrides an earlier one.  Only the table's own properties are
    looked up; for a key that names a property inherited from
    [Object.prototype] (see [inherited] below) the script finds a value that
    is left out here.  The keys of the detail table contain a hyphen, which
    no inherited name does; where a result depends on a look-up by a type
    tag, the tag is required not to be inherited. *)
Fixpoint obj_get {A : Type} (o : list (string * A)) (k : string) : option A :=
  match o with
  | [] => None
  | (k', v) :: o' =>
      match obj_get o' k with
      | Some v' => Some v'
      | None => if String.eqb k k' then Some v else None
      end
  end.

(** [a || b] where [a] is a string or [undefined]: the empty string and
    [undefined] are falsy. *)
Definition or_else (a : option string) (b : string) : string :=
  match a with
  | Some s => if String.eqb s "" then b else s
  | None => b
  end.

(** A property read that may yield [undefined], spliced into a template
    literal. *)
Definition template_of (a : option string) : string :=
  match a with
  | Some s => s
  | None => "undefined"
  end.

(** ** Completion of a possibly throwing computation *)

Inductive completion (A : Type) : Type :=
| Normal (a : A)
| Thrown (a : A).
Arguments Normal {A} a.
Arguments Thrown {A} a.

Definition bind {A : Type} (c : completion A) (k : A -> completion A) : completion A :=
  match c with
  | Normal a => k a
  | Thrown a => Thrown a
  end.

Definition final {A : Type} (c : completion A) : A :=
  match c with
  | Normal a => a
  | Thrown a => a
  end.

Definition returns {A : Type} (c : completion A) : bool :=
  match c with
  | Normal _ => true
  | Thrown _ => false
  end.

(** ** Data model *)

(** A node record as written in data/saints.json: a JSON object with the
    fields the page reads, each of the type shown.  [name] is [None] when
    the record has no [name] property: the one field whose absence makes
    the set-up throw (the label callback calls [d.name.replace]); the other
    fields are only read into templates, attributes and arithmetic, none
    of which throws. *)
Module Saint.
Record t : Type := mk {
  id : string;
  name : option string;
  type : string;
  size : Q;
  feastDay : string;
  birthYear : Z;
  deathYear : Z;
  location : string;
  patronage : string;
  description : string
}.
End Saint.

(** A node object once the simulation owns it: the parsed record plus the
    fields the layout library and the drag handlers write on the same object. *)
Module Node.
Record t : Type := mk {
  data : Saint.t;
  x : Q;
  y : Q;
  fx : option Q;
  fy : option Q
}.
Definition id (d : t) := Saint.id (data d).
Definition name (d : t) := Saint.name (data d).
Definition type (d : t) := Saint.type (data d).
Definition size (d : t) := Saint.size (data d).
Definition feastDay (d : t) := Saint.feastDay (data d).
Definition birthYear (d : t) := Saint.birthYear (data d).
Definition deathYear (d : t) := Saint.deathYear (data d).
Definition location (d : t) := Saint.location (data d).
Definition patronage (d : t) := Saint.patronage (data d).
Definition description (d : t) := Saint.description (data d).
Definition set_x (v : Q) (d : t) : t := mk (data d) v (y d) (fx d) (fy d).
Definition set_y (v : Q) (d : t) : t := mk (data d) (x d) v (fx d) (fy d).
Definition set_fx (v : option Q) (d : t) : t := mk (data d) (x d) (y d) v (fy d).
Definition set_fy (v : option Q) (d : t) : t := mk (data d) (x d) (y d) (fx d) v.
End Node.

(** An end of a link: the node identifier of the JSON document, or the node
    object the link force put in its place. *)
Inductive endpoint : Type :=
| Id (s : string)
| Ref (i : nat).

Module Link.
Record t : Type := mk {
  source : endpoint;
  target : endpoint;
  type : string
}.
End Link.

(** A link record as written in data/saints.json: its ends are node
    identifiers. *)
Module RawLink.
Record t : Type := mk {
  source : string;
  target : string;
  type : string
}.
End RawLink.

(** The link object right after parsing. *)
Definition link_object (l : RawLink.t) : Link.t :=
  Link.mk (Id (RawLink.source l)) (Id (RawLink.target l)) (RawLink.type l).

(** The parsed document; a missing [nodes] or [links] property reads as
    [undefined]. *)
Module Doc.
Record t : Type := mk {
  nodes : option (list Saint.t);
  links : option (list RawLink.t)
}.
End Doc.

(** The global [saintsData]: the initial [{}], the document as parsed, and the
    same objects after [d3.forceSimulation] initialised them in place. *)
Inductive SaintsData : Type :=
| Empty
| Loaded (doc : Doc.t)
| Live (nodes : list Node.t) (links : list Link.t).

(** ** Constants *)

Definition colorMap : list (string * string) :=
  [ ("apostle", "#ff6b6b");
    ("doctor", "#4ecdc4");
    ("founder", "#95e1d3");
    ("martyr", "#ffd93d");
    ("mystic", "#a8e6cf") ].

Definition width : Q := 1200.
Definition height : Q := 700.

(** ** The page *)

Module Svg.
Record t : Type := mk {
  width : Q;
  height : Q;
  viewBox : list Q
}.
End Svg.

(** A [line] element; [datum] is the link object bound to it. *)
Module Line.
Record t : Type := mk {
  datum : nat;
  class : string;
  stroke_width : Q;
  cursor : string;
  stroke : option string;
  x1 : option Q;
  y1 : option Q;
  x2 : option Q;
  y2 : option Q;
  opacity : option Q
}.
Definition set_ends (a b c d : option Q) (e : t) : t :=
    mk (datum e) (class e) (stroke_width e) (cursor e) (stroke e) a b c d (opacity e).
Definition set_opacity (v : Q) (e : t) : t :=
    mk (datum e) (class e) (stroke_width e) (cursor e) (stroke e)
       (x1 e) (y1 e) (x2 e) (y2 e) (Some v).
End Line.

(** A [circle] element; [datum] is the node object bound to it. *)
Module Circle.
Record t : Type := mk {
  datum : nat;
  class : string;
  r : Q;
  fill : option string;
  cx : option Q;
  cy : option Q;
  opacity : option Q
}.
Definition set_r (v : Q) (e : t) : t :=
    mk (datum e) (class e) v (fill e) (cx e) (cy e) (opacity e).
Definition set_centre (a b : option Q) (e : t) : t :=
    mk (datum e) (class e) (r e) (fill e) a b (opacity e).
Definition set_opacity (v : Q) (e : t) : t :=
    mk (datum e) (class e) (r e) (fill e) (cx e) (cy e) (Some v).
End Circle.

(** A [text] element; [datum] is the node object bound to it. *)
Module Text.
Record t : Type := mk {
  datum : nat;
  class : string;
  text : string;
  dy : Q;
  x : option Q;
  y : option Q;
  opacity : option Q
}.
Definition set_pos (a b : option Q) (e : t) : t :=
    mk (datum e) (class e) (text e) (dy e) a b (opacity e).
Definition set_opacity (v : Q) (e : t) : t :=
    mk (datum e) (class e) (text e) (dy e) (x e) (y e) (Some v).
End Text.

(** The [#tooltip] element of the page. *)
Module Tooltip.
Record t : Type := mk {
  opacity : option Q;
  html : string;
  left : option string;
  top : option string
}.
End Tooltip.

Module Button.
Record t : Type := mk {
  onclick : string;
  active : bool
}.
End Button.

Module Simulation.
Record t : Type := mk {
  alphaTarget : Q;
  running : bool
}.
End Simulation.

(** A child of the [#network] container. *)
Inductive Child : Type :=
| ChildSvg
| ChildHtml (html : string).

(** The globals of the script and the parts of the document it touches.
    [svg], [node], [link], [label] and [simulation] are [None] while the
    variable is [undefined]; a selection holds its elements.  [tooltip] tells
    whether the variable holds the selection of [tooltip_el]. *)
Record State : Type := mkState {
  saintsData : SaintsData;
  svg : option Svg.t;
  node : option (list Circle.t);
  link : option (list Line.t);
  label : option (list Text.t);
  simulation : option Simulation.t;
  tooltip : bool;
  currentFilter : string;
  network : list Child;
  tooltip_el : Tooltip.t;
  buttons : list Button.t
}.

Definition set_saintsData (v : SaintsData) (s : State) : State :=
  mkState v (svg s) (node s) (link s) (label s) (simulation s) (tooltip s)
          (currentFilter s) (network s) (tooltip_el s) (buttons s).
Definition set_svg (v : option Svg.t) (s : State) : State :=
  mkState (saintsData s) v (node s) (link s) (label s) (simulation s) (tooltip s)
          (currentFilter s) (network s) (tooltip_el s) (buttons s).
Definition set_node (v : option (list Circle.t)) (s : State) : State :=
  mkState (saintsData s) (svg s) v (link s) (label s) (simulation s) (tooltip s)
          (currentFilter s) (network s) (tooltip_el s) (buttons s).
Definition set_link (v : option (list Line.t)) (s : State) : State :=
  mkState (saintsData s) (svg s) (node s) v (label s) (simulation s) (tooltip s)
          (currentFilter s) (network s) (tooltip_el s) (buttons s).
Definition set_label (v : option (list Text.t)) (s : State) : State :=
  mkState (saintsData s) (svg s) (node s) (link s) v (simulation s) (tooltip s)
          (currentFilter s) (network s) (tooltip_el s) (buttons s).
Definition set_simulation (v : option Simulation.t) (s : State) : State :=
  mkState (saintsData s) (svg s) (node s) (link s) (label s) v (tooltip s)
          (currentFilter s) (network s) (tooltip_el s) (buttons s).
Definition set_tooltip (v : bool) (s : State) : State :=
  mkState (saintsData s) (svg s) (node s) (link s) (label s) (simulation s) v
          (currentFilter s) (network s) (tooltip_el s) (buttons s).
Definition set_currentFilter (v : string) (s : State) : State :=
  mkState (saintsData s) (svg s) (node s) (link s) (label s) (simulation s) (tooltip s)
          v (network s) (tooltip_el s) (buttons s).
Definition set_network (v : list Child) (s : State) : State :=
  mkState (saintsData s) (svg s) (node s) (link s) (label s) (simulation s) (tooltip s)
          (currentFilter s) v (tooltip_el s) (buttons s).
Definition set_tooltip_el (v : Tooltip.t) (s : State) : State :=
  mkState (saintsData s) (svg s) (node s) (link s) (label s) (simulation s) (tooltip s)
          (currentFilter s) (network s) v (buttons s).
Definition set_buttons (v : list Button.t) (s : State) : State :=
  mkState (saintsData s) (svg s) (node s) (link s) (label s) (simulation s) (tooltip s)
          (currentFilter s) (network s) (tooltip_el s) v.

(** The page before the script ran: every global is [undefined] except
    [saintsData = {}] and [currentFilter = 'all']. *)
Definition page (children : list Child) (tip : Tooltip.t) (bs : list Button.t) : State :=
  mkState Empty None None None None None false "all" children tip bs.

(** Reading through references.  A reference always denotes an object, so the
    [None] case of a lookup is met in no state the script builds (see
    [bound]); there the read yields [undefined]. *)
Definition live_nodes (s : State) : list Node.t :=
  match saintsData s with
  | Live ns _ => ns
  | _ => []
  end.

Definition live_links (s : State) : list Link.t :=
  match saintsData s with
  | Live _ ls => ls
  | _ => []
  end.

Definition deref (ns : list Node.t) (e : endpoint) : option Node.t :=
  match e with
  | Ref i => ns !! i
  | Id _ => None
  end.

(** Is the drawing attached to the document? *)
Definition is_svg (c : Child) : bool :=
  match c with
  | ChildSvg => true
  | ChildHtml _ => false
  end.

Definition attached (s : State) : bool := existsb is_svg (network s).

Definition elements {A : Type} (sel : option (list A)) : list A :=
  match sel with
  | Some l => l
  | None => []
  end.

(** The shapes a reader of the page sees. *)
Definition visible_circles (s : State) : list Circle.t :=
  if attached s then elements (node s) else [].
Definition visible_lines (s : State) : list Line.t :=
  if attached s then elements (link s) else [].
Definition visible_texts (s : State) : list Text.t :=
  if attached s then elements (label s) else [].

(** ** Loading and setting up *)

(** The link force's [find]: the node stored under the identifier in a map
    built from the nodes in order, so the last node with that identifier. *)
Fixpoint find_from (i : nat) (ns : list Node.t) (k : string) : option nat :=
  match ns with
  | [] => None
  | d :: ns' =>
      match find_from (S i) ns' k with
      | Some j => Some j
      | None => if String.eqb (Node.id d) k then Some i else None
      end
  end.

Definition find (ns : list Node.t) (k : string) : option nat := find_from 0 ns k.

(** An end that is already an object is kept; an identifier is looked up, and
    [None] stands for the "node not found" exception. *)
Definition resolve (ns : list Node.t) (e : endpoint) : option endpoint :=
  match e with
  | Ref i => Some (Ref i)
  | Id k => Ref <$> find ns k
  end.

(** Initialisation of [d3.forceLink(links).id(d => d.id)] on the nodes of the
    simulation: links are resolved in order, in place, [source] before
    [target]; the first missing identifier throws and leaves the rest as
    they were. *)
Fixpoint forceLink (ns : list Node.t) (ls : list Link.t) : completion (list Link.t) :=
  match ls with
  | [] => Normal []
  | l :: ls' =>
      match resolve ns (Link.source l) with
      | None => Thrown (l :: ls')
      | Some src =>
          match resolve ns (Link.target l) with
          | None => Thrown (Link.mk src (Link.target l) (Link.type l) :: ls')
          | Some tgt =>
              let l' := Link.mk src tgt (Link.type l) in
              match forceLink ns ls' with
              | Normal r => Normal (l' :: r)
              | Thrown r => Thrown (l' :: r)
              end
          end
      end
  end.

Definition stroke_width_of (l : Link.t) : Q :=
  if String.eqb (Link.type l) "mentor" then 3
  else if String.eqb (Link.type l) "order" then 2
  else 1.

(** [selectAll("line").data(links).join("line")] with its attributes. *)
Definition join_lines (ls : list Link.t) : list Line.t :=
  imap (fun j l => Line.mk j "link" (stroke_width_of l) "pointer" None None None None None None) ls.

(** [selectAll("circle").data(nodes).join("circle")] with its attributes. *)
Definition join_circles (ns : list Node.t) : list Circle.t :=
  imap (fun i d => Circle.mk i "node" (Node.size d) (obj_get colorMap (Node.type d)) None None None) ns.

(** The [text] element for the [i]-th node; [None] when [d.name.replace]
    throws because [d.name] is not a string. *)
Definition text_of (i : nat) (d : Node.t) : option Text.t :=
  (fun name =>
     Text.mk i "node-label"
             (replace "Blessed " "" (replace "St. " "" name))
             (Node.size d + 15) None None None) <$> Node.name d.

(** [selectAll("text").data(nodes).join("text")] with its text and offset;
    [None] when the text callback throws on one of the nodes. *)
Fixpoint join_texts_from (i : nat) (ns : list Node.t) : option (list Text.t) :=
  match ns with
  | [] => Some []
  | d :: ns' =>
      match text_of i d with
      | None => None
      | Some t =>
          match join_texts_from (S i) ns' with
          | None => None
          | Some ts => Some (t :: ts)
          end
      end
  end.

Definition join_texts (ns : list Node.t) : option (list Text.t) :=
  join_texts_from 0 ns.

Definition error_message : string :=
  "<p style=" ++ dquote ++ "text-align: center; color: #8B4513;" ++ dquote
  ++ ">Error loading saints data. Please check that all files are present.</p>".

(** What [fetch] followed by [response.json()] can do. *)
Inductive Response : Type :=
| FetchFailed
| ParseFailed
| Parsed (doc : Doc.t).

Section Layout.

(** The position the layout library gives the [i]-th node when the simulation
    is created. *)
Variable place : nat -> Q * Q.

(** [d3.forceSimulation(nodes)]: every node object receives a position. *)
Definition forceSimulation (ns : list Saint.t) : list Node.t :=
  imap (fun i d => Node.mk d (fst (place i)) (snd (place i)) None None) ns.

(** The node and link objects the simulation works on.  [init] calls
    [setupVisualization] only after reading [.length] of both arrays, so with
    both present.  Without them an exception follows, from the link force or
    from a data join on [undefined]; that path is cut short at [None]. *)
Definition simulated (d : SaintsData) : option (list Node.t * list Link.t) :=
  match d with
  | Loaded doc =>
      match Doc.nodes doc, Doc.links doc with
      | Some ns, Some ls => Some (forceSimulation ns, link_object <$> ls)
      | _, _ => None
      end
  | Live ns ls => Some (ns, ls)
  | Empty => None
  end.

(** [setupVisualization].  The simulation is assigned to its variable once
    the whole chain of [force] calls has returned, so an exception of the link
    force leaves the variable as it was, with the node objects already
    initialised and the links resolved up to the failing one.  An exception
    of the label's text callback leaves [label] as it was, with the lines
    and the circles created.  Registering
    listeners changes nothing that is tracked here. *)
Definition setupVisualization (s : State) : completion State :=
  let s := set_svg (Some (Svg.mk width height [0%Q; 0%Q; width; height]))
                   (set_network (network s ++ [ChildSvg]) s) in
  let s := set_tooltip true s in
  match simulated (saintsData s) with
  | None => Thrown s
  | Some (ns, ls) =>
      match forceLink ns ls with
      | Thrown ls' => Thrown (set_saintsData (Live ns ls') s)
      | Normal ls' =>
          let s := set_saintsData (Live ns ls') s in
          let s := set_simulation (Some (Simulation.mk 0 true)) s in
          let s := set_link (Some (join_lines ls')) s in
          let s := set_node (Some (join_circles ns)) s in
          match join_texts ns with
          | None => Thrown s
          | Some texts => Normal (set_label (Some texts) s)
          end
      end
  end.

(** The [catch] block of [init]. *)
Definition on_error (s : State) : State :=
  set_network [ChildHtml error_message] s.

(** [init], given what the fetch and the parse produce.  Reading
    [saintsData.nodes.length] and [saintsData.links.length] throws when the
    array is missing; every exception of the [try] block reaches the one
    [catch]. *)
Definition init (r : Response) (s : State) : State :=
  match r with
  | FetchFailed => on_error s
  | ParseFailed => on_error s
  | Parsed doc =>
      let s := set_saintsData (Loaded doc) s in
      match Doc.nodes doc, Doc.links doc with
      | Some _, Some _ =>
          match setupVisualization s with
          | Normal s' => s'
          | Thrown s' => on_error s'
          end
      | _, _ => on_error s
      end
  end.

End Layout.

(** ** Hover tooltips *)

Module MouseEvent.
Record t : Type := mk {
  pageX : Z;
  pageY : Z
}.
End MouseEvent.

Definition indent12 : string := "            ".
Definition indent8 : string := "        ".

Definition year_display (year : Z) : string :=
  if (year <? 0)%Z then Number_toString (Z.abs year) ++ " BC"
  else Number_toString year ++ " AD".

(** The template literal of [handleMouseOver]. *)
Definition tooltip_html (d : Node.t) : string :=
  let lifespan := (Node.deathYear d - Node.birthYear d)%Z in
  let birthDisplay := year_display (Node.birthYear d) in
  let deathDisplay := year_display (Node.deathYear d) in
  nl ++ indent12 ++ "<h3>" ++ template_of (Node.name d) ++ "</h3>"
  ++ nl ++ indent12 ++ "<p class=" ++ dquote ++ "feast-day" ++ dquote ++ ">Feast Day: "
        ++ Node.feastDay d ++ "</p>"
  ++ nl ++ indent12 ++ "<p><strong>Life:</strong> " ++ birthDisplay ++ " - " ++ deathDisplay
        ++ " (" ++ Number_toString lifespan ++ " years)</p>"
  ++ nl ++ indent12 ++ "<p><strong>Location:</strong> " ++ Node.location d ++ "</p>"
  ++ nl ++ indent12 ++ "<p><strong>Patronage:</strong> " ++ Node.patronage d ++ "</p>"
  ++ nl ++ indent12 ++ "<p><em>" ++ Node.description d ++ "</em></p>"
  ++ nl ++ indent8.

(** [handleMouseOver] on the circle at position [this] of the node selection,
    with its datum [d].  The transition is recorded by the radius it ends on.
    Styling the tooltip throws while the variable is [undefined]. *)
Definition handleMouseOver (this : nat) (event : MouseEvent.t) (d : Node.t)
    (s : State) : completion State :=
  let grow (c : Circle.t) :=
    match live_nodes s !! Circle.datum c with
    | Some d => Circle.set_r (Node.size d * 1.3) c
    | None => c
    end in
  let s := set_node (alter grow this <$> node s) s in
  if tooltip s then
    Normal (set_tooltip_el
              (Tooltip.mk (Some 1%Q) (tooltip_html d)
                 (Some (Number_toString (MouseEvent.pageX event + 10) ++ "px"))
                 (Some (Number_toString (MouseEvent.pageY event - 10) ++ "px")))
              s)
  else Thrown s.

(** ** Relationship details *)

Definition details : list (string * string) :=
  [
    ("peter-paul", "Both apostles who worked together in the early Church");
    ("peter-john", "Fellow apostles and close companions of Jesus");
    ("paul-john", "Collaborated in spreading Christianity");
    ("peter-stephen", "Peter likely ordained Stephen as first deacon");
    ("augustine-benedict", "Augustine's writings influenced Benedict's Rule");
    ("augustine-aquinas", "Aquinas built upon Augustine's theological foundation");
    ("paul-augustine", "Augustine was deeply influenced by Paul's letters");
    ("benedict-francis", "Francis was inspired by monastic tradition");
    ("francis-dominic", "Contemporary founders with different approaches");
    ("francis-anthony", "Anthony joined the Franciscan order under Francis");
    ("francis-clare", "Francis guided Clare in founding the Poor Clares");
    ("dominic-aquinas", "Aquinas was a Dominican friar");
    ("ignatius-teresa-avila", "Counter-Reformation reformers and mystics");
    ("teresa-avila-john-cross", "Teresa guided John in mystical theology");
    ("augustine-jerome", "Corresponded frequently about theological matters");
    ("aquinas-catherine-siena", "Catherine was influenced by Dominican theology");
    ("teresa-avila-therese", "Thérèse was inspired by Teresa's writings");
    ("therese-padre-pio", "Both promoted devotion to the Sacred Heart");
    ("francis-padre-pio", "Padre Pio was a Franciscan friar");
    ("lawrence-cecilia", "Both Roman martyrs of the 3rd century");
    ("patrick-benedict", "Patrick's missionary work influenced monasticism");
    ("mary-john", "Mary entrusted to John's care at the crucifixion");
    ("mary-joseph", "Holy Family - married and raised Jesus together");
    ("mary-john-baptist", "John the Baptist announced Jesus' coming to Mary");
    ("mary-mary-magdalene", "Both witnessed Jesus' crucifixion and resurrection");
    ("joseph-john-baptist", "Both central figures in Jesus' early life");
    ("john-baptist-peter", "John baptized Jesus, Peter became first Pope");
    ("john-baptist-john", "John the Baptist was John the Apostle's namesake");
    ("mary-magdalene-peter", "First witnesses to the resurrection");
    ("mary-magdalene-paul", "Both experienced dramatic conversions");
    ("monica-augustine", "Monica prayed for Augustine's conversion for years");
    ("martin-tours-augustine", "Both bishops and theologians of the 4th century");
    ("martin-tours-benedict", "Martin's monasticism influenced Benedict");
    ("basil-augustine", "Both Church Fathers and bishops");
    ("basil-jerome", "Both translated and preserved Scripture");
    ("elizabeth-hungary-francis", "Both devoted to serving the poor");
    ("elizabeth-hungary-dominic", "Elizabeth inspired by Dominican spirituality");
    ("joan-arc-catherine-siena", "Both received visions and influenced politics");
    ("mary-teresa-avila", "Teresa had deep Marian devotion");
    ("mary-therese", "Thérèse's 'Little Way' centered on Mary");
    ("mother-teresa-john-paul-ii", "John Paul II supported Mother Teresa's work");
    ("maximilian-kolbe-john-paul-ii", "Both Polish saints, John Paul beatified Kolbe");
    ("maximilian-kolbe-francis", "Kolbe was a Franciscan friar and martyr");
    ("john-chrysostom-basil", "Cappadocian Fathers and theologians");
    ("gregory-nazianzus-basil", "Cappadocian Fathers, defended Trinity");
    ("john-chrysostom-gregory-nazianzus", "Both great preachers and theologians");
    ("john-xxiii-john-paul-ii", "John XXIII's reforms influenced John Paul II");
    ("faustina-john-paul-ii", "John Paul II canonized Faustina, promoted Divine Mercy");
    ("faustina-therese", "Both promoted trust in God's mercy");
    ("rose-lima-teresa-avila", "Both mystics influenced by Carmelite spirituality");
    ("rose-lima-dominic", "Rose was a Dominican tertiary");
    ("mother-teresa-therese", "Teresa inspired by Thérèse's 'Little Way'")
  ].

Definition fallback_detail : string :=
  "These saints shared important connections in Church history".

(** [d.source.id]: [undefined] when the end is still an identifier string. *)
Definition endpoint_id (ns : list Node.t) (e : endpoint) : option string :=
  Node.id <$> deref ns e.

Definition getRelationshipDetail (ns : list Node.t) (d : Link.t) : string :=
  let key1 := template_of (endpoint_id ns (Link.source d)) ++ "-"
              ++ template_of (endpoint_id ns (Link.target d)) in
  let key2 := template_of (endpoint_id ns (Link.target d)) ++ "-"
              ++ template_of (endpoint_id ns (Link.source d)) in
  or_else (obj_get details key1) (or_else (obj_get details key2) fallback_detail).

(** ** Position clamp *)

(** [Math.max(size, Math.min(extent - size, v))] *)
Definition clamp (size extent v : Q) : Q :=
  Qmax size (Qmin (extent - size) v).

Definition clampNode (d : Node.t) : Node.t :=
  let d := Node.set_x (clamp (Node.size d) width (Node.x d)) d in
  Node.set_y (clamp (Node.size d) height (Node.y d)) d.

(** A coordinate of an end of the link bound to a line. *)
Definition end_coord (ns : list Node.t) (ls : list Link.t) (e : Link.t -> endpoint)
    (c : Node.t -> Q) (l : Line.t) : option Q :=
  d ← ls !! Line.datum l; c <$> deref ns (e d).

Definition place_line (ns : list Node.t) (ls : list Link.t) (l : Line.t) : Line.t :=
  Line.set_ends (end_coord ns ls Link.source Node.x l) (end_coord ns ls Link.source Node.y l)
                (end_coord ns ls Link.target Node.x l) (end_coord ns ls Link.target Node.y l) l.

Definition place_circle (ns : list Node.t) (c : Circle.t) : Circle.t :=
  Circle.set_centre (Node.x <$> ns !! Circle.datum c) (Node.y <$> ns !! Circle.datum c) c.

Definition place_text (ns : list Node.t) (t : Text.t) : Text.t :=
  Text.set_pos (Node.x <$> ns !! Text.datum t) (Node.y <$> ns !! Text.datum t) t.

(** The tick listener.  It is registered at the end of [setupVisualization],
    when the node objects have positions; before that [saintsData.nodes] is
    [undefined] or the selections are. *)
Definition updatePositions (s : State) : completion State :=
  match saintsData s with
  | Live ns ls =>
      let ns := clampNode <$> ns in
      let s := set_saintsData (Live ns ls) s in
      match link s with
      | None => Thrown s
      | Some lines =>
          let s := set_link (Some (place_line ns ls <$> lines)) s in
          match node s with
          | None => Thrown s
          | Some circles =>
              let s := set_node (Some (place_circle ns <$> circles)) s in
              match label s with
              | None => Thrown s
              | Some texts => Normal (set_label (Some (place_text ns <$> texts)) s)
              end
          end
      end
  | _ => Thrown s
  end.

Section Tick.

(** One step of the layout library on the node objects: it moves them as its
    forces and the pinned positions dictate. *)
Variable physics : list Node.t -> list Node.t.

Definition tick (s : State) : completion State :=
  match saintsData s with
  | Live ns ls => updatePositions (set_saintsData (Live (physics ns) ls) s)
  | _ => updatePositions s
  end.

End Tick.

(** ** Drag *)

Module DragEvent.
Record t : Type := mk {
  active : nat;
  subject : nat;
  x : Q;
  y : Q
}.
End DragEvent.

(** A write on the node object [i]. *)
Definition update_node (i : nat) (f : Node.t -> Node.t) (s : State) : State :=
  match saintsData s with
  | Live ns ls => set_saintsData (Live (alter f i ns) ls) s
  | _ => s
  end.

(** [if (!event.active) simulation.alphaTarget(a)], followed by [restart()]
    when [restart] is set. *)
Definition retarget (event : DragEvent.t) (a : Q) (restart : bool) (s : State)
    : completion State :=
  match DragEvent.active event with
  | O =>
      match simulation s with
      | Some sim =>
          Normal (set_simulation
                    (Some (Simulation.mk a (restart || Simulation.running sim))) s)
      | None => Thrown s
      end
  | S _ => Normal s
  end.

Definition dragstarted (event : DragEvent.t) (s : State) : completion State :=
  bind (retarget event 0.3 true s) (fun s =>
  Normal (update_node (DragEvent.subject event)
            (fun d => Node.set_fy (Some (Node.y d)) (Node.set_fx (Some (Node.x d)) d)) s)).

Definition dragged (event : DragEvent.t) (s : State) : completion State :=
  Normal (update_node (DragEvent.subject event)
            (fun d =>
               let radius := Node.size d in
               Node.set_fy (Some (clamp radius height (DragEvent.y event)))
                 (Node.set_fx (Some (clamp radius width (DragEvent.x event))) d)) s).

Definition dragended (event : DragEvent.t) (s : State) : completion State :=
  bind (retarget event 0 false s) (fun s =>
  Normal (update_node (DragEvent.subject event)
            (fun d => Node.set_fy None (Node.set_fx None d)) s)).

(** ** Filters *)

(** [classed("active", false)] on one button. *)
Definition inactive (b : Button.t) : Button.t := Button.mk (Button.onclick b) false.

(** [d3.select(selector).classed("active", true)] for an attribute selector
    on [onclick]: the first button whose attribute is the given text.  This
    is what the selector does for a filter name written between its double
    quotes as it is (see [selector_safe] below); for a name with a double
    quote, a backslash or a control character the selector is malformed or
    reads as another text, [d3.select] may throw, and the statements about
    an arbitrary filter name exclude such names. *)
Fixpoint activate_first (onclick : string) (bs : list Button.t) : list Button.t :=
  match bs with
  | [] => []
  | b :: bs' =>
      if String.eqb (Button.onclick b) onclick
      then Button.mk (Button.onclick b) true :: bs'
      else b :: activate_first onclick bs'
  end.

Definition updateButtons (s : State) : State :=
  let bs := inactive <$> buttons s in
  let bs :=
    if String.eqb (currentFilter s) "all"
    then activate_first "filterAll()" bs
    else activate_first ("filterByType('" ++ currentFilter s ++ "')") bs in
  set_buttons bs s.

Definition filterAll (s : State) : completion State :=
  let s := set_currentFilter "all" s in
  let s := updateButtons s in
  match node s with
  | None => Thrown s
  | Some circles =>
      let s := set_node (Some (Circle.set_opacity 1 <$> circles)) s in
      match label s with
      | None => Thrown s
      | Some texts =>
          let s := set_label (Some (Text.set_opacity 1 <$> texts)) s in
          match link s with
          | None => Thrown s
          | Some lines => Normal (set_link (Some (Line.set_opacity 0.7 <$> lines)) s)
          end
      end
  end.

(** [d.type === type] for the node object behind a reference. *)
Definition has_type (type : string) (d : option Node.t) : bool :=
  match d with
  | Some d => String.eqb (Node.type d) type
  | None => false
  end.

(** [d.source.type === type || d.target.type === type] for the link bound to
    a line; an end that is still a string has no [type]. *)
Definition link_matches (ns : list Node.t) (ls : list Link.t) (type : string)
    (l : Line.t) : bool :=
  match ls !! Line.datum l with
  | Some d =>
      has_type type (deref ns (Link.source d)) || has_type type (deref ns (Link.target d))
  | None => false
  end.

Definition filterByType (type : string) (s : State) : completion State :=
  let s := set_currentFilter type s in
  let s := updateButtons s in
  let ns := live_nodes s in
  let ls := live_links s in
  match node s with
  | None => Thrown s
  | Some circles =>
      let s := set_node
                 (Some ((fun c => Circle.set_opacity
                                    (if has_type type (ns !! Circle.datum c) then 1 else 0.2) c)
                          <$> circles)) s in
      match label s with
      | None => Thrown s
      | Some texts =>
          let s := set_label
                     (Some ((fun t => Text.set_opacity
                                        (if has_type type (ns !! Text.datum t) then 1 else 0.2) t)
                              <$> texts)) s in
          match link s with
          | None => Thrown s
          | Some lines =>
              Normal (set_link
                        (Some ((fun l => Line.set_opacity
                                           (if link_matches ns ls type l then 0.7 else 0.1) l)
                                 <$> lines)) s)
          end
      end
  end.

(** ** The event loop *)

(** What the page can be asked to do once it is set up.  An exception in one
    listener ends that listener only; the next event finds the state it left. *)
Inductive Action : Type :=
| DragStart (event : DragEvent.t)
| DragMove (event : DragEvent.t)
| DragEnd (event : DragEvent.t)
| Tick
| FilterAll
| FilterByType (type : string)
| MouseOver (this : nat) (event : MouseEvent.t) (d : Node.t).

Section Events.

Variable physics : list Node.t -> list Node.t.

Definition handle (a : Action) (s : State) : completion State :=
  match a with
  | DragStart event => dragstarted event s
  | DragMove event => dragged event s
  | DragEnd event => dragended event s
  | Tick => tick physics s
  | FilterAll => filterAll s
  | FilterByType type => filterByType type s
  | MouseOver this event d => handleMouseOver this event d s
  end.

Fixpoint run (evs : list Action) (s : State) : State :=
  match evs with
  | [] => s
  | a :: evs' => run evs' (final (handle a s))
  end.

End Events.

(** The drag gestures in progress, by subject.  The drag behaviour sends, for
    each gesture, one start, then moves, then one end. *)
Fixpoint remove_one (i : nat) (l : list nat) : list nat :=
  match l with
  | [] => []
  | j :: l' => if Nat.eqb i j then l' else j :: remove_one i l'
  end.

Definition track (act : list nat) (a : Action) : list nat :=
  match a with
  | DragStart event => DragEvent.subject event :: act
  | DragEnd event => remove_one (DragEvent.subject event) act
  | _ => act
  end.

Definition dragging (evs : list Action) : list nat := fold_left track evs [].

Definition member (i : nat) (l : list nat) : bool := existsb (Nat.eqb i) l.

(** Moves and ends belong to a gesture that has started. *)
Fixpoint protocol (act : list nat) (evs : list Action) : bool :=
  match evs with
  | [] => true
  | a :: evs' =>
      match a with
      | DragMove event => member (DragEvent.subject event) act
      | DragEnd event => member (DragEvent.subject event) act
      | _ => true
      end && protocol (track act a) evs'
  end.

(** Filter buttons pressed one after the other. *)
Definition filters (types : list string) (s : State) : State :=
  fold_left (fun s type => final (filterByType type s)) types s.

(** ** Predicates of the specification *)

(** The visualization is set up: the data are live and the three selections
    exist. *)
Definition ready (s : State) : bool :=
  match saintsData s, node s, link s, label s with
  | Live _ _, Some _, Some _, Some _ => true
  | _, _, _, _ => false
  end.

(** The node's diameter is at most the viewport's width and height. *)
Definition fits (d : Node.t) : Prop :=
  (2 * Node.size d <= width)%Q /\ (2 * Node.size d <= height)%Q.

Definition within (size extent v : Q) : Prop :=
  (size <= v)%Q /\ (v <= extent - size)%Q.

(** The position lies in [size, width - size] x [size, height - size]. *)
Definition in_bounds (d : Node.t) : Prop :=
  within (Node.size d) width (Node.x d) /\ within (Node.size d) height (Node.y d).

(** A point of the 1200 x 700 viewport. *)
Definition in_viewport (px py : Q) : Prop :=
  (0 <= px)%Q /\ (px <= width)%Q /\ (0 <= py)%Q /\ (py <= height)%Q.

(** The clamp keeps its promise exactly when the node fits: the result [r]
    lies in [size, extent - size] if and only if [2 * size <= extent], and
    for a larger node the result is [size] itself, beyond [extent - size]. *)
Definition promise_iff_fits (size extent r : Q) : Prop :=
  (within size extent r <-> (2 * size <= extent)%Q)
  /\ ((extent < 2 * size)%Q -> r = size /\ (extent - size < r)%Q).

Definition pin (d : Node.t) : option Q * option Q := (Node.fx d, Node.fy d).

Definition pinned (d : Node.t) : bool :=
  match Node.fx d, Node.fy d with
  | None, None => false
  | _, _ => true
  end.

(** No node is pinned. *)
Definition unpinned (s : State) : bool :=
  forallb (fun d => negb (pinned d)) (live_nodes s).

(** Every pinned node is the subject of a gesture in progress. *)
Definition only_dragged_pinned (s : State) (act : list nat) : Prop :=
  forall i d, live_nodes s !! i = Some d -> pinned d = true -> member i act = true.

(** The head of [protocol]. *)
Definition expected (act : list nat) (a : Action) : bool :=
  match a with
  | DragMove event => member (DragEvent.subject event) act
  | DragEnd event => member (DragEvent.subject event) act
  | _ => true
  end.

(** References are in range: every datum denotes an object of the live data
    and every end of a live link is a node object. *)
Definition is_node (ns : list Node.t) (e : endpoint) : Prop :=
  exists i d, e = Ref i /\ ns !! i = Some d.

Definition bound (s : State) : Prop :=
  (forall c, c ∈ elements (node s) -> Circle.datum c < length (live_nodes s))
  /\ (forall t, t ∈ elements (label s) -> Text.datum t < length (live_nodes s))
  /\ (forall l, l ∈ elements (link s) -> Line.datum l < length (live_links s))
  /\ (forall d, d ∈ live_links s ->
        is_node (live_nodes s) (Link.source d) /\ is_node (live_nodes s) (Link.target d)).

(** What [bound] depends on: how many node objects there are, the link
    objects, and the data bound to the shapes. *)
Definition shape (s : State)
  : nat * list Link.t * list nat * list nat * list nat :=
  (length (live_nodes s), live_links s,
   Circle.datum <$> elements (node s),
   Text.datum <$> elements (label s),
   Line.datum <$> elements (link s)).

(** An identifier names a node of the document. *)
Definition known (ns : list Saint.t) (k : string) : bool :=
  existsb (fun d => String.eqb (Saint.id d) k) ns.

Definition links_known (ns : list Saint.t) (ls : list RawLink.t) : bool :=
  forallb (fun l => known ns (RawLink.source l) && known ns (RawLink.target l)) ls.

(** A link object as the link force leaves it, against the link as parsed:
    both ends resolved on the nodes [ns], the relationship type kept. *)
Definition resolved_from (ns : list Node.t) (l l' : Link.t) : Prop :=
  resolve ns (Link.source l) = Some (Link.source l')
  /\ resolve ns (Link.target l) = Some (Link.target l')
  /\ Link.type l' = Link.type l.

Definition is_some {A : Type} (o : option A) : bool :=
  match o with
  | Some _ => true
  | None => false
  end.

(** The record has a [name] that is a string. *)
Definition named (d : Saint.t) : bool := is_some (Saint.name d).

(** The load-time invariant of the data model: both arrays are present,
    every link end names a node and every node has a name. *)
Definition well_formed (doc : Doc.t) : bool :=
  match Doc.nodes doc, Doc.links doc with
  | Some ns, Some ls => links_known ns ls && forallb named ns
  | _, _ => false
  end.

(** The loads that end in the [catch] block: the fetch or the parse failed,
    an array is missing, a link names a node that is not there, or a node
    has no name. *)
Definition load_fails (r : Response) : bool :=
  match r with
  | FetchFailed => true
  | ParseFailed => true
  | Parsed doc => negb (well_formed doc)
  end.

(** The two ends of a link as written in the document. *)
Definition ends (l : RawLink.t) : string * string := (RawLink.source l, RawLink.target l).

(** The container shows the error message and nothing else. *)
Definition error_shown (s : State) : Prop := network s = [ChildHtml error_message].

(** An element with its opacity style left out. *)
Definition circle_frame (e : Circle.t) : Circle.t :=
  Circle.mk (Circle.datum e) (Circle.class e) (Circle.r e) (Circle.fill e)
            (Circle.cx e) (Circle.cy e) None.
Definition text_frame (e : Text.t) : Text.t :=
  Text.mk (Text.datum e) (Text.class e) (Text.text e) (Text.dy e) (Text.x e) (Text.y e) None.
Definition line_frame (e : Line.t) : Line.t :=
  Line.mk (Line.datum e) (Line.class e) (Line.stroke_width e) (Line.cursor e) (Line.stroke e)
          (Line.x1 e) (Line.y1 e) (Line.x2 e) (Line.y2 e) None.

(** The state with everything a filter may write left out: the opacity
    styles, [currentFilter] and the buttons' [active] class. *)
Definition filter_frame (s : State) : State :=
  mkState (saintsData s) (svg s)
          (fmap (M:=list) circle_frame <$> node s)
          (fmap (M:=list) line_frame <$> link s)
          (fmap (M:=list) text_frame <$> label s)
          (simulation s) (tooltip s) ""
          (network s) (tooltip_el s)
          (inactive <$> buttons s).

(** ** Sample data *)

Definition peter : Saint.t :=
  Saint.mk "peter" (Some "St. Peter") "apostle" 25 "June 29" 1 64
           "Galilee, Rome" "Popes, fishermen" "First Pope".
Definition paul : Saint.t :=
  Saint.mk "paul" (Some "St. Paul") "apostle" 20 "June 29" 5 67
           "Tarsus, Rome" "Missionaries, writers" "Apostle to the Gentiles".
Definition augustine : Saint.t :=
  Saint.mk "augustine" (Some "St. Augustine") "doctor" 22 "August 28" 354 430
           "Hippo" "Theologians, printers" "Doctor of Grace".
(** A record whose radius is larger than the viewport. *)
Definition colossus : Saint.t :=
  Saint.mk "colossus" (Some "Blessed Colossus") "martyr" 1300 "January 1" (-10) 30
           "Rhodes" "Sculptors" "Too large for the page".

Definition sample_doc : Doc.t :=
  Doc.mk (Some [peter; paul; augustine])
         (Some [RawLink.mk "peter" "paul" "colleague";
                RawLink.mk "paul" "augustine" "influence"]).

Definition oversize_doc : Doc.t := Doc.mk (Some [colossus]) (Some []).

(** A document whose JSON is fine and which has no [nodes] array. *)
Definition no_nodes_doc : Doc.t := Doc.mk None (Some []).

(** A document one of whose records has no name. *)
Definition nameless_doc : Doc.t :=
  Doc.mk (Some [peter;
                Saint.mk "anonymous" None "martyr" 18 "March 1" 200 250
                         "Rome" "The forgotten" "Name lost"])
         (Some []).

(** A document with a link to a node that is not there. *)
Definition dangling_doc : Doc.t :=
  Doc.mk (Some [peter]) (Some [RawLink.mk "peter" "nobody" "friend"]).

Definition sample_place (i : nat) : Q * Q :=
  (inject_Z (Z.of_nat i) * 900 - 300, 350)%Q.

Definition sample_page : State :=
  page [] (Tooltip.mk None "" None None)
       [Button.mk "filterAll()" true;
        Button.mk "filterByType('apostle')" false;
        Button.mk "filterByType('doctor')" false].

Definition sample_state : State := init sample_place (Parsed sample_doc) sample_page.
Definition oversize_state : State := init sample_place (Parsed oversize_doc) sample_page.

(** ** Keys of the relationship table *)

(** The concatenation [a-b] of two identifiers. *)
Definition pair_key (a b : string) : string := a ++ "-" ++ b.

(** Every way of reading a key as [a-b]: one for each hyphen in it. *)
Fixpoint splits (k : string) : list (string * string) :=
  match k with
  | EmptyString => []
  | String c k' =>
      (if Ascii.eqb c "-" then [(EmptyString, k')] else [])
      ++ map (fun pq => (String c (fst pq), snd pq)) (splits k')
  end.

(** No key of the table, read as [a-b], has its reverse [b-a] in the table as
    another key. *)
Definition one_order (table : list (string * string)) : bool :=
  forallb (fun pq =>
             match obj_get table (pair_key (snd pq) (fst pq)) with
             | None => true
             | Some _ => String.eqb (pair_key (snd pq) (fst pq)) (pair_key (fst pq) (snd pq))
             end)
          (flat_map splits (map fst table)).

(** A hovered node with Peter's tooltip fields and everything else different. *)
Definition simon : Saint.t :=
  Saint.mk "simon" (Some "St. Peter") "martyr" 40 "June 29" 1 64
           "Galilee, Rome" "Popes, fishermen" "First Pope".

(** ** The other hover listeners *)

(** [tooltip.style("opacity", 0)]: the content and the position stay. *)
Definition hide (t : Tooltip.t) : Tooltip.t :=
  Tooltip.mk (Some 0%Q) (Tooltip.html t) (Tooltip.left t) (Tooltip.top t).

(** [handleMouseOut] on the circle at position [this] of the node selection.
    The transition is recorded by the radius it ends on. *)
Definition handleMouseOut (this : nat) (event : MouseEvent.t) (d : Node.t)
    (s : State) : completion State :=
  let shrink (c : Circle.t) :=
    match live_nodes s !! Circle.datum c with
    | Some d => Circle.set_r (Node.size d) c
    | None => c
    end in
  let s := set_node (alter shrink this <$> node s) s in
  if tooltip s then Normal (set_tooltip_el (hide (tooltip_el s)) s)
  else Thrown s.

(** [attr("stroke-width", w)] followed by [style("stroke", colour)]. *)
Definition line_set_stroke (w : Q) (colour : string) (e : Line.t) : Line.t :=
  Line.mk (Line.datum e) (Line.class e) w (Line.cursor e) (Some colour)
          (Line.x1 e) (Line.y1 e) (Line.x2 e) (Line.y2 e) (Line.opacity e).

(** The stroke width of a hovered line. *)
Definition hover_width_of (l : Link.t) : Q :=
  if String.eqb (Link.type l) "mentor" then 5
  else if String.eqb (Link.type l) "order" then 4
  else 3.

Definition relationshipDescriptions : list (string * string) :=
  [ ("mentor", "Mentor-Student relationship");
    ("contemporary", "Lived at the same time");
    ("influence", "Theological/spiritual influence");
    ("order", "Same religious order");
    ("friend", "Personal friendship");
    ("colleague", "Worked together") ].

(** [d.source.name]: [undefined] when the end is still an identifier string. *)
Definition endpoint_name (ns : list Node.t) (e : endpoint) : option string :=
  deref ns e ≫= Node.name.

(** The template literal of [handleLinkMouseOver]. *)
Definition link_tooltip_html (ns : list Node.t) (d : Link.t) : string :=
  let description :=
    or_else (obj_get relationshipDescriptions (Link.type d)) "Connected" in
  nl ++ indent12 ++ "<h3>" ++ template_of (endpoint_name ns (Link.source d))
        ++ " ↔ " ++ template_of (endpoint_name ns (Link.target d)) ++ "</h3>"
  ++ nl ++ indent12 ++ "<p><strong>Relationship:</strong> " ++ description ++ "</p>"
  ++ nl ++ indent12 ++ "<p><em>" ++ getRelationshipDetail ns d ++ "</em></p>"
  ++ nl ++ indent8.

(** [handleLinkMouseOver] on the line at position [this] of the link
    selection, with its datum [d].  The transition is recorded by what it
    ends on: the colour interpolator of the style transition towards
    [#8B4513] leaves the inline style [rgb(139, 69, 19)]. *)
Definition handleLinkMouseOver (this : nat) (event : MouseEvent.t) (d : Link.t)
    (s : State) : completion State :=
  let highlight (l : Line.t) :=
    match live_links s !! Line.datum l with
    | Some d => line_set_stroke (hover_width_of d) "rgb(139, 69, 19)" l
    | None => l
    end in
  let ns := live_nodes s in
  let s := set_link (alter highlight this <$> link s) s in
  if tooltip s then
    Normal (set_tooltip_el
              (Tooltip.mk (Some 1%Q) (link_tooltip_html ns d)
                 (Some (Number_toString (MouseEvent.pageX event + 10) ++ "px"))
                 (Some (Number_toString (MouseEvent.pageY event - 10) ++ "px")))
              s)
  else Thrown s.

Definition handleLinkMouseOut (this : nat) (event : MouseEvent.t) (d : Link.t)
    (s : State) : completion State :=
  let reset (l : Line.t) :=
    match live_links s !! Line.datum l with
    | Some d => line_set_stroke (stroke_width_of d) "rgba(139, 69, 19, 0.4)" l
    | None => l
    end in
  let s := set_link (alter reset this <$> link s) s in
  if tooltip s then Normal (set_tooltip_el (hide (tooltip_el s)) s)
  else Thrown s.

(** Every listener of the page. *)
Inductive Event : Type :=
| Act (a : Action)
| MouseOut (this : nat) (event : MouseEvent.t) (d : Node.t)
| LinkMouseOver (this : nat) (event : MouseEvent.t) (d : Link.t)
| LinkMouseOut (this : nat) (event : MouseEvent.t) (d : Link.t).

Section Listeners.

Variable physics : list Node.t -> list Node.t.

Definition listen (ev : Event) (s : State) : completion State :=
  match ev with
  | Act a => handle physics a s
  | MouseOut this event d => handleMouseOut this event d s
  | LinkMouseOver this event d => handleLinkMouseOver this event d s
  | LinkMouseOut this event d => handleLinkMouseOut this event d s
  end.

(** The state after a run of events, and whether every listener returned. *)
Fixpoint listen_all (evs : list Event) (s : State) : bool * State :=
  match evs with
  | [] => (true, s)
  | ev :: evs' =>
      let r := listen ev s in
      let rest := listen_all evs' (final r) in
      (returns r && fst rest, snd rest)
  end.

End Listeners.

(** Everything a listener reads is there: the data are live, the three
    selections, the simulation and the tooltip are defined. *)
Definition operational (s : State) : bool :=
  ready s && is_some (simulation s) && tooltip s.

(** The [onclick] text [updateButtons] looks for. *)
Definition button_target (s : State) : string :=
  if String.eqb (currentFilter s) "all" then "filterAll()"
  else "filterByType('" ++ currentFilter s ++ "')".


(** The text of a node's label. *)
Definition label_text (name : string) : string :=
  replace "Blessed " "" (replace "St. " "" name).

(** [pat] occurs somewhere in [s]. *)
Fixpoint occurs (pat s : string) : bool :=
  startsWith pat s
  || match s with
     | EmptyString => false
     | String _ s' => occurs pat s'
     end.

(** A node object with both pins cleared. *)
Definition unpin (d : Node.t) : Node.t := Node.set_fy None (Node.set_fx None d).

(** A whole drag gesture: a start, moves, an end. *)
Definition gesture (start : DragEvent.t) (moves : list DragEvent.t) (stop : DragEvent.t)
    : list Action :=
  DragStart start :: (map DragMove moves ++ [DragEnd stop])%list.

(** The events of one gesture on one node, with no other gesture in
    progress at its start and at its end. *)
Definition single_gesture (start : DragEvent.t) (moves : list DragEvent.t)
    (stop : DragEvent.t) : bool :=
  Nat.eqb (DragEvent.active start) 0
  && Nat.eqb (DragEvent.active stop) 0
  && Nat.eqb (DragEvent.subject stop) (DragEvent.subject start)
  && forallb (fun m => Nat.eqb (DragEvent.subject m) (DragEvent.subject start)) moves.

(** What no hover listener writes. *)
Definition beyond_hover (s : State)
  : SaintsData * option Svg.t * option Simulation.t * bool * string
    * list Child * list Button.t :=
  (saintsData s, svg s, simulation s, tooltip s, currentFilter s, network s, buttons s).

(** What no drag listener writes. *)
Definition beyond_drag (s : State)
  : option Svg.t * option (list Circle.t) * option (list Line.t) * option (list Text.t)
    * bool * string * list Child * Tooltip.t * list Button.t * list Link.t :=
  (svg s, node s, link s, label s, tooltip s, currentFilter s, network s,
   tooltip_el s, buttons s, live_links s).

(** What the tick listener does not write: everything but the nodes' x and
    y and the coordinates of the shapes. *)
Definition beyond_tick (s : State)
  : option Svg.t * option Simulation.t * bool * string * list Child * Tooltip.t
    * list Button.t * list Link.t
    * list (Saint.t * (option Q * option Q))
    * list Circle.t * list Text.t * list Line.t :=
  (svg s, simulation s, tooltip s, currentFilter s, network s, tooltip_el s, buttons s,
   live_links s,
   (fun d => (Node.data d, pin d)) <$> live_nodes s,
   Circle.set_centre None None <$> elements (node s),
   Text.set_pos None None <$> elements (label s),
   Line.set_ends None None None None <$> elements (link s)).

(** A filter name that can be written between the double quotes of the
    attribute selector built by [updateButtons] as it is: it has no double
    quote, no backslash and no control character.  For such names the
    selector matches the buttons whose [onclick] is exactly the text looked
    for; for others [d3.select] is given a malformed selector. *)
Definition selector_safe (type : string) : bool :=
  forallb (fun c => negb (Ascii.eqb c "034") && negb (Ascii.eqb c "092")
                    && Nat.leb 32 (nat_of_ascii c))
          (list_ascii_of_string type).

Definition safe_event (ev : Event) : bool :=
  match ev with
  | Act (FilterByType type) => selector_safe type
  | _ => true
  end.

(** * Properties *)

(** ** The model on the sample page *)

Example label_text_drops_the_title :
  replace "Blessed " "" (replace "St. " "" "St. Peter") = "Peter"
  /\ replace "Blessed " "" (replace "St. " "" "Blessed Colossus") = "Colossus".
Proof. split; reflexivity. Qed.

Example years_before_and_after :
  year_display (-10) = "10 BC" /\ year_display 64 = "64 AD".
Proof. split; reflexivity. Qed.

Example sample_links_resolved :
  live_links sample_state
  = [Link.mk (Ref 0) (Ref 1) "colleague"; Link.mk (Ref 1) (Ref 2) "influence"].
Proof. reflexivity. Qed.

Example sample_tick_clamps :
  Node.x <$> live_nodes (final (updatePositions sample_state)) = [25%Q; 600%Q; 1178%Q].
Proof. reflexivity. Qed.

Example sample_filter_button :
  Button.active <$> buttons (final (filterByType "doctor" sample_state))
  = [false; false; true].
Proof. reflexivity. Qed.

Example dangling_link_half_resolved :
  live_links (init sample_place (Parsed dangling_doc) sample_page)
  = [Link.mk (Ref 0) (Id "nobody") "friend"].
Proof. reflexivity. Qed.

(** ** The clamp *)

Section Clamp.

Variables size extent v : Q.

Lemma clamp_lower : (size <= clamp size extent v)%Q.
Proof. unfold clamp. apply Q.le_max_l. Qed.

Lemma clamp_upper : (2 * size <= extent)%Q -> (clamp size extent v <= extent - size)%Q.
Proof.
  intros Hfit. unfold clamp.
  apply Q.max_lub; [lra | apply Q.le_min_l].
Qed.

Lemma clamp_oversize : (extent < 2 * size)%Q -> clamp size extent v = size.
Proof.
  intros Hbig. unfold clamp, Qmax, GenericMinMax.gmax.
  destruct (Qcompare_spec size (Qmin (extent - size) v)) as [E | L | G];
    try reflexivity.
  exfalso. pose proof (Q.le_min_l (extent - size) v). lra.
Qed.

Lemma clamp_within : (2 * size <= extent)%Q -> within size extent (clamp size extent v).
Proof. intros Hfit. split; [apply clamp_lower | now apply clamp_upper]. Qed.

Lemma clamp_promise : promise_iff_fits size extent (clamp size extent v).
Proof.
  split.
  - split; [| apply clamp_within].
    intros [Hlo Hhi]. lra.
  - intros Hbig. rewrite (clamp_oversize Hbig). split; [reflexivity | lra].
Qed.

End Clamp.

Lemma clampNode_size d : Node.size (clampNode d) = Node.size d.
Proof. reflexivity. Qed.

Lemma clampNode_x d : Node.x (clampNode d) = clamp (Node.size d) width (Node.x d).
Proof. reflexivity. Qed.

Lemma clampNode_y d : Node.y (clampNode d) = clamp (Node.size d) height (Node.y d).
Proof. reflexivity. Qed.

Lemma clampNode_pin d : pin (clampNode d) = pin d.
Proof. reflexivity. Qed.

Lemma clampNode_in_bounds d : fits d -> in_bounds (clampNode d).
Proof.
  intros [Hw Hh]. split.
  - rewrite clampNode_x, clampNode_size. now apply clamp_within.
  - rewrite clampNode_y, clampNode_size. now apply clamp_within.
Qed.

(** ** The tick listener *)

Lemma ready_inv s :
  ready s = true ->
  exists ns ls cs lns ts,
    saintsData s = Live ns ls /\ node s = Some cs /\ link s = Some lns /\ label s = Some ts.
Proof.
  unfold ready. intros H.
  destruct (saintsData s) as [| doc | ns ls]; try discriminate.
  destruct (node s) as [cs |]; try discriminate.
  destruct (link s) as [lns |]; try discriminate.
  destruct (label s) as [ts |]; try discriminate.
  now exists ns, ls, cs, lns, ts.
Qed.

Lemma updatePositions_Normal s ns ls cs lns ts :
  saintsData s = Live ns ls -> node s = Some cs -> link s = Some lns -> label s = Some ts ->
  updatePositions s =
  Normal (set_label (Some (place_text (clampNode <$> ns) <$> ts))
            (set_node (Some (place_circle (clampNode <$> ns) <$> cs))
               (set_link (Some (place_line (clampNode <$> ns) ls <$> lns))
                  (set_saintsData (Live (clampNode <$> ns) ls) s)))).
Proof.
  intros Hd Hn Hl Ht. destruct s; simpl in *; subst.
  reflexivity.
Qed.

Lemma updatePositions_nodes s :
  live_nodes (final (updatePositions s)) = clampNode <$> live_nodes s.
Proof.
  unfold updatePositions, live_nodes.
  destruct (saintsData s) as [| doc | ns ls] eqn:Hd; simpl; try now rewrite Hd.
  destruct (link s); simpl; [| reflexivity].
  destruct (node s); simpl; [| reflexivity].
  destruct (label s); reflexivity.
Qed.

Lemma tick_unfold physics s ns ls :
  saintsData s = Live ns ls ->
  tick physics s = updatePositions (set_saintsData (Live (physics ns) ls) s).
Proof. intros Hd. unfold tick. now rewrite Hd. Qed.

(** After a tick every node is a clamped node. *)
Lemma tick_clamped physics s i d :
  live_nodes (final (tick physics s)) !! i = Some d ->
  exists d0, d = clampNode d0.
Proof.
  intros Hi.
  assert (exists t, live_nodes (final (tick physics s)) = clampNode <$> live_nodes t) as [t Ht].
  { unfold tick. destruct (saintsData s); eexists; apply updatePositions_nodes. }
  rewrite Ht, list_lookup_fmap in Hi.
  destruct (live_nodes t !! i) as [d0 |]; simplify_eq/=. now exists d0.
Qed.

Lemma tick_ready physics s :
  ready s = true ->
  returns (tick physics s) = true /\ ready (final (tick physics s)) = true.
Proof.
  intros Hr. destruct (ready_inv s Hr) as (ns & ls & cs & lns & ts & Hd & Hn & Hl & Ht).
  rewrite (tick_unfold physics s ns ls Hd).
  erewrite updatePositions_Normal; [| destruct s; simpl in *; subst; reflexivity ..].
  split; reflexivity.
Qed.

(** After a tick the shapes bound to a node sit on the node's position. *)
Lemma tick_rendered physics s :
  ready s = true ->
  let s' := final (tick physics s) in
  (forall c, c ∈ elements (node s') ->
     Circle.cx c = Node.x <$> live_nodes s' !! Circle.datum c
     /\ Circle.cy c = Node.y <$> live_nodes s' !! Circle.datum c)
  /\ (forall t, t ∈ elements (label s') ->
        Text.x t = Node.x <$> live_nodes s' !! Text.datum t
        /\ Text.y t = Node.y <$> live_nodes s' !! Text.datum t).
Proof.
  intros Hr. destruct (ready_inv s Hr) as (ns & ls & cs & lns & ts & Hd & Hn & Hl & Ht).
  rewrite (tick_unfold physics s ns ls Hd).
  erewrite updatePositions_Normal; [| destruct s; simpl in *; subst; reflexivity ..].
  simpl. split.
  - intros c Hc. apply list_elem_of_fmap in Hc as (c0 & -> & _). split; reflexivity.
  - intros t Hc. apply list_elem_of_fmap in Hc as (t0 & -> & _). split; reflexivity.
Qed.

(** ** Drag listeners on one node *)

Lemma update_node_lookup i f s d :
  live_nodes s !! i = Some d ->
  live_nodes (update_node i f s) !! i = Some (f d).
Proof.
  unfold update_node, live_nodes.
  destruct (saintsData s) as [| doc | ns ls] eqn:Hd; simpl; rewrite ?Hd; try discriminate.
  intros Hi. now rewrite list_lookup_alter_eq, Hi.
Qed.

Lemma update_node_other i j f s :
  i <> j -> live_nodes (update_node i f s) !! j = live_nodes s !! j.
Proof.
  unfold update_node, live_nodes. intros Hij.
  destruct (saintsData s) as [| doc | ns ls] eqn:Hd; simpl; rewrite ?Hd; try reflexivity.
  now apply list_lookup_alter_ne.
Qed.

Lemma update_node_inv i j f s d' :
  live_nodes (update_node i f s) !! j = Some d' ->
  exists d, live_nodes s !! j = Some d /\ d' = (if decide (i = j) then f d else d).
Proof.
  unfold update_node, live_nodes.
  destruct (saintsData s) as [| doc | ns ls] eqn:Hd; simpl; rewrite ?Hd; try discriminate.
  rewrite list_lookup_alter. destruct (decide (i = j)) as [-> |].
  - destruct (ns !! j) as [d |]; intros; simplify_eq/=. eauto.
  - intros ->. eauto.
Qed.

Lemma dragged_node event s d :
  live_nodes s !! DragEvent.subject event = Some d ->
  live_nodes (final (dragged event s)) !! DragEvent.subject event =
  Some (Node.set_fy (Some (clamp (Node.size d) height (DragEvent.y event)))
          (Node.set_fx (Some (clamp (Node.size d) width (DragEvent.x event))) d)).
Proof.
  intros Hi. unfold dragged. simpl.
  exact (update_node_lookup _
           (fun d =>
              Node.set_fy (Some (clamp (Node.size d) height (DragEvent.y event)))
                (Node.set_fx (Some (clamp (Node.size d) width (DragEvent.x event))) d))
           s d Hi).
Qed.

(** ** C9 and C1: the viewport guarantee *)

(** C9. The guarantee of the position clamp holds exactly when the node fits.
    After [updatePositions] a node has its size unchanged and the position
    [max(size, min(width - size, x))] (likewise [y] with [height]); after
    [dragged] its pin is the pointer position clamped the same way.  In both
    the result lies in [size, width - size] (and [size, height - size]) if
    and only if [2 * size <= width] (and [2 * size <= height]); for a larger
    node the result is [size], which is greater than [width - size], and the
    node is moved there, not rejected. *)
Theorem clamp_guarantee_needs_fitting_size (d : Node.t) (event : DragEvent.t) (s : State) :
  live_nodes s !! DragEvent.subject event = Some d ->
  (exists d',
     live_nodes (final (updatePositions s)) !! DragEvent.subject event = Some d'
     /\ Node.size d' = Node.size d
     /\ Node.x d' = clamp (Node.size d) width (Node.x d)
     /\ Node.y d' = clamp (Node.size d) height (Node.y d)
     /\ promise_iff_fits (Node.size d) width (Node.x d')
     /\ promise_iff_fits (Node.size d) height (Node.y d'))
  /\ exists px py,
       pin <$> live_nodes (final (dragged event s)) !! DragEvent.subject event
       = Some (Some px, Some py)
       /\ px = clamp (Node.size d) width (DragEvent.x event)
       /\ py = clamp (Node.size d) height (DragEvent.y event)
       /\ promise_iff_fits (Node.size d) width px
       /\ promise_iff_fits (Node.size d) height py.
Proof.
  intros Hi. split.
  - exists (clampNode d).
    split; [now rewrite updatePositions_nodes, list_lookup_fmap, Hi |].
    split; [apply clampNode_size |].
    split; [apply clampNode_x |]. split; [apply clampNode_y |].
    split; [rewrite clampNode_x | rewrite clampNode_y]; apply clamp_promise.
  - rewrite (dragged_node event s d Hi). simpl.
    eexists _, _. split; [reflexivity |].
    split; [reflexivity |]. split; [reflexivity |].
    split; apply clamp_promise.
Qed.

(** C9, at the oversize sample: on a tick a radius of 1300 puts the node at
    1300, outside the viewport. *)
Lemma clamp_guarantee_needs_fitting_size_witness :
  exists d',
    live_nodes (final (updatePositions oversize_state)) !! 0%nat = Some d'
    /\ Node.x d' = 1300%Q
    /\ ~ within 1300 width (Node.x d').
Proof.
  destruct (clamp_guarantee_needs_fitting_size
              (Node.mk colossus (-300) 350 None None)
              (DragEvent.mk 0 0 40 40) oversize_state eq_refl)
    as ((d' & Hd' & _ & _ & _ & [Hiff Hbig] & _) & _).
  exists d'. split; [exact Hd' |]. split.
  - apply Hbig. unfold width, Qlt. simpl. lia.
  - intros Hin. apply Hiff in Hin. revert Hin. unfold width, Qle. simpl. lia.
Defined.

(** C1 as written fails: a node of radius 1300 is clamped to x = 1300, which
    is neither in [size, width - size] nor a point of the viewport. *)
Lemma position_clamp_counterexample :
  ~ (forall s s' i d,
       updatePositions s = Normal s' -> live_nodes s' !! i = Some d ->
       in_bounds d \/ in_viewport (Node.x d) (Node.y d)).
Proof.
  intros Hall.
  destruct (Hall oversize_state (final (updatePositions oversize_state)) 0%nat
              (Node.mk colossus 1300 1300 None None) eq_refl eq_refl)
    as [[[_ Hhi] _] | (_ & Hhi & _)];
    revert Hhi; unfold width, Qle; simpl; lia.
Qed.

(** C1 (amended). For a set-up page, a tick returns, and every node whose
    diameter fits the viewport ([2 * size <= width] and [2 * size <= height])
    then has x in [size, width - size] and y in [size, height - size]; the
    circle and the label bound to it are drawn at that position, which for a
    non-negative radius is a point of the 1200 x 700 viewport.  A drag step on
    such a node pins it at a position within the same bounds. *)
Theorem position_clamp_when_node_fits
    (physics : list Node.t -> list Node.t) (event : DragEvent.t)
    (s : State) (i : nat) (d p : Node.t) :
  ready s = true ->
  live_nodes (final (tick physics s)) !! i = Some d -> fits d ->
  live_nodes s !! DragEvent.subject event = Some p -> fits p ->
  returns (tick physics s) = true
  /\ in_bounds d
  /\ ((0 <= Node.size d)%Q -> in_viewport (Node.x d) (Node.y d))
  /\ (forall c, c ∈ elements (node (final (tick physics s))) -> Circle.datum c = i ->
        Circle.cx c = Some (Node.x d) /\ Circle.cy c = Some (Node.y d))
  /\ (forall t, t ∈ elements (label (final (tick physics s))) -> Text.datum t = i ->
        Text.x t = Some (Node.x d) /\ Text.y t = Some (Node.y d))
  /\ returns (dragged event s) = true
  /\ exists px py,
       pin <$> live_nodes (final (dragged event s)) !! DragEvent.subject event
       = Some (Some px, Some py)
       /\ within (Node.size p) width px /\ within (Node.size p) height py
       /\ ((0 <= Node.size p)%Q -> in_viewport px py).
Proof.
  intros Hr Hd Hfd Hp Hfp.
  assert (in_bounds d) as Hin.
  { destruct (tick_clamped physics s i d Hd) as [d0 ->].
    now apply clampNode_in_bounds. }
  destruct (tick_rendered physics s Hr) as [Hcs Hts].
  split; [apply (tick_ready physics s Hr) |].
  split; [exact Hin |].
  split.
  { intros H0. destruct Hin as [[? ?] [? ?]]. unfold in_viewport. repeat split; lra. }
  split.
  { intros c Hc <-. destruct (Hcs c Hc) as [-> ->]. now rewrite Hd. }
  split.
  { intros t Ht <-. destruct (Hts t Ht) as [-> ->]. now rewrite Hd. }
  split; [reflexivity |].
  rewrite (dragged_node event s p Hp). simpl.
  destruct Hfp as [Hw Hh].
  pose proof (clamp_within (Node.size p) width (DragEvent.x event) Hw) as Hx.
  pose proof (clamp_within (Node.size p) height (DragEvent.y event) Hh) as Hy.
  eexists _, _. split; [reflexivity |]. split; [exact Hx |]. split; [exact Hy |].
  intros H0. destruct Hx, Hy. unfold in_viewport. repeat split; lra.
Qed.

(** C1 at the sample page: Peter, placed at x = -300 by the layout, is back at
    x = 25 after a tick, while Augustine is dragged far to the right. *)
Lemma position_clamp_when_node_fits_witness :
  in_bounds (Node.mk peter 25 350 None None).
Proof.
  refine (proj1 (proj2 (position_clamp_when_node_fits
            (fun ns => ns) (DragEvent.mk 0 2 5000 (-40)) sample_state 0%nat
            (Node.mk peter 25 350 None None)
            (Node.mk augustine 1500 350 None None) _ _ _ _ _))).
  - reflexivity.
  - vm_compute. reflexivity.
  - unfold fits, width, height, Qle. simpl. lia.
  - reflexivity.
  - unfold fits, width, height, Qle. simpl. lia.
Defined.

(** ** What each listener leaves alone *)

Lemma updateButtons_frame s :
  saintsData (updateButtons s) = saintsData s
  /\ simulation (updateButtons s) = simulation s
  /\ node (updateButtons s) = node s
  /\ link (updateButtons s) = link s
  /\ label (updateButtons s) = label s.
Proof. repeat split. Qed.

Lemma filterAll_keeps s :
  saintsData (final (filterAll s)) = saintsData s
  /\ simulation (final (filterAll s)) = simulation s.
Proof.
  unfold filterAll. simpl.
  destruct (node s); simpl; [| now split].
  destruct (label s); simpl; [| now split].
  destruct (link s); simpl; now split.
Qed.

Lemma filterByType_keeps type s :
  saintsData (final (filterByType type s)) = saintsData s
  /\ simulation (final (filterByType type s)) = simulation s.
Proof.
  unfold filterByType. simpl.
  destruct (node s); simpl; [| now split].
  destruct (label s); simpl; [| now split].
  destruct (link s); simpl; now split.
Qed.

Lemma handleMouseOver_keeps this event d s :
  saintsData (final (handleMouseOver this event d s)) = saintsData s
  /\ simulation (final (handleMouseOver this event d s)) = simulation s.
Proof.
  unfold handleMouseOver. simpl.
  destruct (tooltip s); simpl; now split.
Qed.

Lemma updatePositions_simulation s :
  simulation (final (updatePositions s)) = simulation s.
Proof.
  unfold updatePositions.
  destruct (saintsData s); simpl; try reflexivity.
  destruct (link s); simpl; [| reflexivity].
  destruct (node s); simpl; [| reflexivity].
  destruct (label s); reflexivity.
Qed.

Lemma tick_simulation physics s :
  simulation (final (tick physics s)) = simulation s.
Proof.
  unfold tick. destruct (saintsData s); now rewrite updatePositions_simulation.
Qed.

Lemma tick_nodes physics s :
  live_nodes (final (tick physics s)) = clampNode <$> physics (live_nodes s)
  \/ (live_nodes (final (tick physics s)) = [] /\ live_nodes s = []).
Proof.
  unfold tick. destruct (saintsData s) as [| doc | ns ls] eqn:Hd.
  - right. rewrite updatePositions_nodes. unfold live_nodes. now rewrite Hd.
  - right. rewrite updatePositions_nodes. unfold live_nodes. now rewrite Hd.
  - left. rewrite updatePositions_nodes. unfold live_nodes at 2. now rewrite Hd.
Qed.

Lemma update_node_simulation i f s : simulation (update_node i f s) = simulation s.
Proof. unfold update_node. now destruct (saintsData s). Qed.

Lemma retarget_spec event a restart s :
  simulation s <> None ->
  exists s', retarget event a restart s = Normal s'
             /\ saintsData s' = saintsData s /\ simulation s' <> None.
Proof.
  intros Hsim. unfold retarget.
  destruct (DragEvent.active event).
  - destruct (simulation s) as [sim |] eqn:Hs; [| contradiction].
    eexists. split; [reflexivity |]. split; [reflexivity | discriminate].
  - eexists. split; [reflexivity |]. now split.
Qed.

Lemma live_nodes_data s s' : saintsData s' = saintsData s -> live_nodes s' = live_nodes s.
Proof. unfold live_nodes. now intros ->. Qed.

Lemma dragstarted_node event s d :
  simulation s <> None ->
  live_nodes s !! DragEvent.subject event = Some d ->
  returns (dragstarted event s) = true
  /\ live_nodes (final (dragstarted event s)) !! DragEvent.subject event
     = Some (Node.set_fy (Some (Node.y d)) (Node.set_fx (Some (Node.x d)) d)).
Proof.
  intros Hsim Hi. unfold dragstarted.
  destruct (retarget_spec event 0.3 true s Hsim) as (s' & -> & Hd & _). simpl.
  split; [reflexivity |].
  erewrite update_node_lookup; [reflexivity |].
  now rewrite (live_nodes_data s s' Hd).
Qed.

Lemma dragended_node event s d :
  simulation s <> None ->
  live_nodes s !! DragEvent.subject event = Some d ->
  returns (dragended event s) = true
  /\ live_nodes (final (dragended event s)) !! DragEvent.subject event
     = Some (Node.set_fy None (Node.set_fx None d)).
Proof.
  intros Hsim Hi. unfold dragended.
  destruct (retarget_spec event 0 false s Hsim) as (s' & -> & Hd & _). simpl.
  split; [reflexivity |].
  erewrite update_node_lookup; [reflexivity |].
  now rewrite (live_nodes_data s s' Hd).
Qed.

(** ** C6: pins and gestures *)

Lemma member_cons_eq i act : member i (i :: act) = true.
Proof. unfold member. simpl. now rewrite Nat.eqb_refl. Qed.

Lemma member_cons_mono i j act : member j act = true -> member j (i :: act) = true.
Proof. unfold member. simpl. intros ->. apply orb_true_r. Qed.

Lemma member_remove_one i j act :
  i <> j -> member j act = true -> member j (remove_one i act) = true.
Proof.
  intros Hij. unfold member. induction act as [| k act IH]; simpl; [easy |].
  destruct (Nat.eqb_spec i k) as [-> | Hik].
  - destruct (Nat.eqb_spec j k) as [-> | _]; [congruence | easy].
  - simpl. destruct (Nat.eqb j k); [easy | exact IH].
Qed.

Lemma unpinned_spec s : unpinned s = true -> only_dragged_pinned s [].
Proof.
  unfold unpinned, only_dragged_pinned. intros Hall i d Hi Hp.
  rewrite forallb_forall in Hall.
  assert (In d (live_nodes s)) as Hin.
  { apply list_elem_of_In. eapply list_elem_of_lookup_2, Hi. }
  apply Hall in Hin. rewrite Hp in Hin. discriminate.
Qed.

Section Invariant.

Variable physics : list Node.t -> list Node.t.

(** The layout library reads the pins and never writes them. *)
Hypothesis physics_keeps_pins : forall ns, pin <$> physics ns = pin <$> ns.

Lemma tick_pin s i d :
  live_nodes (final (tick physics s)) !! i = Some d ->
  exists d0, live_nodes s !! i = Some d0 /\ pin d0 = pin d.
Proof.
  intros Hi. destruct (tick_nodes physics s) as [Hn | [Hn _]];
    rewrite Hn in Hi; [| discriminate].
  rewrite list_lookup_fmap in Hi.
  destruct (physics (live_nodes s) !! i) as [d1 |] eqn:H1; simplify_eq/=.
  assert ((pin <$> physics (live_nodes s)) !! i = Some (pin d1)) as Hp.
  { now rewrite list_lookup_fmap, H1. }
  rewrite physics_keeps_pins, list_lookup_fmap in Hp.
  destruct (live_nodes s !! i) as [d0 |]; simplify_eq/=.
  exists d0. split; [reflexivity |]. rewrite clampNode_pin.
  unfold pin. congruence.
Qed.

Lemma pinned_pin d d' : pin d = pin d' -> pinned d = pinned d'.
Proof. unfold pin, pinned. now intros [= -> ->]. Qed.

(** One event keeps the invariant, with the gestures tracked. *)
Lemma handle_invariant a s act :
  simulation s <> None ->
  only_dragged_pinned s act ->
  expected act a = true ->
  simulation (final (handle physics a s)) <> None
  /\ only_dragged_pinned (final (handle physics a s)) (track act a).
Proof.
  intros Hsim Hinv Hexp. destruct a as [e | e | e | | | type | this e d]; simpl.
  - (* start *)
    unfold dragstarted.
    destruct (retarget_spec e 0.3 true s Hsim) as (s' & -> & Hd & Hs'). simpl.
    split; [now rewrite update_node_simulation |].
    intros j d' Hj Hp.
    apply update_node_inv in Hj as (d & Hj & ->).
    rewrite (live_nodes_data s s' Hd) in Hj.
    destruct (decide (DragEvent.subject e = j)) as [-> | Hne].
    + apply member_cons_eq.
    + apply member_cons_mono. eapply Hinv; eauto.
  - (* move *)
    unfold dragged. simpl.
    split; [now rewrite update_node_simulation |].
    intros j d' Hj Hp.
    apply update_node_inv in Hj as (d & Hj & ->).
    destruct (decide (DragEvent.subject e = j)) as [<- | Hne].
    + exact Hexp.
    + eapply Hinv; eauto.
  - (* end *)
    unfold dragended.
    destruct (retarget_spec e 0 false s Hsim) as (s' & -> & Hd & Hs'). simpl.
    split; [now rewrite update_node_simulation |].
    intros j d' Hj Hp.
    apply update_node_inv in Hj as (d & Hj & ->).
    rewrite (live_nodes_data s s' Hd) in Hj.
    destruct (decide (DragEvent.subject e = j)) as [-> | Hne].
    + discriminate Hp.
    + apply member_remove_one; [exact Hne |]. eapply Hinv; eauto.
  - (* tick *)
    split; [now rewrite tick_simulation |].
    intros j d' Hj Hp.
    destruct (tick_pin s j d' Hj) as (d0 & Hj0 & Hpin).
    eapply Hinv; [exact Hj0 |]. now rewrite (pinned_pin d0 d' Hpin).
  - (* filterAll *)
    destruct (filterAll_keeps s) as [Hd Hs].
    split; [now rewrite Hs |].
    intros j d' Hj Hp. rewrite (live_nodes_data _ _ Hd) in Hj. eapply Hinv; eauto.
  - (* filterByType *)
    destruct (filterByType_keeps type s) as [Hd Hs].
    split; [now rewrite Hs |].
    intros j d' Hj Hp. rewrite (live_nodes_data _ _ Hd) in Hj. eapply Hinv; eauto.
  - (* hover *)
    destruct (handleMouseOver_keeps this e d s) as [Hd Hs].
    split; [now rewrite Hs |].
    intros j d' Hj Hp. rewrite (live_nodes_data _ _ Hd) in Hj. eapply Hinv; eauto.
Qed.

Lemma run_invariant evs :
  forall s act,
    simulation s <> None ->
    only_dragged_pinned s act ->
    protocol act evs = true ->
    only_dragged_pinned (run physics evs s) (fold_left track evs act).
Proof.
  induction evs as [| a evs IH]; intros s act Hsim Hinv Hproto; simpl.
  - exact Hinv.
  - simpl in Hproto. apply andb_true_iff in Hproto as [Hexp Hrest].
    destruct (handle_invariant a s act Hsim Hinv Hexp) as [Hsim' Hinv'].
    now apply IH.
Qed.

End Invariant.

(** C6 as written fails in its clause on [dragged]: the node of radius 1300
    is pinned at (1300, 1300), outside the 1200 x 700 viewport. *)
Lemma pins_only_while_dragged_counterexample :
  ~ (forall event s px py,
       pin <$> live_nodes (final (dragged event s)) !! DragEvent.subject event
       = Some (Some px, Some py) ->
       in_viewport px py).
Proof.
  intros Hall.
  destruct (Hall (DragEvent.mk 0 0 40 40) oversize_state 1300%Q 1300%Q eq_refl)
    as (_ & Hx & _).
  revert Hx. unfold width, Qle. simpl. lia.
Qed.

(** C6 (amended). Starting with no node pinned, after any run of events that
    follows the drag protocol (ticks, filters and hovers in between), a node
    whose [fx] or [fy] is non-null is the subject of a gesture in progress;
    with no gesture in progress no node is pinned.  [dragstarted] pins the
    subject at its current x/y, [dragged] pins it at the pointer clamped to
    [size, width - size] x [size, height - size], which is inside the viewport
    when the node fits and its radius is not negative, and [dragended] resets
    both fields to null. *)
Theorem pins_only_while_dragged
    (physics : list Node.t -> list Node.t) (evs : list Action)
    (s : State) (event : DragEvent.t) (d : Node.t) :
  (forall ns, pin <$> physics ns = pin <$> ns) ->
  simulation s <> None ->
  unpinned s = true ->
  protocol [] evs = true ->
  live_nodes s !! DragEvent.subject event = Some d ->
  only_dragged_pinned (run physics evs s) (dragging evs)
  /\ (dragging evs = [] ->
      forall i n, live_nodes (run physics evs s) !! i = Some n ->
                  Node.fx n = None /\ Node.fy n = None)
  /\ pin <$> live_nodes (final (dragstarted event s)) !! DragEvent.subject event
     = Some (Some (Node.x d), Some (Node.y d))
  /\ (exists px py,
        pin <$> live_nodes (final (dragged event s)) !! DragEvent.subject event
        = Some (Some px, Some py)
        /\ px = clamp (Node.size d) width (DragEvent.x event)
        /\ py = clamp (Node.size d) height (DragEvent.y event)
        /\ (fits d -> within (Node.size d) width px /\ within (Node.size d) height py)
        /\ (fits d -> (0 <= Node.size d)%Q -> in_viewport px py))
  /\ pin <$> live_nodes (final (dragended event s)) !! DragEvent.subject event
     = Some (None, None).
Proof.
  intros Hphys Hsim Hun Hproto Hd.
  pose proof (run_invariant physics Hphys evs s [] Hsim (unpinned_spec s Hun) Hproto) as Hinv.
  split; [exact Hinv |].
  split.
  { unfold dragging. intros Hnone i n Hi. rewrite Hnone in Hinv.
    specialize (Hinv i n Hi). unfold pinned in Hinv.
    destruct (Node.fx n), (Node.fy n); try (now split);
      specialize (Hinv eq_refl); discriminate. }
  split.
  { destruct (dragstarted_node event s d Hsim Hd) as [_ ->]. reflexivity. }
  split.
  { rewrite (dragged_node event s d Hd). simpl.
    eexists _, _. split; [reflexivity |]. split; [reflexivity |]. split; [reflexivity |].
    split.
    - intros [Hw Hh]. split; now apply clamp_within.
    - intros [Hw Hh] H0.
      pose proof (clamp_within (Node.size d) width (DragEvent.x event) Hw) as [? ?].
      pose proof (clamp_within (Node.size d) height (DragEvent.y event) Hh) as [? ?].
      unfold in_viewport. repeat split; lra. }
  destruct (dragended_node event s d Hsim Hd) as [_ ->]. reflexivity.
Qed.

(** C6 on the sample page: Paul is dragged, with a tick, a filter and a whole
    gesture on Peter in between; Paul's node is pinned at the end, and Paul is
    the subject of the gesture still in progress. *)
Lemma pins_only_while_dragged_witness :
  member 1
    (dragging
       [DragStart (DragEvent.mk 0 1 600 350); Tick;
        DragMove (DragEvent.mk 0 1 (-50) 900); FilterByType "doctor";
        DragStart (DragEvent.mk 1 0 25 350);
        DragEnd (DragEvent.mk 1 0 25 350); Tick]) = true.
Proof.
  refine (proj1 (pins_only_while_dragged
            (fun ns => ns)
            [DragStart (DragEvent.mk 0 1 600 350); Tick;
             DragMove (DragEvent.mk 0 1 (-50) 900); FilterByType "doctor";
             DragStart (DragEvent.mk 1 0 25 350);
             DragEnd (DragEvent.mk 1 0 25 350); Tick]
            sample_state (DragEvent.mk 0 1 600 350)
            (Node.mk paul 600 350 None None) _ _ _ _ _)
            1%nat (Node.mk paul 600 350 (Some 20%Q) (Some 680%Q)) _ _).
  - intros ns. reflexivity.
  - discriminate.
  - reflexivity.
  - reflexivity.
  - reflexivity.
  - vm_compute. reflexivity.
  - reflexivity.
Defined.

(** ** C8: the frame of the filters *)

Lemma activate_first_inactive k bs : inactive <$> activate_first k bs = inactive <$> bs.
Proof.
  induction bs as [| b bs IH]; [reflexivity |].
  cbn [activate_first].
  destruct (String.eqb (Button.onclick b) k); [reflexivity |].
  rewrite !fmap_cons. now rewrite IH.
Qed.

Lemma inactive_idemp (bs : list Button.t) : inactive <$> (inactive <$> bs) = inactive <$> bs.
Proof. rewrite <- list_fmap_compose. now apply list_fmap_ext. Qed.

Lemma updateButtons_inactive s :
  inactive <$> buttons (updateButtons s) = inactive <$> buttons s.
Proof.
  unfold updateButtons, set_buttons. cbn [buttons].
  destruct (String.eqb (currentFilter s) "all");
    now rewrite activate_first_inactive, inactive_idemp.
Qed.

(** The buttons after [updateButtons] are decided by the filter and by the
    buttons' [onclick] texts alone. *)
Lemma updateButtons_buttons s1 s2 :
  currentFilter s1 = currentFilter s2 ->
  inactive <$> buttons s1 = inactive <$> buttons s2 ->
  buttons (updateButtons s1) = buttons (updateButtons s2).
Proof.
  intros Hf Hb. unfold updateButtons, set_buttons. cbn [buttons].
  now rewrite Hf, Hb.
Qed.

Lemma circle_frame_set v (cs : list Circle.t) :
  circle_frame <$> (Circle.set_opacity v <$> cs) = circle_frame <$> cs.
Proof. rewrite <- list_fmap_compose. now apply list_fmap_ext. Qed.

Lemma circle_frame_set_fun (f : Circle.t -> Q) (cs : list Circle.t) :
  circle_frame <$> ((fun c => Circle.set_opacity (f c) c) <$> cs) = circle_frame <$> cs.
Proof. rewrite <- list_fmap_compose. now apply list_fmap_ext. Qed.

Lemma text_frame_set_fun (f : Text.t -> Q) (ts : list Text.t) :
  text_frame <$> ((fun t => Text.set_opacity (f t) t) <$> ts) = text_frame <$> ts.
Proof. rewrite <- list_fmap_compose. now apply list_fmap_ext. Qed.

Lemma line_frame_set_fun (f : Line.t -> Q) (ls : list Line.t) :
  line_frame <$> ((fun l => Line.set_opacity (f l) l) <$> ls) = line_frame <$> ls.
Proof. rewrite <- list_fmap_compose. now apply list_fmap_ext. Qed.

Lemma filter_frame_updateButtons f s :
  filter_frame (updateButtons (set_currentFilter f s)) = filter_frame s.
Proof.
  unfold filter_frame. simpl. fold inactive.
  f_equal. apply (updateButtons_inactive (set_currentFilter f s)).
Qed.

Lemma filter_frame_set_node (f : Circle.t -> Q) s cs :
  node s = Some cs ->
  filter_frame (set_node (Some ((fun c => Circle.set_opacity (f c) c) <$> cs)) s)
  = filter_frame s.
Proof.
  intros Hn. unfold filter_frame. simpl. rewrite Hn. simpl.
  now rewrite circle_frame_set_fun.
Qed.

Lemma filter_frame_set_label (f : Text.t -> Q) s ts :
  label s = Some ts ->
  filter_frame (set_label (Some ((fun t => Text.set_opacity (f t) t) <$> ts)) s)
  = filter_frame s.
Proof.
  intros Hn. unfold filter_frame. simpl. rewrite Hn. simpl.
  now rewrite text_frame_set_fun.
Qed.

Lemma filter_frame_set_link (f : Line.t -> Q) s ls :
  link s = Some ls ->
  filter_frame (set_link (Some ((fun l => Line.set_opacity (f l) l) <$> ls)) s)
  = filter_frame s.
Proof.
  intros Hn. unfold filter_frame. simpl. rewrite Hn. simpl.
  now rewrite line_frame_set_fun.
Qed.

Lemma filterByType_frame type s :
  filter_frame (final (filterByType type s)) = filter_frame s.
Proof.
  unfold filterByType. cbv zeta.
  set (s0 := updateButtons (set_currentFilter type s)).
  assert (filter_frame s0 = filter_frame s) as H0 by apply filter_frame_updateButtons.
  destruct (node s0) as [cs |] eqn:Hn; [| exact H0].
  match goal with |- context [set_node ?v s0] => set (s1 := set_node v s0) end.
  assert (filter_frame s1 = filter_frame s) as H1.
  { rewrite <- H0. unfold s1.
    apply (filter_frame_set_node
             (fun c => if has_type type (live_nodes s0 !! Circle.datum c) then 1 else 0.2)%Q
             s0 cs Hn). }
  destruct (label s1) as [ts |] eqn:Hl; [| exact H1].
  match goal with |- context [set_label ?v s1] => set (s2 := set_label v s1) end.
  assert (filter_frame s2 = filter_frame s) as H2.
  { rewrite <- H1. unfold s2.
    apply (filter_frame_set_label
             (fun t => if has_type type (live_nodes s0 !! Text.datum t) then 1 else 0.2)%Q
             s1 ts Hl). }
  destruct (link s2) as [ls |] eqn:Hk; [| exact H2].
  rewrite <- H2.
  apply (filter_frame_set_link
           (fun l => if link_matches (live_nodes s0) (live_links s0) type l
                     then 0.7 else 0.1)%Q s2 ls Hk).
Qed.

Lemma filterAll_frame s :
  filter_frame (final (filterAll s)) = filter_frame s.
Proof.
  unfold filterAll. cbv zeta.
  set (s0 := updateButtons (set_currentFilter "all" s)).
  assert (filter_frame s0 = filter_frame s) as H0 by apply filter_frame_updateButtons.
  destruct (node s0) as [cs |] eqn:Hn; [| exact H0].
  match goal with |- context [set_node ?v s0] => set (s1 := set_node v s0) end.
  assert (filter_frame s1 = filter_frame s) as H1.
  { rewrite <- H0. unfold s1. apply (filter_frame_set_node (fun _ => 1%Q) s0 cs Hn). }
  destruct (label s1) as [ts |] eqn:Hl; [| exact H1].
  match goal with |- context [set_label ?v s1] => set (s2 := set_label v s1) end.
  assert (filter_frame s2 = filter_frame s) as H2.
  { rewrite <- H1. unfold s2. apply (filter_frame_set_label (fun _ => 1%Q) s1 ts Hl). }
  destruct (link s2) as [ls |] eqn:Hk; [| exact H2].
  rewrite <- H2. apply (filter_frame_set_link (fun _ => 0.7%Q) s2 ls Hk).
Qed.

Lemma filter_frame_data s s' :
  filter_frame s' = filter_frame s ->
  saintsData s' = saintsData s /\ svg s' = svg s /\ simulation s' = simulation s
  /\ tooltip s' = tooltip s /\ network s' = network s /\ tooltip_el s' = tooltip_el s
  /\ Button.onclick <$> buttons s' = Button.onclick <$> buttons s
  /\ length (elements (node s')) = length (elements (node s))
  /\ length (elements (label s')) = length (elements (label s))
  /\ length (elements (link s')) = length (elements (link s)).
Proof.
  unfold filter_frame. intros [= Hd Hsvg Hn Hl Ht Hsim Htip Hnet Hel Hb].
  repeat split; try assumption.
  - apply (f_equal (fmap Button.onclick)) in Hb.
    rewrite <- !list_fmap_compose in Hb. exact Hb.
  - destruct (node s'), (node s); simplify_eq/=; try reflexivity.
    apply (f_equal length) in Hn. now rewrite !length_fmap in Hn.
  - destruct (label s'), (label s); simplify_eq/=; try reflexivity.
    apply (f_equal length) in Ht. now rewrite !length_fmap in Ht.
  - destruct (link s'), (link s); simplify_eq/=; try reflexivity.
    apply (f_equal length) in Hl. now rewrite !length_fmap in Hl.
Qed.

(** C8. [filterAll] and [filterByType] write only the opacity styles of the
    circles, labels and lines, [currentFilter] and the buttons' [active]
    class: with these left out the state is the one before.  In particular
    [saintsData] (every node's x, y, fx, fy, size and type, every link's ends
    and type) is unchanged, as are the simulation, the tooltip, the container,
    the buttons' [onclick] texts and the number of shapes; this holds also
    when the call throws. *)
Theorem filters_write_only_opacity_filter_buttons (type : string) (s : State) :
  (filter_frame (final (filterAll s)) = filter_frame s
   /\ filter_frame (final (filterByType type s)) = filter_frame s)
  /\ (saintsData (final (filterAll s)) = saintsData s
      /\ saintsData (final (filterByType type s)) = saintsData s)
  /\ (live_nodes (final (filterAll s)) = live_nodes s
      /\ live_links (final (filterAll s)) = live_links s
      /\ live_nodes (final (filterByType type s)) = live_nodes s
      /\ live_links (final (filterByType type s)) = live_links s)
  /\ (simulation (final (filterAll s)) = simulation s
      /\ simulation (final (filterByType type s)) = simulation s)
  /\ (tooltip_el (final (filterAll s)) = tooltip_el s
      /\ tooltip_el (final (filterByType type s)) = tooltip_el s)
  /\ (network (final (filterAll s)) = network s
      /\ network (final (filterByType type s)) = network s)
  /\ (Button.onclick <$> buttons (final (filterAll s)) = Button.onclick <$> buttons s
      /\ Button.onclick <$> buttons (final (filterByType type s))
         = Button.onclick <$> buttons s).
Proof.
  pose proof (filterAll_frame s) as HA.
  pose proof (filterByType_frame type s) as HT.
  destruct (filter_frame_data _ _ HA)
    as (Ad & _ & Asim & _ & Anet & Ael & Ab & _).
  destruct (filter_frame_data _ _ HT)
    as (Td & _ & Tsim & _ & Tnet & Tel & Tb & _).
  repeat split; try assumption; unfold live_nodes, live_links; now rewrite ?Ad, ?Td.
Qed.

(** ** C5: resetting the filter *)

Lemma set_opacity_circles v (cs1 cs2 : list Circle.t) :
  circle_frame <$> cs1 = circle_frame <$> cs2 ->
  Circle.set_opacity v <$> cs1 = Circle.set_opacity v <$> cs2.
Proof.
  intros H.
  assert (forall cs : list Circle.t, Circle.set_opacity v <$> cs
                     = Circle.set_opacity v <$> (circle_frame <$> cs)) as E.
  { intros cs. rewrite <- list_fmap_compose. now apply list_fmap_ext. }
  now rewrite (E cs1), (E cs2), H.
Qed.

Lemma set_opacity_texts v (ts1 ts2 : list Text.t) :
  text_frame <$> ts1 = text_frame <$> ts2 ->
  Text.set_opacity v <$> ts1 = Text.set_opacity v <$> ts2.
Proof.
  intros H.
  assert (forall ts : list Text.t, Text.set_opacity v <$> ts
                     = Text.set_opacity v <$> (text_frame <$> ts)) as E.
  { intros ts. rewrite <- list_fmap_compose. now apply list_fmap_ext. }
  now rewrite (E ts1), (E ts2), H.
Qed.

Lemma set_opacity_lines v (ls1 ls2 : list Line.t) :
  line_frame <$> ls1 = line_frame <$> ls2 ->
  Line.set_opacity v <$> ls1 = Line.set_opacity v <$> ls2.
Proof.
  intros H.
  assert (forall ls : list Line.t, Line.set_opacity v <$> ls
                     = Line.set_opacity v <$> (line_frame <$> ls)) as E.
  { intros ls. rewrite <- list_fmap_compose. now apply list_fmap_ext. }
  now rewrite (E ls1), (E ls2), H.
Qed.

(** [filterAll] reads nothing of what the filters write. *)
Lemma ready_frame s1 s2 : filter_frame s1 = filter_frame s2 -> ready s1 = ready s2.
Proof.
  unfold filter_frame, ready. intros [= Hd _ Hn Hl Ht _].
  rewrite Hd.
  destruct (node s1), (node s2); try discriminate Hn;
    destruct (link s1), (link s2); try discriminate Hl;
    destruct (label s1), (label s2); try discriminate Ht; reflexivity.
Qed.

(** On a set-up page [filterAll] reads nothing of what the filters write. *)
Lemma filterAll_from_frame s1 s2 :
  ready s1 = true ->
  filter_frame s1 = filter_frame s2 -> filterAll s1 = filterAll s2.
Proof.
  intros Hr H.
  pose proof Hr as Hr2. rewrite (ready_frame s1 s2 H) in Hr2.
  destruct (ready_inv s1 Hr) as (ns1 & lk1 & cs1 & ls1 & ts1 & _ & Hn1 & Hl1 & Ht1).
  destruct (ready_inv s2 Hr2) as (ns2 & lk2 & cs2 & ls2 & ts2 & _ & Hn2 & Hl2 & Ht2).
  destruct s1 as [d1 svg1 n1 l1 t1 sim1 tip1 f1 net1 el1 b1].
  destruct s2 as [d2 svg2 n2 l2 t2 sim2 tip2 f2 net2 el2 b2].
  simpl in Hn1, Hl1, Ht1, Hn2, Hl2, Ht2. subst.
  unfold filter_frame in H. simpl in H.
  injection H as -> -> Hn Hl Ht -> -> -> -> Hb.
  cbv [filterAll updateButtons set_currentFilter set_buttons set_node set_label set_link
       saintsData svg node link label simulation tooltip currentFilter network
       tooltip_el buttons].
  change (String.eqb "all" "all") with true. cbv iota.
  rewrite Hb.
  rewrite (set_opacity_circles 1 cs1 cs2 Hn).
  rewrite (set_opacity_texts 1 ts1 ts2 Ht).
  now rewrite (set_opacity_lines 0.7 ls1 ls2 Hl).
Qed.

Lemma filters_frame types :
  forall s, filter_frame (filters types s) = filter_frame s.
Proof.
  unfold filters. induction types as [| type types IH]; intros s; simpl; [reflexivity |].
  rewrite IH. apply filterByType_frame.
Qed.

Lemma filterAll_ready s :
  ready s = true ->
  returns (filterAll s) = true
  /\ currentFilter (final (filterAll s)) = "all"
  /\ node (final (filterAll s)) = Some (Circle.set_opacity 1 <$> elements (node s))
  /\ label (final (filterAll s)) = Some (Text.set_opacity 1 <$> elements (label s))
  /\ link (final (filterAll s)) = Some (Line.set_opacity 0.7 <$> elements (link s)).
Proof.
  intros Hr. destruct (ready_inv s Hr) as (ns & lk & cs & ls & ts & _ & Hn & Hl & Ht).
  destruct s as [d sv n l t sim tip f net el b]. simpl in Hn, Hl, Ht. subst.
  repeat split.
Qed.

(** C5. On a set-up page, whatever filters were chosen before, [filterAll]
    returns, sets [currentFilter] to 'all', gives every circle and every label
    opacity 1 and every line opacity 0.7, and leaves exactly the state that
    [filterAll] leaves when no filter was chosen. *)
Theorem filterAll_restores_full_visibility (types : list string) (s : State) :
  ready s = true ->
  returns (filterAll (filters types s)) = true
  /\ currentFilter (final (filterAll (filters types s))) = "all"
  /\ node (final (filterAll (filters types s)))
     = Some (Circle.set_opacity 1 <$> elements (node s))
  /\ label (final (filterAll (filters types s)))
     = Some (Text.set_opacity 1 <$> elements (label s))
  /\ link (final (filterAll (filters types s)))
     = Some (Line.set_opacity 0.7 <$> elements (link s))
  /\ (forall c, c ∈ elements (node (final (filterAll (filters types s)))) ->
        Circle.opacity c = Some 1%Q)
  /\ (forall t, t ∈ elements (label (final (filterAll (filters types s)))) ->
        Text.opacity t = Some 1%Q)
  /\ (forall l, l ∈ elements (link (final (filterAll (filters types s)))) ->
        Line.opacity l = Some 0.7%Q)
  /\ filterAll (filters types s) = filterAll s.
Proof.
  intros Hr.
  assert (filterAll (filters types s) = filterAll s) as E.
  { apply filterAll_from_frame; [| apply filters_frame].
    now rewrite (ready_frame _ _ (filters_frame types s)). }
  rewrite E.
  destruct (filterAll_ready s Hr) as (Hret & Hf & Hn & Ht & Hl).
  repeat split; try assumption.
  - intros c. rewrite Hn. simpl. intros Hc.
    apply list_elem_of_fmap in Hc as (c0 & -> & _). reflexivity.
  - intros t. rewrite Ht. simpl. intros Hc.
    apply list_elem_of_fmap in Hc as (t0 & -> & _). reflexivity.
  - intros l. rewrite Hl. simpl. intros Hc.
    apply list_elem_of_fmap in Hc as (l0 & -> & _). reflexivity.
Qed.

(** C5 on the sample page, after the doctor and the apostle filters. *)
Lemma filterAll_restores_full_visibility_witness :
  Circle.opacity
    <$> elements (node (final (filterAll (filters ["doctor"; "apostle"] sample_state))))
  = [Some 1%Q; Some 1%Q; Some 1%Q]
  /\ Line.opacity
       <$> elements (link (final (filterAll (filters ["doctor"; "apostle"] sample_state))))
     = [Some 0.7%Q; Some 0.7%Q].
Proof.
  destruct (filterAll_restores_full_visibility ["doctor"; "apostle"] sample_state eq_refl)
    as (_ & _ & Hn & _ & Hl & _).
  rewrite Hn, Hl. split; reflexivity.
Defined.

(** ** C2: filtering by category *)

Lemma filterByType_ready type s :
  ready s = true ->
  returns (filterByType type s) = true
  /\ currentFilter (final (filterByType type s)) = type
  /\ node (final (filterByType type s))
     = Some ((fun c => Circle.set_opacity
                         (if has_type type (live_nodes s !! Circle.datum c) then 1 else 0.2) c)
               <$> elements (node s))
  /\ label (final (filterByType type s))
     = Some ((fun t => Text.set_opacity
                         (if has_type type (live_nodes s !! Text.datum t) then 1 else 0.2) t)
               <$> elements (label s))
  /\ link (final (filterByType type s))
     = Some ((fun l => Line.set_opacity
                         (if link_matches (live_nodes s) (live_links s) type l
                          then 0.7 else 0.1) l)
               <$> elements (link s)).
Proof.
  intros Hr. destruct (ready_inv s Hr) as (ns & lk & cs & ls & ts & _ & Hn & Hl & Ht).
  destruct s as [d sv n l t sim tip f net el b]. simpl in Hn, Hl, Ht. subst.
  repeat split.
Qed.

Lemma has_type_true type d : Node.type d = type -> has_type type (Some d) = true.
Proof. intros <-. apply String.eqb_refl. Qed.

Lemma has_type_false type d : Node.type d <> type -> has_type type (Some d) = false.
Proof. intros Hne. now apply String.eqb_neq. Qed.

(** C2. On a set-up page, for a category tag [t] that the attribute selector
    of [updateButtons] takes as it is (no double quote, no backslash, no
    control character), [filterByType(t)] returns and keeps every shape in
    its place; a circle or a label whose node has [type === t] gets opacity 1
    and any other gets 0.2; a line gets 0.7 when the node at its source or at
    its target has that type, and 0.1 otherwise. *)
Theorem filterByType_sets_opacity_by_category (type : string) (s : State) :
  selector_safe type = true ->
  ready s = true ->
  returns (filterByType type s) = true
  /\ currentFilter (final (filterByType type s)) = type
  /\ (forall k c d,
        elements (node s) !! k = Some c -> live_nodes s !! Circle.datum c = Some d ->
        exists c', elements (node (final (filterByType type s))) !! k = Some c'
                   /\ Circle.datum c' = Circle.datum c
                   /\ (Node.type d = type -> Circle.opacity c' = Some 1%Q)
                   /\ (Node.type d <> type -> Circle.opacity c' = Some 0.2%Q))
  /\ (forall k t d,
        elements (label s) !! k = Some t -> live_nodes s !! Text.datum t = Some d ->
        exists t', elements (label (final (filterByType type s))) !! k = Some t'
                   /\ Text.datum t' = Text.datum t
                   /\ (Node.type d = type -> Text.opacity t' = Some 1%Q)
                   /\ (Node.type d <> type -> Text.opacity t' = Some 0.2%Q))
  /\ (forall k l lk a b,
        elements (link s) !! k = Some l -> live_links s !! Line.datum l = Some lk ->
        deref (live_nodes s) (Link.source lk) = Some a ->
        deref (live_nodes s) (Link.target lk) = Some b ->
        exists l', elements (link (final (filterByType type s))) !! k = Some l'
                   /\ Line.datum l' = Line.datum l
                   /\ (Node.type a = type \/ Node.type b = type ->
                       Line.opacity l' = Some 0.7%Q)
                   /\ (Node.type a <> type -> Node.type b <> type ->
                       Line.opacity l' = Some 0.1%Q))
  /\ length (elements (node (final (filterByType type s)))) = length (elements (node s))
  /\ length (elements (label (final (filterByType type s)))) = length (elements (label s))
  /\ length (elements (link (final (filterByType type s)))) = length (elements (link s)).
Proof.
  intros _ Hr.
  destruct (filterByType_ready type s Hr) as (Hret & Hf & Hn & Ht & Hl).
  split; [exact Hret |]. split; [exact Hf |].
  split; [| split; [| split]].
  - intros k c d Hk Hd. rewrite Hn. simpl. rewrite list_lookup_fmap, Hk. simpl.
    eexists. split; [reflexivity |]. split; [reflexivity |]. rewrite Hd. split.
    + intros E. now rewrite (has_type_true type d E).
    + intros E. now rewrite (has_type_false type d E).
  - intros k t d Hk Hd. rewrite Ht. simpl. rewrite list_lookup_fmap, Hk. simpl.
    eexists. split; [reflexivity |]. split; [reflexivity |]. rewrite Hd. split.
    + intros E. now rewrite (has_type_true type d E).
    + intros E. now rewrite (has_type_false type d E).
  - intros k l lk a b Hk Hlk Ha Hb. rewrite Hl. simpl. rewrite list_lookup_fmap, Hk. simpl.
    eexists. split; [reflexivity |]. split; [reflexivity |].
    unfold link_matches. rewrite Hlk, Ha, Hb. split.
    + intros [E | E].
      * now rewrite (has_type_true type a E).
      * rewrite (has_type_true type b E). now rewrite orb_true_r.
    + intros Ea Eb.
      now rewrite (has_type_false type a Ea), (has_type_false type b Eb).
  - destruct (filter_frame_data _ _ (filterByType_frame type s))
      as (_ & _ & _ & _ & _ & _ & _ & Ln & Lt & Ll).
    now repeat split.
Qed.

(** C2 on the sample page: with the doctor filter Augustine's circle is at
    opacity 1, Peter's at 0.2, and the line from Paul to Augustine at 0.7. *)
Lemma filterByType_sets_opacity_by_category_witness :
  Circle.opacity <$> elements (node (final (filterByType "doctor" sample_state)))
  = [Some 0.2%Q; Some 0.2%Q; Some 1%Q]
  /\ exists l', elements (link (final (filterByType "doctor" sample_state))) !! 1%nat = Some l'
                /\ Line.opacity l' = Some 0.7%Q.
Proof.
  destruct (filterByType_sets_opacity_by_category "doctor" sample_state eq_refl eq_refl)
    as (_ & _ & _ & _ & Hl & _).
  split; [reflexivity |].
  destruct (Hl 1%nat
              (Line.mk 1 "link" 1 "pointer" None None None None None None)
              (Link.mk (Ref 1) (Ref 2) "influence")
              (Node.mk paul 600 350 None None)
              (Node.mk augustine 1500 350 None None)
              eq_refl eq_refl eq_refl eq_refl) as (l' & Hk & _ & H07 & _).
  exists l'. split; [exact Hk |]. apply H07. right. reflexivity.
Defined.

(** ** C7: the tooltip *)

Lemma tooltip_html_fields d1 d2 :
  Node.name d1 = Node.name d2 ->
  Node.feastDay d1 = Node.feastDay d2 ->
  Node.birthYear d1 = Node.birthYear d2 ->
  Node.deathYear d1 = Node.deathYear d2 ->
  Node.location d1 = Node.location d2 ->
  Node.patronage d1 = Node.patronage d2 ->
  Node.description d1 = Node.description d2 ->
  tooltip_html d1 = tooltip_html d2.
Proof.
  intros Hn Hf Hb Hd Hl Hp Hdesc. unfold tooltip_html.
  now rewrite Hn, Hf, Hb, Hd, Hl, Hp, Hdesc.
Qed.

Lemma handleMouseOver_tooltip this event d s :
  tooltip s = true ->
  returns (handleMouseOver this event d s) = true
  /\ tooltip_el (final (handleMouseOver this event d s))
     = Tooltip.mk (Some 1%Q) (tooltip_html d)
         (Some (Number_toString (MouseEvent.pageX event + 10) ++ "px"))
         (Some (Number_toString (MouseEvent.pageY event - 10) ++ "px")).
Proof.
  intros Ht. unfold handleMouseOver. cbv zeta.
  change (tooltip (set_node _ s)) with (tooltip s). rewrite Ht.
  split; reflexivity.
Qed.

(** C7. Once the tooltip is selected, [handleMouseOver] returns, and the
    tooltip it leaves (opacity, HTML, left and top) is a function of the
    hovered node's name, feastDay, birthYear, deathYear, location, patronage
    and description and of the pointer's page coordinates: two calls that
    agree on these leave the same tooltip, whatever the two states, the
    hovered circles and the other fields of the nodes are.  The HTML is the
    template filled with those fields; left and top are the pointer moved by
    (+10, -10), in px. *)
Theorem tooltip_is_a_function_of_fields_and_pointer
    (s1 s2 : State) (this1 this2 : nat) (event1 event2 : MouseEvent.t) (d1 d2 : Node.t) :
  tooltip s1 = true -> tooltip s2 = true ->
  Node.name d1 = Node.name d2 ->
  Node.feastDay d1 = Node.feastDay d2 ->
  Node.birthYear d1 = Node.birthYear d2 ->
  Node.deathYear d1 = Node.deathYear d2 ->
  Node.location d1 = Node.location d2 ->
  Node.patronage d1 = Node.patronage d2 ->
  Node.description d1 = Node.description d2 ->
  MouseEvent.pageX event1 = MouseEvent.pageX event2 ->
  MouseEvent.pageY event1 = MouseEvent.pageY event2 ->
  returns (handleMouseOver this1 event1 d1 s1) = true
  /\ returns (handleMouseOver this2 event2 d2 s2) = true
  /\ tooltip_el (final (handleMouseOver this1 event1 d1 s1))
     = tooltip_el (final (handleMouseOver this2 event2 d2 s2))
  /\ Tooltip.html (tooltip_el (final (handleMouseOver this1 event1 d1 s1)))
     = tooltip_html d1
  /\ Tooltip.left (tooltip_el (final (handleMouseOver this1 event1 d1 s1)))
     = Some (Number_toString (MouseEvent.pageX event1 + 10) ++ "px")
  /\ Tooltip.top (tooltip_el (final (handleMouseOver this1 event1 d1 s1)))
     = Some (Number_toString (MouseEvent.pageY event1 - 10) ++ "px").
Proof.
  intros Ht1 Ht2 Hn Hf Hb Hd Hl Hp Hdesc Hx Hy.
  destruct (handleMouseOver_tooltip this1 event1 d1 s1 Ht1) as [R1 E1].
  destruct (handleMouseOver_tooltip this2 event2 d2 s2 Ht2) as [R2 E2].
  rewrite E1, E2.
  rewrite (tooltip_html_fields d1 d2 Hn Hf Hb Hd Hl Hp Hdesc), Hx, Hy.
  repeat split; assumption.
Qed.

(** C7 on the sample page: the same tooltip before and after a filter, over
    different circles, for two node objects that share the seven fields. *)
Lemma tooltip_is_a_function_of_fields_and_pointer_witness :
  tooltip_el (final (handleMouseOver 0 (MouseEvent.mk 100 200)
                       (Node.mk peter 25 350 None None) sample_state))
  = tooltip_el (final (handleMouseOver 2 (MouseEvent.mk 100 200)
                         (Node.mk simon 900 100 (Some 1%Q) None)
                         (final (filterByType "doctor" sample_state)))).
Proof.
  refine (proj1 (proj2 (proj2 (tooltip_is_a_function_of_fields_and_pointer
            sample_state (final (filterByType "doctor" sample_state)) 0 2
            (MouseEvent.mk 100 200) (MouseEvent.mk 100 200)
            (Node.mk peter 25 350 None None) (Node.mk simon 900 100 (Some 1%Q) None)
            _ _ _ _ _ _ _ _ _ _ _)))); reflexivity.
Defined.

(** ** C10: relationship details *)

Lemma splits_complete a b : In (a, b) (splits (pair_key a b)).
Proof.
  unfold pair_key. induction a as [| c a IH]; simpl.
  - now left.
  - apply in_or_app. right.
    change (String c a, b) with ((fun pq : string * string => (String c (fst pq), snd pq)) (a, b)).
    apply in_map, IH.
Qed.

Lemma obj_get_key {A : Type} (o : list (string * A)) k v :
  obj_get o k = Some v -> In k (map fst o).
Proof.
  revert v. induction o as [| [k' v'] o IH]; intros v; simpl; [discriminate |].
  destruct (obj_get o k) as [w |].
  - intros _. right. exact (IH w eq_refl).
  - destruct (String.eqb_spec k k') as [-> | _]; [| discriminate].
    intros _. now left.
Qed.

Lemma obj_get_value {A : Type} (o : list (string * A)) k v :
  obj_get o k = Some v -> In (k, v) o.
Proof.
  revert v. induction o as [| [k' v'] o IH]; intros v; simpl; [discriminate |].
  destruct (obj_get o k) as [w |].
  - intros [= ->]. right. exact (IH v eq_refl).
  - destruct (String.eqb_spec k k') as [-> | _]; [| discriminate].
    intros [= ->]. now left.
Qed.

Lemma details_one_order : one_order details = true.
Proof. vm_compute. reflexivity. Qed.

(** A key present under both orderings is one and the same key. *)
Lemma details_both_orders a b v1 v2 :
  obj_get details (pair_key a b) = Some v1 ->
  obj_get details (pair_key b a) = Some v2 ->
  pair_key b a = pair_key a b.
Proof.
  intros H1 H2.
  pose proof details_one_order as Hall. unfold one_order in Hall.
  rewrite forallb_forall in Hall.
  assert (In (a, b) (flat_map splits (map fst details))) as Hin.
  { apply in_flat_map. exists (pair_key a b). split.
    - eapply obj_get_key, H1.
    - apply splits_complete. }
  apply Hall in Hin. cbn [fst snd] in Hin. rewrite H2 in Hin.
  now apply String.eqb_eq.
Qed.

Lemma detail_symmetric a b :
  or_else (obj_get details (pair_key a b))
          (or_else (obj_get details (pair_key b a)) fallback_detail)
  = or_else (obj_get details (pair_key b a))
            (or_else (obj_get details (pair_key a b)) fallback_detail).
Proof.
  destruct (obj_get details (pair_key a b)) as [v1 |] eqn:H1;
    destruct (obj_get details (pair_key b a)) as [v2 |] eqn:H2; try reflexivity.
  pose proof (details_both_orders a b v1 v2 H1 H2) as E.
  rewrite E, H1 in H2. injection H2 as <-.
  simpl. now destruct (String.eqb v1 "").
Qed.

Lemma or_else_cases (a : option string) (b : string) :
  or_else a b = b \/ a = Some (or_else a b).
Proof.
  destruct a as [v |]; simpl; [| now left].
  destruct (String.eqb v ""); [now left | now right].
Qed.

Lemma getRelationshipDetail_keys ns d :
  getRelationshipDetail ns d
  = or_else (obj_get details (pair_key (template_of (endpoint_id ns (Link.source d)))
                                       (template_of (endpoint_id ns (Link.target d)))))
      (or_else (obj_get details (pair_key (template_of (endpoint_id ns (Link.target d)))
                                          (template_of (endpoint_id ns (Link.source d)))))
         fallback_detail).
Proof. reflexivity. Qed.

(** C10. [getRelationshipDetail] returns a string for every link: an entry
    of the detail table, or the fallback sentence, and the fallback whenever
    neither [source-target] nor [target-source] is a key of the table.
    Swapping the link's source and target yields the same string: no key of
    the table, read as [a-b], has its reverse [b-a] in the table as a
    different key. *)
Theorem getRelationshipDetail_total_and_symmetric (ns : list Node.t) (d : Link.t) :
  getRelationshipDetail ns (Link.mk (Link.target d) (Link.source d) (Link.type d))
  = getRelationshipDetail ns d
  /\ (getRelationshipDetail ns d = fallback_detail
      \/ exists k, In (k, getRelationshipDetail ns d) details)
  /\ (obj_get details (pair_key (template_of (endpoint_id ns (Link.source d)))
                                (template_of (endpoint_id ns (Link.target d)))) = None ->
      obj_get details (pair_key (template_of (endpoint_id ns (Link.target d)))
                                (template_of (endpoint_id ns (Link.source d)))) = None ->
      getRelationshipDetail ns d = fallback_detail)
  /\ (forall a b v1 v2,
        obj_get details (pair_key a b) = Some v1 ->
        obj_get details (pair_key b a) = Some v2 ->
        pair_key b a = pair_key a b).
Proof.
  rewrite !getRelationshipDetail_keys. cbn [Link.source Link.target].
  set (a := template_of (endpoint_id ns (Link.source d))).
  set (b := template_of (endpoint_id ns (Link.target d))).
  split; [symmetry; apply detail_symmetric |].
  split.
  { destruct (or_else_cases (obj_get details (pair_key a b))
                (or_else (obj_get details (pair_key b a)) fallback_detail)) as [E | E].
    - rewrite E.
      destruct (or_else_cases (obj_get details (pair_key b a)) fallback_detail) as [F | F].
      + left. exact F.
      + right. exists (pair_key b a). eapply obj_get_value, F.
    - right. exists (pair_key a b). eapply obj_get_value, E. }
  split.
  { intros -> ->. reflexivity. }
  exact details_both_orders.
Qed.

(** C10 on the sample page: Peter and Paul in either order, and a pair the
    table does not know. *)
Lemma getRelationshipDetail_total_and_symmetric_witness :
  getRelationshipDetail (live_nodes sample_state) (Link.mk (Ref 1) (Ref 0) "colleague")
  = "Both apostles who worked together in the early Church"
  /\ getRelationshipDetail (live_nodes sample_state) (Link.mk (Ref 0) (Ref 2) "influence")
     = fallback_detail.
Proof.
  destruct (getRelationshipDetail_total_and_symmetric
              (live_nodes sample_state) (Link.mk (Ref 0) (Ref 1) "colleague"))
    as (Hsym & _).
  destruct (getRelationshipDetail_total_and_symmetric
              (live_nodes sample_state) (Link.mk (Ref 0) (Ref 2) "influence"))
    as (_ & _ & Hfb & _).
  split.
  - simpl in Hsym. rewrite Hsym. reflexivity.
  - apply Hfb; reflexivity.
Defined.

(** ** Link resolution *)

Lemma find_from_spec ns : forall i k j,
  find_from i ns k = Some j ->
  i <= j /\ exists d, ns !! (j - i) = Some d /\ Node.id d = k.
Proof.
  induction ns as [| d ns IH]; intros i k j; simpl; [discriminate |].
  destruct (find_from (S i) ns k) as [j' |] eqn:E.
  - intros [= ->]. destruct (IH (S i) k j E) as (Hle & d' & Hd' & Hid).
    split; [lia |]. exists d'. split; [| exact Hid].
    replace (j - i) with (S (j - S i)) by lia. exact Hd'.
  - destruct (String.eqb_spec (Node.id d) k) as [Hid | _]; [| discriminate].
    intros [= ->]. split; [lia |]. exists d. split; [| exact Hid].
    now rewrite Nat.sub_diag.
Qed.

Lemma find_spec ns k j :
  find ns k = Some j -> exists d, ns !! j = Some d /\ Node.id d = k.
Proof.
  unfold find. intros H. destruct (find_from_spec ns 0 k j H) as (_ & d & Hd & Hid).
  rewrite Nat.sub_0_r in Hd. eauto.
Qed.

Lemma find_from_existsb ns : forall i k,
  is_some (find_from i ns k) = existsb (fun d => String.eqb (Node.id d) k) ns.
Proof.
  induction ns as [| d ns IH]; intros i k; simpl; [reflexivity |].
  rewrite <- (IH (S i) k).
  destruct (find_from (S i) ns k); simpl; [apply eq_sym, orb_true_r |].
  rewrite orb_false_r. now destruct (String.eqb (Node.id d) k).
Qed.

Lemma existsb_imap (g : nat -> Saint.t -> Node.t) k ns :
  (forall i d, Node.data (g i d) = d) ->
  existsb (fun d => String.eqb (Node.id d) k) (imap g ns)
  = existsb (fun d => String.eqb (Saint.id d) k) ns.
Proof.
  revert g. induction ns as [| d ns IH]; intros g Hg; [reflexivity |].
  rewrite imap_cons. simpl. rewrite IH by (intros; apply Hg).
  unfold Node.id. now rewrite Hg.
Qed.

Section Setup.

Variable place : nat -> Q * Q.

Lemma forceSimulation_lookup ns i :
  forceSimulation place ns !! i
  = (fun d => Node.mk d (fst (place i)) (snd (place i)) None None) <$> ns !! i.
Proof. unfold forceSimulation. apply list_lookup_imap. Qed.

Lemma forceSimulation_length ns : length (forceSimulation place ns) = length ns.
Proof. unfold forceSimulation. apply length_imap. Qed.

Lemma known_resolve ns k :
  known ns k = is_some (resolve (forceSimulation place ns) (Id k)).
Proof.
  unfold known. simpl. unfold find.
  rewrite <- (existsb_imap
                (fun i d => Node.mk d (fst (place i)) (snd (place i)) None None) k ns)
    by reflexivity.
  fold (forceSimulation place ns).
  rewrite <- (find_from_existsb (forceSimulation place ns) 0 k).
  now destruct (find_from 0 (forceSimulation place ns) k).
Qed.

End Setup.

Lemma forceLink_returns ns ls :
  returns (forceLink ns ls)
  = forallb (fun l => is_some (resolve ns (Link.source l))
                      && is_some (resolve ns (Link.target l))) ls.
Proof.
  induction ls as [| l ls IH]; simpl; [reflexivity |].
  destruct (resolve ns (Link.source l)); simpl; [| reflexivity].
  destruct (resolve ns (Link.target l)); simpl; [| reflexivity].
  rewrite <- IH. now destruct (forceLink ns ls).
Qed.

Lemma forceLink_Normal ns ls : forall ls',
  forceLink ns ls = Normal ls' -> Forall2 (resolved_from ns) ls ls'.
Proof.
  induction ls as [| l ls IH]; intros ls'; simpl.
  - intros [= <-]. constructor.
  - destruct (resolve ns (Link.source l)) as [src |] eqn:Hs; [| discriminate].
    destruct (resolve ns (Link.target l)) as [tgt |] eqn:Ht; [| discriminate].
    destruct (forceLink ns ls) as [r | r]; [| discriminate].
    intros [= <-]. constructor; [| now apply IH].
    now repeat split.
Qed.

Lemma links_known_returns place ns ls :
  returns (forceLink (forceSimulation place ns) (link_object <$> ls)) = links_known ns ls.
Proof.
  rewrite forceLink_returns. unfold links_known.
  induction ls as [| l ls IH]; [reflexivity |].
  rewrite fmap_cons. cbn [forallb]. rewrite IH, !(known_resolve place). reflexivity.
Qed.

(** An identifier resolves to a node object that carries it. *)
Lemma resolve_Id ns k e :
  resolve ns (Id k) = Some e -> Node.id <$> deref ns e = Some k.
Proof.
  simpl. destruct (find ns k) as [j |] eqn:Hf; [| discriminate].
  intros [= <-]. destruct (find_spec ns k j Hf) as (d & Hd & Hid).
  simpl. now rewrite Hd, <- Hid.
Qed.

(** ** C4 and C3: loading *)

Section Loading.

Variable place : nat -> Q * Q.

Lemma setup_Normal ns ls s ls' ts :
  forceLink (forceSimulation place ns) (link_object <$> ls) = Normal ls' ->
  join_texts (forceSimulation place ns) = Some ts ->
  setupVisualization place (set_saintsData (Loaded (Doc.mk (Some ns) (Some ls))) s)
  = Normal (mkState (Live (forceSimulation place ns) ls')
              (Some (Svg.mk width height [0%Q; 0%Q; width; height]))
              (Some (join_circles (forceSimulation place ns)))
              (Some (join_lines ls'))
              (Some ts)
              (Some (Simulation.mk 0 true)) true (currentFilter s)
              (network s ++ [ChildSvg]) (tooltip_el s) (buttons s)).
Proof.
  intros H Ht. unfold setupVisualization. cbv zeta.
  cbn [saintsData set_saintsData set_svg set_network set_tooltip simulated
       Doc.nodes Doc.links].
  rewrite H, Ht. reflexivity.
Qed.

(** The label callback throws: the lines and the circles are there, the
    labels are not. *)
Lemma setup_Thrown_label ns ls s ls' :
  forceLink (forceSimulation place ns) (link_object <$> ls) = Normal ls' ->
  join_texts (forceSimulation place ns) = None ->
  setupVisualization place (set_saintsData (Loaded (Doc.mk (Some ns) (Some ls))) s)
  = Thrown (mkState (Live (forceSimulation place ns) ls')
              (Some (Svg.mk width height [0%Q; 0%Q; width; height]))
              (Some (join_circles (forceSimulation place ns)))
              (Some (join_lines ls'))
              (label s)
              (Some (Simulation.mk 0 true)) true (currentFilter s)
              (network s ++ [ChildSvg]) (tooltip_el s) (buttons s)).
Proof.
  intros H Ht. unfold setupVisualization. cbv zeta.
  cbn [saintsData set_saintsData set_svg set_network set_tooltip simulated
       Doc.nodes Doc.links].
  rewrite H, Ht. reflexivity.
Qed.

Lemma setup_Thrown ns ls s ls' :
  forceLink (forceSimulation place ns) (link_object <$> ls) = Thrown ls' ->
  setupVisualization place (set_saintsData (Loaded (Doc.mk (Some ns) (Some ls))) s)
  = Thrown (mkState (Live (forceSimulation place ns) ls')
              (Some (Svg.mk width height [0%Q; 0%Q; width; height]))
              (node s) (link s) (label s)
              (simulation s) true (currentFilter s)
              (network s ++ [ChildSvg]) (tooltip_el s) (buttons s)).
Proof.
  intros H. unfold setupVisualization. cbv zeta.
  cbn [saintsData set_saintsData set_svg set_network set_tooltip simulated
       Doc.nodes Doc.links].
  rewrite H. reflexivity.
Qed.

Lemma attached_appended (children : list Child) : existsb is_svg (children ++ [ChildSvg]) = true.
Proof. rewrite existsb_app. simpl. apply orb_true_r. Qed.

Lemma appended_not_error (children : list Child) html :
  (children ++ [ChildSvg])%list <> [ChildHtml html].
Proof.
  destruct children as [| c [| c' children]]; simpl; try discriminate.
Qed.

Lemma join_circles_lookup ns i :
  join_circles ns !! i
  = (fun d => Circle.mk i "node" (Node.size d) (obj_get colorMap (Node.type d))
                        None None None) <$> ns !! i.
Proof. unfold join_circles. apply list_lookup_imap. Qed.

Lemma join_texts_from_lookup ns : forall k ts i,
  join_texts_from k ns = Some ts -> ts !! i = ns !! i ≫= text_of (k + i).
Proof.
  induction ns as [| d ns IH]; intros k ts i; simpl.
  - intros [= <-]. reflexivity.
  - destruct (text_of k d) as [t |] eqn:Ht; [| discriminate].
    destruct (join_texts_from (S k) ns) as [ts' |] eqn:Hts; [| discriminate].
    intros [= <-]. destruct i as [| i]; simpl.
    + now rewrite Nat.add_0_r.
    + rewrite (IH _ _ i Hts). now rewrite Nat.add_succ_r.
Qed.

Lemma join_texts_lookup ns ts i :
  join_texts ns = Some ts -> ts !! i = ns !! i ≫= text_of i.
Proof. apply join_texts_from_lookup. Qed.

Lemma join_texts_from_length ns : forall k ts,
  join_texts_from k ns = Some ts -> length ts = length ns.
Proof.
  induction ns as [| d ns IH]; intros k ts; simpl.
  - now intros [= <-].
  - destruct (text_of k d); [| discriminate].
    destruct (join_texts_from (S k) ns) as [ts' |] eqn:Hts; [| discriminate].
    intros [= <-]. simpl. f_equal. eauto.
Qed.

Lemma join_texts_length ns ts : join_texts ns = Some ts -> length ts = length ns.
Proof. apply join_texts_from_length. Qed.

(** The label callback goes through exactly when every node has a name. *)
Lemma join_texts_from_named ns : forall k,
  is_some (join_texts_from k ns) = forallb (fun d => named (Node.data d)) ns.
Proof.
  induction ns as [| d ns IH]; intros k; simpl; [reflexivity |].
  rewrite <- (IH (S k)). unfold text_of, named, Node.name.
  destruct (Saint.name (Node.data d)); simpl; [| reflexivity].
  now destruct (join_texts_from (S k) ns).
Qed.

Lemma forceSimulation_named ns :
  forallb (fun d => named (Node.data d)) (forceSimulation place ns) = forallb named ns.
Proof.
  unfold forceSimulation. generalize 0%nat as k. unfold imap.
  assert (forall (f : nat -> nat) l,
            forallb (fun d => named (Node.data d))
              (imap (fun i d => Node.mk d (fst (place (f i))) (snd (place (f i))) None None) l)
            = forallb named l) as H.
  { intros f l. revert f. induction l as [| d l IH]; intros f; [reflexivity |].
    simpl. f_equal. apply (IH (fun i => f (S i))). }
  intros _. apply (H (fun i => i)).
Qed.

Lemma join_texts_named ns :
  is_some (join_texts (forceSimulation place ns)) = forallb named ns.
Proof. unfold join_texts. now rewrite join_texts_from_named, forceSimulation_named. Qed.

Lemma join_lines_lookup ls j :
  join_lines ls !! j
  = (fun l => Line.mk j "link" (stroke_width_of l) "pointer" None None None None None None)
      <$> ls !! j.
Proof. unfold join_lines. apply list_lookup_imap. Qed.

(** C4. For a document whose links name nodes of the document and whose
    nodes have names, with [n] nodes and [m] links, [setupVisualization] returns and the page shows [n]
    circles, [n] labels and [m] lines.  The [i]-th circle and the [i]-th label
    are bound to the [i]-th node object, which carries the [i]-th record; the
    [j]-th line is bound to the [j]-th link object, which has the [j]-th
    link's type and, for its ends, the node objects with the identifiers the
    link names. *)
Theorem setupVisualization_populates (ns : list Saint.t) (ls : list RawLink.t) (s : State) :
  links_known ns ls = true ->
  forallb named ns = true ->
  returns (setupVisualization place (set_saintsData (Loaded (Doc.mk (Some ns) (Some ls))) s))
  = true
  /\ init place (Parsed (Doc.mk (Some ns) (Some ls))) s
     = final (setupVisualization place
                (set_saintsData (Loaded (Doc.mk (Some ns) (Some ls))) s))
  /\ length (visible_circles (init place (Parsed (Doc.mk (Some ns) (Some ls))) s))
     = length ns
  /\ length (visible_texts (init place (Parsed (Doc.mk (Some ns) (Some ls))) s))
     = length ns
  /\ length (visible_lines (init place (Parsed (Doc.mk (Some ns) (Some ls))) s))
     = length ls
  /\ (forall i rec,
        ns !! i = Some rec ->
        exists c t d,
          visible_circles (init place (Parsed (Doc.mk (Some ns) (Some ls))) s) !! i = Some c
          /\ Circle.datum c = i
          /\ visible_texts (init place (Parsed (Doc.mk (Some ns) (Some ls))) s) !! i = Some t
          /\ Text.datum t = i
          /\ live_nodes (init place (Parsed (Doc.mk (Some ns) (Some ls))) s) !! i = Some d
          /\ Node.data d = rec)
  /\ (forall j l,
        ls !! j = Some l ->
        exists ln lk,
          visible_lines (init place (Parsed (Doc.mk (Some ns) (Some ls))) s) !! j = Some ln
          /\ Line.datum ln = j
          /\ live_links (init place (Parsed (Doc.mk (Some ns) (Some ls))) s) !! j = Some lk
          /\ Link.type lk = RawLink.type l
          /\ Node.id <$> deref (live_nodes (init place (Parsed (Doc.mk (Some ns) (Some ls))) s))
                               (Link.source lk) = Some (RawLink.source l)
          /\ Node.id <$> deref (live_nodes (init place (Parsed (Doc.mk (Some ns) (Some ls))) s))
                               (Link.target lk) = Some (RawLink.target l)).
Proof.
  intros Hk Hn. rewrite <- (links_known_returns place) in Hk.
  rewrite <- join_texts_named in Hn.
  destruct (forceLink (forceSimulation place ns) (link_object <$> ls)) as [ls' | ls'] eqn:Hf;
    [| discriminate].
  destruct (join_texts (forceSimulation place ns)) as [ts |] eqn:Hts; [| discriminate].
  pose proof (forceLink_Normal _ _ _ Hf) as Hres.
  assert (init place (Parsed (Doc.mk (Some ns) (Some ls))) s
          = final (setupVisualization place
                     (set_saintsData (Loaded (Doc.mk (Some ns) (Some ls))) s))) as Hinit.
  { unfold init. cbn [Doc.nodes Doc.links]. cbv zeta.
    now rewrite (setup_Normal ns ls s ls' ts Hf Hts). }
  rewrite Hinit, (setup_Normal ns ls s ls' ts Hf Hts).
  unfold visible_circles, visible_texts, visible_lines, attached, live_nodes, live_links.
  cbn [final network node label link saintsData elements].
  rewrite attached_appended.
  split; [reflexivity |]. split; [reflexivity |].
  split; [unfold join_circles; now rewrite length_imap, forceSimulation_length |].
  split; [now rewrite (join_texts_length _ _ Hts), forceSimulation_length |].
  split.
  { unfold join_lines. rewrite length_imap, <- (Forall2_length _ _ _ Hres).
    apply length_fmap. }
  split.
  - intros i rec Hi.
    assert (is_Some (ts !! i)) as [t Ht].
    { apply lookup_lt_is_Some. rewrite (join_texts_length _ _ Hts), forceSimulation_length.
      apply lookup_lt_is_Some. now exists rec. }
    pose proof (join_texts_lookup _ _ i Hts) as Hti.
    rewrite Ht, forceSimulation_lookup, Hi in Hti. cbn [fmap option_fmap option_map mbind option_bind] in Hti.
    unfold text_of in Hti.
    destruct (Node.name _) as [nm |]; [| discriminate]. injection Hti as ->.
    rewrite join_circles_lookup, forceSimulation_lookup, Hi. simpl.
    eexists _, _, _. split; [reflexivity |]. split; [reflexivity |].
    split; [exact Ht |]. repeat split.
  - intros j l Hj.
    assert ((link_object <$> ls) !! j = Some (link_object l)) as Hj'.
    { now rewrite list_lookup_fmap, Hj. }
    destruct (Forall2_lookup_l _ _ _ _ _ Hres Hj') as (lk & Hlk & Hs & Ht & Hty).
    rewrite join_lines_lookup, Hlk. simpl.
    eexists _, lk. split; [reflexivity |]. split; [reflexivity |].
    split; [reflexivity |]. split; [exact Hty |]. split.
    + now apply resolve_Id.
    + now apply resolve_Id.
Qed.

End Loading.

(** C4 on the sample document: three circles, three labels, two lines. *)
Lemma setupVisualization_populates_witness :
  length (visible_circles sample_state) = 3%nat
  /\ length (visible_texts sample_state) = 3%nat
  /\ length (visible_lines sample_state) = 2%nat.
Proof.
  destruct (setupVisualization_populates sample_place
              [peter; paul; augustine]
              [RawLink.mk "peter" "paul" "colleague";
               RawLink.mk "paul" "augustine" "influence"]
              sample_page eq_refl eq_refl) as (_ & _ & Hc & Ht & Hl & _).
  repeat split; assumption.
Defined.

Lemma on_error_shown s :
  error_shown (on_error s)
  /\ attached (on_error s) = false
  /\ visible_circles (on_error s) = []
  /\ visible_lines (on_error s) = []
  /\ visible_texts (on_error s) = [].
Proof. repeat split. Qed.

(** How [init] ends on a parsed document. *)
Lemma init_Parsed place doc s :
  (well_formed doc = false /\ exists s0, init place (Parsed doc) s = on_error s0)
  \/ (well_formed doc = true
      /\ setupVisualization place (set_saintsData (Loaded doc) s)
         = Normal (init place (Parsed doc) s)
      /\ network (init place (Parsed doc) s) = (network s ++ [ChildSvg])%list).
Proof.
  destruct doc as [[ns |] [ls |]];
    try (left; split; [reflexivity | eexists; reflexivity]).
  unfold well_formed, init. cbn [Doc.nodes Doc.links]. cbv zeta.
  rewrite <- (links_known_returns place), <- (join_texts_named place).
  destruct (forceLink (forceSimulation place ns) (link_object <$> ls)) as [ls' | ls'] eqn:Hf.
  - destruct (join_texts (forceSimulation place ns)) as [ts |] eqn:Hts.
    + right. rewrite (setup_Normal place ns ls s ls' ts Hf Hts). repeat split.
    + left. rewrite (setup_Thrown_label place ns ls s ls' Hf Hts).
      split; [reflexivity | eexists; reflexivity].
  - left. rewrite (setup_Thrown place ns ls s ls' Hf).
    split; [reflexivity | eexists; reflexivity].
Qed.

(** Whether a document is well formed is decided by the identifiers of its
    nodes and the ends of its links; no other field is looked at. *)
Lemma links_known_ids ns ns' ls ls' :
  Saint.id <$> ns = Saint.id <$> ns' -> ends <$> ls = ends <$> ls' ->
  links_known ns ls = links_known ns' ls'.
Proof.
  intros Hn. revert ls'.
  assert (forall k, known ns k = known ns' k) as Hknown.
  { intros k. unfold known.
    clear -Hn. revert ns' Hn.
    induction ns as [| d ns IH]; intros [| d' ns'] Hn; try discriminate; [reflexivity |].
    rewrite !fmap_cons in Hn. injection Hn as Hd Hn.
    simpl. now rewrite Hd, (IH ns' Hn). }
  induction ls as [| l ls IH]; intros [| l' ls'] Hl; try discriminate; [reflexivity |].
  rewrite !fmap_cons in Hl. injection Hl as Hs Ht Hl.
  simpl. now rewrite Hs, Ht, !Hknown, (IH ls' Hl).
Qed.

(** Whether every node has a name is decided by which nodes have one. *)
Lemma forallb_named_fmap ns ns' :
  named <$> ns = named <$> ns' -> forallb named ns = forallb named ns'.
Proof.
  revert ns'. induction ns as [| d ns IH]; intros [| d' ns'] H; try discriminate;
    [reflexivity |].
  rewrite !fmap_cons in H. injection H as Hd H. simpl. now rewrite Hd, (IH ns' H).
Qed.

(** A record without a name: the label callback throws inside the [try],
    so the page ends on the error message though the file was fetched and
    parsed and every link end is known. *)
Lemma nameless_record_fails :
  load_fails (Parsed nameless_doc) = true
  /\ network (init sample_place (Parsed nameless_doc) sample_page)
     = [ChildHtml error_message].
Proof. split; reflexivity. Qed.

(** C3 as written fails: a document that parses and has no [nodes] array ends
    on the error message too, though neither the fetch nor the parse
    failed. *)
Lemma init_single_error_path_counterexample :
  ~ (forall place r s,
       error_shown (init place r s) -> r = FetchFailed \/ r = ParseFailed).
Proof.
  intros Hall.
  destruct (Hall sample_place (Parsed no_nodes_doc) sample_page eq_refl);
    discriminate.
Qed.

(** C3 (amended). [init] has one error path, the [catch] around its whole
    body.  It is taken exactly when the load fails: the fetch or the JSON
    parse fails, the parsed document has no [nodes] or no [links] array,
    the layout library finds no node for an end of a link, or the label
    callback finds a node without a name.  Then the
    container holds the static error message alone and no circle, line or
    label is on the page.  Otherwise [setupVisualization] returns and its
    drawing is appended to the container.  [init] itself validates no record:
    the outcome depends on the records only through the nodes' identifiers,
    which of the nodes have a name, and the links' ends. *)
Theorem init_single_error_path (place : nat -> Q * Q) (r : Response) (s : State) :
  (error_shown (init place r s) <-> load_fails r = true)
  /\ (load_fails r = true ->
      network (init place r s) = [ChildHtml error_message]
      /\ attached (init place r s) = false
      /\ visible_circles (init place r s) = []
      /\ visible_lines (init place r s) = []
      /\ visible_texts (init place r s) = [])
  /\ (load_fails r = false ->
      exists doc,
        r = Parsed doc
        /\ setupVisualization place (set_saintsData (Loaded doc) s) = Normal (init place r s)
        /\ attached (init place r s) = true)
  /\ (r = FetchFailed \/ r = ParseFailed -> load_fails r = true)
  /\ (forall ns ns' ls ls',
        Saint.id <$> ns = Saint.id <$> ns' -> named <$> ns = named <$> ns' ->
        ends <$> ls = ends <$> ls' ->
        load_fails (Parsed (Doc.mk (Some ns) (Some ls)))
        = load_fails (Parsed (Doc.mk (Some ns') (Some ls')))).
Proof.
  assert (load_fails r = true -> exists s0, init place r s = on_error s0) as Hfail.
  { destruct r as [| | doc]; try (intros _; eexists; reflexivity).
    simpl. intros Hwf. destruct (init_Parsed place doc s) as [[_ H] | [Hw _]]; [exact H |].
    rewrite Hw in Hwf. discriminate. }
  assert (load_fails r = false ->
          exists doc, r = Parsed doc
                      /\ setupVisualization place (set_saintsData (Loaded doc) s)
                         = Normal (init place r s)
                      /\ network (init place r s) = (network s ++ [ChildSvg])%list) as Hok.
  { destruct r as [| | doc]; try discriminate.
    simpl. intros Hwf. exists doc. split; [reflexivity |].
    destruct (init_Parsed place doc s) as [[Hw _] | [_ H]]; [| exact H].
    rewrite Hw in Hwf. discriminate. }
  split.
  { split.
    - intros Herr. destruct (load_fails r) eqn:Hl; [reflexivity |].
      destruct (Hok eq_refl) as (doc & _ & _ & Hnet).
      unfold error_shown in Herr. rewrite Hnet in Herr.
      now apply appended_not_error in Herr.
    - intros Hl. destruct (Hfail Hl) as [s0 ->]. apply on_error_shown. }
  split.
  { intros Hl. destruct (Hfail Hl) as [s0 ->]. apply on_error_shown. }
  split.
  { intros Hl. destruct (Hok Hl) as (doc & Hr & Hset & Hnet).
    exists doc. split; [exact Hr |]. split; [exact Hset |].
    unfold attached. rewrite Hnet. apply attached_appended. }
  split.
  { intros [-> | ->]; reflexivity. }
  intros ns ns' ls ls' Hn Hnm Hl. simpl. unfold well_formed. cbn [Doc.nodes Doc.links].
  now rewrite (links_known_ids ns ns' ls ls' Hn Hl), (forallb_named_fmap ns ns' Hnm).
Qed.

(** C3 on the sample page: a document with a link to a node that is not
    there ends on the error message, with nothing drawn. *)
Lemma init_single_error_path_witness :
  network (init sample_place (Parsed dangling_doc) sample_page) = [ChildHtml error_message]
  /\ visible_circles (init sample_place (Parsed dangling_doc) sample_page) = [].
Proof.
  destruct (init_single_error_path sample_place (Parsed dangling_doc) sample_page)
    as (_ & Hfail & _).
  destruct (Hfail eq_refl) as (Hnet & _ & Hc & _).
  split; assumption.
Defined.

(** ** References stay in range *)

Lemma bound_shape s s' : shape s' = shape s -> bound s -> bound s'.
Proof.
  unfold shape. intros [= Hlen Hlinks Hc Ht Hl] (Bc & Bt & Bl & Bk).
  assert (forall e, is_node (live_nodes s) e -> is_node (live_nodes s') e) as Hnode.
  { intros e (i & d & -> & Hi). apply lookup_lt_Some in Hi. rewrite <- Hlen in Hi.
    destruct (lookup_lt_is_Some_2 _ _ Hi) as [d' Hd']. now exists i, d'. }
  repeat split.
  - intros c Hin. rewrite Hlen.
    assert (Circle.datum c ∈ Circle.datum <$> elements (node s')) as H
        by now apply list_elem_of_fmap_2.
    rewrite Hc in H. apply list_elem_of_fmap in H as (c0 & -> & H0). now apply Bc.
  - intros t Hin. rewrite Hlen.
    assert (Text.datum t ∈ Text.datum <$> elements (label s')) as H
        by now apply list_elem_of_fmap_2.
    rewrite Ht in H. apply list_elem_of_fmap in H as (t0 & -> & H0). now apply Bt.
  - intros l Hin. rewrite Hlinks.
    assert (Line.datum l ∈ Line.datum <$> elements (link s')) as H
        by now apply list_elem_of_fmap_2.
    rewrite Hl in H. apply list_elem_of_fmap in H as (l0 & -> & H0). now apply Bl.
  - apply Hnode, Bk. now rewrite <- Hlinks.
  - apply Hnode, Bk. now rewrite <- Hlinks.
Qed.

Lemma init_bound place ns ls s :
  links_known ns ls = true ->
  forallb named ns = true ->
  bound (init place (Parsed (Doc.mk (Some ns) (Some ls))) s).
Proof.
  intros Hk Hnm. rewrite <- (links_known_returns place) in Hk.
  rewrite <- (join_texts_named place) in Hnm.
  destruct (forceLink (forceSimulation place ns) (link_object <$> ls)) as [ls' | ls'] eqn:Hf;
    [| discriminate].
  destruct (join_texts (forceSimulation place ns)) as [ts |] eqn:Hts; [| discriminate].
  pose proof (forceLink_Normal _ _ _ Hf) as Hres.
  unfold init. cbn [Doc.nodes Doc.links]. cbv zeta.
  rewrite (setup_Normal place ns ls s ls' ts Hf Hts).
  unfold bound, live_nodes, live_links. cbn [saintsData node label link elements].
  repeat split.
  - intros c Hc. apply list_elem_of_lookup in Hc as [i Hi].
    rewrite join_circles_lookup in Hi.
    destruct (forceSimulation place ns !! i) as [d |] eqn:Hd; simplify_eq/=.
    now apply lookup_lt_Some in Hd.
  - intros t Hc. apply list_elem_of_lookup in Hc as [i Hi].
    rewrite (join_texts_lookup _ _ i Hts) in Hi.
    destruct (forceSimulation place ns !! i) as [d |] eqn:Hd; [| discriminate].
    cbn [mbind option_bind] in Hi. unfold text_of in Hi.
    destruct (Node.name d); simplify_eq/=.
    now apply lookup_lt_Some in Hd.
  - intros l Hc. apply list_elem_of_lookup in Hc as [j Hj].
    rewrite join_lines_lookup in Hj.
    destruct (ls' !! j) as [lk |] eqn:Hd; simplify_eq/=.
    now apply lookup_lt_Some in Hd.
  - apply list_elem_of_lookup in H as [j Hj].
    destruct (Forall2_lookup_r _ _ _ _ _ Hres Hj) as (l0 & Hl0 & Hs & _).
    rewrite list_lookup_fmap in Hl0.
    destruct (ls !! j) as [l |]; simplify_eq/=.
    destruct (find (forceSimulation place ns) (RawLink.source l)) as [i |] eqn:Hfind;
      simplify_eq/=.
    destruct (find_spec _ _ _ Hfind) as (n & Hn & _).
    exists i, n. split; [congruence | exact Hn].
  - apply list_elem_of_lookup in H as [j Hj].
    destruct (Forall2_lookup_r _ _ _ _ _ Hres Hj) as (l0 & Hl0 & _ & Ht & _).
    rewrite list_lookup_fmap in Hl0.
    destruct (ls !! j) as [l |]; simplify_eq/=.
    destruct (find (forceSimulation place ns) (RawLink.target l)) as [i |] eqn:Hfind;
      simplify_eq/=.
    destruct (find_spec _ _ _ Hfind) as (n & Hn & _).
    exists i, n. split; [congruence | exact Hn].
Qed.

Lemma shape_frame s s' : filter_frame s' = filter_frame s -> shape s' = shape s.
Proof.
  unfold filter_frame, shape, live_nodes, live_links.
  intros [= Hd _ Hn Hl Ht _]. rewrite Hd.
  assert (Circle.datum <$> elements (node s') = Circle.datum <$> elements (node s)) as ->.
  { destruct (node s') as [cs' |], (node s) as [cs |]; simplify_eq/=; try reflexivity.
    apply (f_equal (fmap Circle.datum)) in Hn.
    now rewrite <- !list_fmap_compose in Hn. }
  assert (Text.datum <$> elements (label s') = Text.datum <$> elements (label s)) as ->.
  { destruct (label s') as [ts' |], (label s) as [ts |]; simplify_eq/=; try reflexivity.
    apply (f_equal (fmap Text.datum)) in Ht.
    now rewrite <- !list_fmap_compose in Ht. }
  assert (Line.datum <$> elements (link s') = Line.datum <$> elements (link s)) as ->.
  { destruct (link s') as [ls' |], (link s) as [ls |]; simplify_eq/=; try reflexivity.
    apply (f_equal (fmap Line.datum)) in Hl.
    now rewrite <- !list_fmap_compose in Hl. }
  reflexivity.
Qed.

Lemma shape_update_node i f s : shape (update_node i f s) = shape s.
Proof.
  unfold update_node, shape, live_nodes, live_links.
  destruct (saintsData s) as [| doc | ns ls] eqn:Hd; rewrite ?Hd; [reflexivity .. |].
  simpl. now rewrite length_alter.
Qed.

Lemma shape_retarget event a restart s :
  shape (final (retarget event a restart s)) = shape s.
Proof.
  unfold retarget. destruct (DragEvent.active event); [| reflexivity].
  now destruct (simulation s).
Qed.

Lemma shape_updatePositions s : shape (final (updatePositions s)) = shape s.
Proof.
  unfold updatePositions.
  destruct s as [d sv n l t sim tip f net el b].
  destruct d as [| doc | ns ls]; [reflexivity .. |].
  cbn [saintsData link node label set_saintsData set_link set_node set_label].
  destruct l as [lines |]; [destruct n as [circles |]; [destruct t as [texts |] |] |];
    unfold shape, live_nodes, live_links;
    cbn [final saintsData node link label elements
         set_saintsData set_link set_node set_label];
    rewrite ?length_fmap, <- ?list_fmap_compose; reflexivity.
Qed.

Lemma shape_set_node_alter (g : Circle.t -> Circle.t) this s :
  (forall c, Circle.datum (g c) = Circle.datum c) ->
  shape (set_node (alter g this <$> node s) s) = shape s.
Proof.
  intros Hg. unfold shape, live_nodes, live_links.
  cbn [saintsData node label link set_node].
  destruct (node s) as [cs |]; [| reflexivity].
  cbn [fmap option_fmap option_map elements].
  rewrite (list_fmap_alter Circle.datum g id) by (apply Forall_forall; intros c _; apply Hg).
  now rewrite list_alter_id.
Qed.

Lemma shape_handleMouseOver this event d s :
  shape (final (handleMouseOver this event d s)) = shape s.
Proof.
  unfold handleMouseOver. cbv zeta.
  match goal with
  | |- context [set_node (alter ?g this <$> node s) s] =>
      assert (shape (set_node (alter g this <$> node s) s) = shape s) as E
  end.
  { apply shape_set_node_alter. intros c.
    destruct (live_nodes s !! Circle.datum c); reflexivity. }
  destruct (tooltip _); [| exact E].
  rewrite <- E. reflexivity.
Qed.

Section Bound.

Variable physics : list Node.t -> list Node.t.

(** The layout library moves the node objects; it does not add or drop any. *)
Hypothesis physics_keeps_length : forall ns, length (physics ns) = length ns.

Lemma shape_tick s : shape (final (tick physics s)) = shape s.
Proof.
  unfold tick. destruct (saintsData s) as [| doc | ns ls] eqn:Hd;
    try apply shape_updatePositions.
  rewrite shape_updatePositions.
  unfold shape, live_nodes, live_links. simpl. rewrite Hd.
  now rewrite physics_keeps_length.
Qed.

Lemma shape_handle a s : shape (final (handle physics a s)) = shape s.
Proof.
  destruct a as [e | e | e | | | type | this e d]; simpl.
  - unfold dragstarted.
    pose proof (shape_retarget e 0.3 true s) as H.
    destruct (retarget e 0.3 true s) as [s' | s']; simpl in *; [| exact H].
    now rewrite shape_update_node.
  - apply shape_update_node.
  - unfold dragended.
    pose proof (shape_retarget e 0 false s) as H.
    destruct (retarget e 0 false s) as [s' | s']; simpl in *; [| exact H].
    now rewrite shape_update_node.
  - apply shape_tick.
  - apply shape_frame, filterAll_frame.
  - apply shape_frame, filterByType_frame.
  - apply shape_handleMouseOver.
Qed.

(** Once the page is set up, every reference the listeners follow denotes an
    object, whatever events arrive. *)
Lemma run_bound evs : forall s, bound s -> bound (run physics evs s).
Proof.
  induction evs as [| a evs IH]; intros s Hb; simpl; [exact Hb |].
  apply IH. eapply bound_shape; [apply shape_handle | exact Hb].
Qed.

End Bound.

(** * Further properties of the listeners *)

(** ** Hovering a node *)

Lemma alter_at {A : Type} (f : A -> A) (l : list A) (i : nat) (x : A) :
  l !! i = Some x -> alter f i l = <[i := f x]> l.
Proof.
  intros Hi. apply list_eq. intros j.
  rewrite list_lookup_alter.
  destruct (decide (i = j)) as [<- |].
  - rewrite Hi. simpl. symmetry. apply list_lookup_insert_eq.
    now apply lookup_lt_Some in Hi.
  - now rewrite list_lookup_insert_ne.
Qed.

Lemma alter_back {A : Type} (f g : A -> A) (l : list A) (i : nat) (x : A) :
  l !! i = Some x -> g (f x) = x -> alter g i (alter f i l) = l.
Proof.
  intros Hi Hx. apply list_eq. intros j.
  destruct (decide (i = j)) as [<- |].
  - rewrite !list_lookup_alter_eq, Hi. simpl. now rewrite Hx.
  - now rewrite !list_lookup_alter_ne.
Qed.

Lemma circle_set_r_own (c : Circle.t) : Circle.set_r (Circle.r c) c = c.
Proof. now destruct c. Qed.

(** X1. Hovering a circle and leaving it.  With the tooltip selected, for
    the circle at position [this] bound to the node [n]: [handleMouseOver]
    returns and sets the radius to [1.3 * size]; [handleMouseOut] then
    returns and sets it to [size], and hides the tooltip without touching
    its content and position.  If the circle had radius [size] to begin
    with, as after set-up, the state after both differs from the state
    before only in the tooltip. *)
Theorem hover_then_leave
    (this : nat) (event1 event2 : MouseEvent.t) (d1 d2 : Node.t)
    (s : State) (cs : list Circle.t) (c : Circle.t) (n : Node.t) :
  tooltip s = true ->
  node s = Some cs ->
  cs !! this = Some c ->
  live_nodes s !! Circle.datum c = Some n ->
  returns (handleMouseOver this event1 d1 s) = true
  /\ node (final (handleMouseOver this event1 d1 s))
     = Some (<[this := Circle.set_r (Node.size n * 1.3) c]> cs)
  /\ returns (handleMouseOut this event2 d2 (final (handleMouseOver this event1 d1 s)))
     = true
  /\ node (final (handleMouseOut this event2 d2 (final (handleMouseOver this event1 d1 s))))
     = Some (<[this := Circle.set_r (Node.size n) c]> cs)
  /\ tooltip_el (final (handleMouseOut this event2 d2
                          (final (handleMouseOver this event1 d1 s))))
     = Tooltip.mk (Some 0%Q) (tooltip_html d1)
         (Some (Number_toString (MouseEvent.pageX event1 + 10) ++ "px"))
         (Some (Number_toString (MouseEvent.pageY event1 - 10) ++ "px"))
  /\ (Circle.r c = Node.size n ->
      final (handleMouseOut this event2 d2 (final (handleMouseOver this event1 d1 s)))
      = set_tooltip_el
          (Tooltip.mk (Some 0%Q) (tooltip_html d1)
             (Some (Number_toString (MouseEvent.pageX event1 + 10) ++ "px"))
             (Some (Number_toString (MouseEvent.pageY event1 - 10) ++ "px")))
          s).
Proof.
  intros Ht Hn Hc Hd.
  destruct s as [sd sv n0 l t sim tip f net el b].
  cbn [tooltip node] in Ht, Hn. subst tip n0.
  unfold live_nodes in Hd. cbn [saintsData] in Hd.
  unfold handleMouseOver, handleMouseOut. cbv zeta.
  cbn [tooltip node set_node set_tooltip_el final returns tooltip_el live_nodes saintsData
       fmap option_fmap option_map].
  set (ns := match sd with Live ns _ => ns | _ => [] end) in *.
  set (grow := fun c0 : Circle.t =>
                 match ns !! Circle.datum c0 with
                 | Some d => Circle.set_r (Node.size d * 1.3) c0
                 | None => c0
                 end).
  set (shrink := fun c0 : Circle.t =>
                   match ns !! Circle.datum c0 with
                   | Some d => Circle.set_r (Node.size d) c0
                   | None => c0
                   end).
  assert (grow c = Circle.set_r (Node.size n * 1.3) c) as Hgrow.
  { unfold grow. now rewrite Hd. }
  assert (shrink (grow c) = Circle.set_r (Node.size n) c) as Hshrink.
  { rewrite Hgrow. unfold shrink. cbn [Circle.datum Circle.set_r]. now rewrite Hd. }
  assert (alter grow this cs = <[this := Circle.set_r (Node.size n * 1.3) c]> cs) as E1.
  { rewrite (alter_at grow cs this c Hc). now rewrite Hgrow. }
  assert (alter shrink this (alter grow this cs)
          = <[this := Circle.set_r (Node.size n) c]> cs) as E2.
  { rewrite E1. apply list_eq. intros j. rewrite list_lookup_alter.
    destruct (decide (this = j)) as [<- |].
    - rewrite !list_lookup_insert_eq by (now apply lookup_lt_Some in Hc).
      simpl. now rewrite <- Hgrow, Hshrink.
    - now rewrite !list_lookup_insert_ne. }
  split; [reflexivity |]. split; [exact (f_equal Some E1) |].
  split; [reflexivity |]. split; [exact (f_equal Some E2) |].
  split; [reflexivity |].
  intros Hr.
  assert (alter shrink this (alter grow this cs) = cs) as E3.
  { rewrite E2, <- Hr, circle_set_r_own. now apply list_insert_id. }
  unfold hide, set_tooltip_el, set_node.
  cbn [saintsData svg node link label simulation tooltip currentFilter network
       tooltip_el buttons Tooltip.html Tooltip.left Tooltip.top].
  f_equal. exact (f_equal Some E3).
Qed.

(** X1 on the sample page: hovering Peter's circle and leaving it. *)
Lemma hover_then_leave_witness :
  final (handleMouseOut 0 (MouseEvent.mk 300 300) (Node.mk peter (-300) 350 None None)
           (final (handleMouseOver 0 (MouseEvent.mk 100 200)
                     (Node.mk peter (-300) 350 None None) sample_state)))
  = set_tooltip_el
      (Tooltip.mk (Some 0%Q) (tooltip_html (Node.mk peter (-300) 350 None None))
         (Some "110px") (Some "190px"))
      sample_state.
Proof.
  refine (proj2 (proj2 (proj2 (proj2 (proj2
            (hover_then_leave 0 (MouseEvent.mk 100 200) (MouseEvent.mk 300 300)
               (Node.mk peter (-300) 350 None None) (Node.mk peter (-300) 350 None None)
               sample_state (elements (node sample_state))
               (Circle.mk 0 "node" 25 (Some "#ff6b6b") None None None)
               (Node.mk peter (-300) 350 None None) _ _ _ _))))) _); reflexivity.
Defined.

(** ** What the hover listeners leave alone *)

Lemma alter_lookup_frame {A B : Type} (e : A -> B) (f : A -> A) (l : list A) (i k : nat) :
  (forall x, e (f x) = e x) ->
  (k <> i -> alter f i l !! k = l !! k)
  /\ e <$> alter f i l !! k = e <$> l !! k.
Proof.
  intros He. split.
  - intros Hk. now apply list_lookup_alter_ne.
  - rewrite list_lookup_alter. destruct (decide (i = k)) as [<- |]; [| reflexivity].
    destruct (l !! i); simpl; [| reflexivity]. now rewrite He.
Qed.

Lemma elements_alter {A : Type} (f : A -> A) (i : nat) (sel : option (list A)) :
  elements (alter f i <$> sel) = alter f i (elements sel).
Proof. now destruct sel. Qed.

(** X2. The two listeners of a circle write the radius of the hovered circle
    and the tooltip, and nothing else; the two listeners of a line write the
    stroke width and the stroke colour of the hovered line and the tooltip,
    and nothing else.  This holds also when the listener throws. *)
Theorem hover_listeners_frame
    (this k : nat) (event : MouseEvent.t) (d : Node.t) (lk : Link.t) (s : State) :
  (forall s',
     s' = final (handleMouseOver this event d s)
     \/ s' = final (handleMouseOut this event d s) ->
     beyond_hover s' = beyond_hover s
     /\ link s' = link s /\ label s' = label s
     /\ length (elements (node s')) = length (elements (node s))
     /\ (k <> this -> elements (node s') !! k = elements (node s) !! k)
     /\ Circle.set_r 0 <$> elements (node s') !! k
        = Circle.set_r 0 <$> elements (node s) !! k)
  /\ (forall s',
        s' = final (handleLinkMouseOver this event lk s)
        \/ s' = final (handleLinkMouseOut this event lk s) ->
        beyond_hover s' = beyond_hover s
        /\ node s' = node s /\ label s' = label s
        /\ length (elements (link s')) = length (elements (link s))
        /\ (k <> this -> elements (link s') !! k = elements (link s) !! k)
        /\ line_set_stroke 0 "" <$> elements (link s') !! k
           = line_set_stroke 0 "" <$> elements (link s) !! k).
Proof.
  split.
  - intros s' [-> | ->].
    + unfold handleMouseOver. cbv zeta.
      match goal with |- context [set_node (alter ?g this <$> node s) s] =>
        set (grow := g) end.
      assert (forall c, Circle.set_r 0 (grow c) = Circle.set_r 0 c) as Hg.
      { intros c. unfold grow. now destruct (live_nodes s !! Circle.datum c). }
      destruct (alter_lookup_frame (Circle.set_r 0) grow (elements (node s)) this k Hg)
        as [Hne Heq].
      destruct (tooltip (set_node (alter grow this <$> node s) s));
        cbn [final node link label set_node set_tooltip_el];
        rewrite elements_alter, length_alter; repeat split; assumption.
    + unfold handleMouseOut. cbv zeta.
      match goal with |- context [set_node (alter ?g this <$> node s) s] =>
        set (shrink := g) end.
      assert (forall c, Circle.set_r 0 (shrink c) = Circle.set_r 0 c) as Hg.
      { intros c. unfold shrink. now destruct (live_nodes s !! Circle.datum c). }
      destruct (alter_lookup_frame (Circle.set_r 0) shrink (elements (node s)) this k Hg)
        as [Hne Heq].
      destruct (tooltip (set_node (alter shrink this <$> node s) s));
        cbn [final node link label set_node set_tooltip_el];
        rewrite elements_alter, length_alter; repeat split; assumption.
  - intros s' [-> | ->].
    + unfold handleLinkMouseOver. cbv zeta.
      match goal with |- context [set_link (alter ?g this <$> link s) s] =>
        set (highlight := g) end.
      assert (forall l, line_set_stroke 0 "" (highlight l) = line_set_stroke 0 "" l) as Hg.
      { intros l. unfold highlight. now destruct (live_links s !! Line.datum l). }
      destruct (alter_lookup_frame (line_set_stroke 0 "") highlight
                  (elements (link s)) this k Hg) as [Hne Heq].
      destruct (tooltip (set_link (alter highlight this <$> link s) s));
        cbn [final node link label set_link set_tooltip_el];
        rewrite elements_alter, length_alter; repeat split; assumption.
    + unfold handleLinkMouseOut. cbv zeta.
      match goal with |- context [set_link (alter ?g this <$> link s) s] =>
        set (reset := g) end.
      assert (forall l, line_set_stroke 0 "" (reset l) = line_set_stroke 0 "" l) as Hg.
      { intros l. unfold reset. now destruct (live_links s !! Line.datum l). }
      destruct (alter_lookup_frame (line_set_stroke 0 "") reset
                  (elements (link s)) this k Hg) as [Hne Heq].
      destruct (tooltip (set_link (alter reset this <$> link s) s));
        cbn [final node link label set_link set_tooltip_el];
        rewrite elements_alter, length_alter; repeat split; assumption.
Qed.

(** X2 on the sample page: hovering Peter's circle leaves Paul's alone. *)
Lemma hover_listeners_frame_witness :
  elements (node (final (handleMouseOver 0 (MouseEvent.mk 100 200)
                           (Node.mk peter (-300) 350 None None) sample_state))) !! 1%nat
  = elements (node sample_state) !! 1%nat.
Proof.
  destruct (hover_listeners_frame 0 1 (MouseEvent.mk 100 200)
              (Node.mk peter (-300) 350 None None)
              (Link.mk (Ref 0) (Ref 1) "colleague") sample_state) as [Hc _].
  destruct (Hc _ (or_introl eq_refl)) as (_ & _ & _ & _ & Hne & _).
  apply Hne. discriminate.
Defined.

(** ** Hovering a line *)




(** ** The filter buttons *)

Lemma activate_first_lookup target bs : forall i b,
  activate_first target bs !! i = Some b ->
  exists b0,
    bs !! i = Some b0
    /\ Button.onclick b = Button.onclick b0
    /\ (Button.active b = true <->
        Button.active b0 = true
        \/ (Button.onclick b0 = target
            /\ forall j bj, j < i -> bs !! j = Some bj -> Button.onclick bj <> target)).
Proof.
  induction bs as [| b1 bs IH]; intros i b; [discriminate |].
  cbn [activate_first].
  destruct (String.eqb_spec (Button.onclick b1) target) as [Heq | Hne].
  - destruct i as [| i]; simpl.
    + intros [= <-]. exists b1. split; [reflexivity |]. split; [reflexivity |].
      simpl. split; [| reflexivity].
      intros _. right. split; [exact Heq |]. intros j bj Hj. lia.
    + intros Hi. exists b. split; [exact Hi |]. split; [reflexivity |].
      split; [now left |].
      intros [Ha | [_ Hfirst]]; [exact Ha |].
      exfalso. apply (Hfirst 0 b1); [lia | reflexivity | exact Heq].
  - destruct i as [| i]; simpl.
    + intros [= <-]. exists b1. split; [reflexivity |]. split; [reflexivity |].
      split; [now left |]. intros [Ha | [Ht _]]; [exact Ha | contradiction].
    + intros Hi. destruct (IH i b Hi) as (b0 & Hb0 & Hon & Hiff).
      exists b0. split; [exact Hb0 |]. split; [exact Hon |].
      rewrite Hiff. split.
      * intros [Ha | [Ht Hfirst]]; [now left | right].
        split; [exact Ht |]. intros [| j] bj Hj Hbj.
        -- simpl in Hbj. now injection Hbj as <-.
        -- simpl in Hbj. apply (Hfirst j bj); [lia | exact Hbj].
      * intros [Ha | [Ht Hfirst]]; [now left | right].
        split; [exact Ht |]. intros j bj Hj Hbj.
        apply (Hfirst (S j) bj); [lia | exact Hbj].
Qed.

Lemma updateButtons_target s :
  buttons (updateButtons s) = activate_first (button_target s) (inactive <$> buttons s).
Proof.
  unfold updateButtons, button_target, set_buttons. cbn [buttons].
  now destruct (String.eqb (currentFilter s) "all").
Qed.

(** X4. For a filter name that needs no escaping in the selector: after
    [updateButtons] the buttons are the same buttons, and a button
    has the class [active] exactly when its [onclick] is the text looked for
    ([filterAll()] when the filter is 'all', [filterByType('t')] for another
    filter [t]) and no earlier button has that text.  So at most one button
    is active, and none when no button has the text. *)
Theorem updateButtons_activates_the_first_match (s : State) :
  selector_safe (currentFilter s) = true ->
  length (buttons (updateButtons s)) = length (buttons s)
  /\ (forall i b,
        buttons (updateButtons s) !! i = Some b ->
        exists b0,
          buttons s !! i = Some b0
          /\ Button.onclick b = Button.onclick b0
          /\ (Button.active b = true <->
              Button.onclick b0 = button_target s
              /\ forall j bj, j < i -> buttons s !! j = Some bj ->
                              Button.onclick bj <> button_target s))
  /\ (forall i j bi bj,
        buttons (updateButtons s) !! i = Some bi ->
        buttons (updateButtons s) !! j = Some bj ->
        Button.active bi = true -> Button.active bj = true -> i = j)
  /\ ((forall b0, b0 ∈ buttons s -> Button.onclick b0 <> button_target s) ->
      forall b, b ∈ buttons (updateButtons s) -> Button.active b = false).
Proof.
  intros _.
  assert (forall i b,
            buttons (updateButtons s) !! i = Some b ->
            exists b0,
              buttons s !! i = Some b0
              /\ Button.onclick b = Button.onclick b0
              /\ (Button.active b = true <->
                  Button.onclick b0 = button_target s
                  /\ forall j bj, j < i -> buttons s !! j = Some bj ->
                                  Button.onclick bj <> button_target s)) as Hchar.
  { intros i b Hi. rewrite updateButtons_target in Hi.
    destruct (activate_first_lookup _ _ i b Hi) as (b1 & Hb1 & Hon & Hiff).
    rewrite list_lookup_fmap in Hb1.
    destruct (buttons s !! i) as [b0 |] eqn:Hb0; simplify_eq/=.
    exists b0. split; [reflexivity |]. split; [exact Hon |].
    rewrite Hiff. split.
    - intros [Ha | [Ht Hfirst]]; [discriminate |].
      split; [exact Ht |]. intros j bj Hj Hbj.
      apply (Hfirst j (inactive bj)); [exact Hj |].
      now rewrite list_lookup_fmap, Hbj.
    - intros [Ht Hfirst]. right. split; [exact Ht |].
      intros j bj' Hj Hbj'. rewrite list_lookup_fmap in Hbj'.
      destruct (buttons s !! j) as [bj |] eqn:Hbj; simplify_eq/=.
      now apply (Hfirst j bj). }
  split.
  { pose proof (f_equal length (updateButtons_inactive s)) as H.
    now rewrite !length_fmap in H. }
  split; [exact Hchar |].
  split.
  { intros i j bi bj Hi Hj Ai Aj.
    destruct (Hchar i bi Hi) as (bi0 & Hi0 & _ & Hiffi).
    destruct (Hchar j bj Hj) as (bj0 & Hj0 & _ & Hiffj).
    apply Hiffi in Ai as [Ti Fi]. apply Hiffj in Aj as [Tj Fj].
    destruct (Nat.lt_trichotomy i j) as [Hlt | [Heq | Hgt]]; [| exact Heq |].
    - exfalso. now apply (Fj i bi0).
    - exfalso. now apply (Fi j bj0). }
  intros Hnone b Hb. apply list_elem_of_lookup in Hb as [i Hi].
  destruct (Hchar i b Hi) as (b0 & Hb0 & _ & Hiff).
  destruct (Button.active b) eqn:Ha; [| reflexivity].
  exfalso. destruct (proj1 Hiff eq_refl) as [Ht _].
  apply (Hnone b0); [eapply list_elem_of_lookup_2, Hb0 | exact Ht].
Qed.

(** X4 on the sample page, with a filter that has no button. *)
Lemma updateButtons_activates_the_first_match_witness :
  forallb (fun b => negb (Button.active b))
          (buttons (updateButtons (set_currentFilter "martyr" sample_state))) = true.
Proof.
  destruct (updateButtons_activates_the_first_match
              (set_currentFilter "martyr" sample_state) eq_refl) as (_ & _ & _ & Hnone).
  apply forallb_forall. intros b Hb. rewrite Hnone; [reflexivity | |].
  - intros b0 Hb0. apply list_elem_of_lookup in Hb0 as [i Hi].
    destruct i as [| [| [| i]]]; vm_compute in Hi; try discriminate;
      injection Hi as <-; discriminate.
  - now apply list_elem_of_In.
Defined.

(** ** Filters, one after the other *)

Lemma state_from_frame a b :
  filter_frame a = filter_frame b ->
  node a = node b -> link a = link b -> label a = label b ->
  currentFilter a = currentFilter b -> buttons a = buttons b ->
  a = b.
Proof.
  destruct a, b. unfold filter_frame. simpl.
  intros [= -> -> _ _ _ -> -> -> ->] -> -> -> -> ->. reflexivity.
Qed.

Lemma completion_Normal {A : Type} (c : completion A) :
  returns c = true -> c = Normal (final c).
Proof. destruct c; [reflexivity | discriminate]. Qed.

Lemma filterByType_buttons type s :
  buttons (final (filterByType type s))
  = buttons (updateButtons (set_currentFilter type s))
  /\ currentFilter (final (filterByType type s)) = type.
Proof.
  unfold filterByType. cbv zeta.
  set (s0 := updateButtons (set_currentFilter type s)).
  destruct (node s0); [| now split].
  match goal with |- context [set_node ?v s0] => set (s1 := set_node v s0) end.
  destruct (label s1); [| now split].
  match goal with |- context [set_label ?v s1] => set (s2 := set_label v s1) end.
  destruct (link s2); now split.
Qed.

Lemma opacity_by_datum_circles (F : nat -> Q) (cs1 cs2 : list Circle.t) :
  circle_frame <$> cs1 = circle_frame <$> cs2 ->
  (fun c => Circle.set_opacity (F (Circle.datum c)) c) <$> cs1
  = (fun c => Circle.set_opacity (F (Circle.datum c)) c) <$> cs2.
Proof.
  intros H.
  assert (forall cs : list Circle.t,
            (fun c => Circle.set_opacity (F (Circle.datum c)) c) <$> cs
            = (fun c => Circle.set_opacity (F (Circle.datum c)) c) <$> (circle_frame <$> cs))
    as E.
  { intros cs. rewrite <- list_fmap_compose. now apply list_fmap_ext. }
  now rewrite (E cs1), (E cs2), H.
Qed.

Lemma opacity_by_datum_texts (F : nat -> Q) (ts1 ts2 : list Text.t) :
  text_frame <$> ts1 = text_frame <$> ts2 ->
  (fun t => Text.set_opacity (F (Text.datum t)) t) <$> ts1
  = (fun t => Text.set_opacity (F (Text.datum t)) t) <$> ts2.
Proof.
  intros H.
  assert (forall ts : list Text.t,
            (fun t => Text.set_opacity (F (Text.datum t)) t) <$> ts
            = (fun t => Text.set_opacity (F (Text.datum t)) t) <$> (text_frame <$> ts))
    as E.
  { intros ts. rewrite <- list_fmap_compose. now apply list_fmap_ext. }
  now rewrite (E ts1), (E ts2), H.
Qed.

Lemma opacity_by_datum_lines (F : nat -> Q) (ls1 ls2 : list Line.t) :
  line_frame <$> ls1 = line_frame <$> ls2 ->
  (fun l => Line.set_opacity (F (Line.datum l)) l) <$> ls1
  = (fun l => Line.set_opacity (F (Line.datum l)) l) <$> ls2.
Proof.
  intros H.
  assert (forall ls : list Line.t,
            (fun l => Line.set_opacity (F (Line.datum l)) l) <$> ls
            = (fun l => Line.set_opacity (F (Line.datum l)) l) <$> (line_frame <$> ls))
    as E.
  { intros ls. rewrite <- list_fmap_compose. now apply list_fmap_ext. }
  now rewrite (E ls1), (E ls2), H.
Qed.

Lemma frame_selections s1 s2 :
  ready s1 = true ->
  filter_frame s1 = filter_frame s2 ->
  saintsData s1 = saintsData s2
  /\ circle_frame <$> elements (node s1) = circle_frame <$> elements (node s2)
  /\ text_frame <$> elements (label s1) = text_frame <$> elements (label s2)
  /\ line_frame <$> elements (link s1) = line_frame <$> elements (link s2)
  /\ inactive <$> buttons s1 = inactive <$> buttons s2.
Proof.
  intros Hr H. pose proof Hr as Hr2. rewrite (ready_frame s1 s2 H) in Hr2.
  destruct (ready_inv s1 Hr) as (? & ? & cs1 & ls1 & ts1 & _ & Hn1 & Hl1 & Ht1).
  destruct (ready_inv s2 Hr2) as (? & ? & cs2 & ls2 & ts2 & _ & Hn2 & Hl2 & Ht2).
  unfold filter_frame in H. injection H as Hd _ Hn Hl Ht _ _ _ _ Hb.
  rewrite Hn1, Hn2 in *. rewrite Hl1, Hl2 in *. rewrite Ht1, Ht2 in *.
  simpl in Hn, Hl, Ht. injection Hn as Hn. injection Hl as Hl. injection Ht as Ht.
  now repeat split.
Qed.

Lemma filterByType_from_frame type s1 s2 :
  ready s1 = true ->
  filter_frame s1 = filter_frame s2 ->
  filterByType type s1 = filterByType type s2.
Proof.
  intros Hr H. pose proof Hr as Hr2. rewrite (ready_frame s1 s2 H) in Hr2.
  destruct (frame_selections s1 s2 Hr H) as (Hd & Hn & Ht & Hl & Hb).
  destruct (filterByType_ready type s1 Hr) as (R1 & F1 & N1 & T1 & L1).
  destruct (filterByType_ready type s2 Hr2) as (R2 & F2 & N2 & T2 & L2).
  rewrite (completion_Normal _ R1), (completion_Normal _ R2). f_equal.
  apply state_from_frame.
  - now rewrite !filterByType_frame.
  - rewrite N1, N2. f_equal. unfold live_nodes. rewrite Hd.
    exact (opacity_by_datum_circles
             (fun i => if has_type type (live_nodes s2 !! i) then 1 else 0.2)%Q _ _ Hn).
  - rewrite L1, L2. f_equal. unfold live_nodes, live_links. rewrite Hd.
    exact (opacity_by_datum_lines
             (fun j => if link_matches (live_nodes s2) (live_links s2) type
                                       (Line.mk j "" 0 "" None None None None None None)
                       then 0.7 else 0.1)%Q _ _ Hl).
  - rewrite T1, T2. f_equal. unfold live_nodes. rewrite Hd.
    exact (opacity_by_datum_texts
             (fun i => if has_type type (live_nodes s2 !! i) then 1 else 0.2)%Q _ _ Ht).
  - now rewrite F1, F2.
  - destruct (filterByType_buttons type s1) as [-> _].
    destruct (filterByType_buttons type s2) as [-> _].
    now apply updateButtons_buttons.
Qed.

(** X5. The page after a filter depends on the last filter chosen only: on a
    set-up page, for filter names that need no escaping in the selector, [filterByType(t)] after any list of earlier [filterByType]
    calls gives the completion and the state that [filterByType(t)] gives at
    once; in particular choosing the same filter twice changes nothing. *)
Theorem last_filter_wins (types : list string) (type : string) (s : State) :
  forallb selector_safe (type :: types) = true ->
  ready s = true ->
  filterByType type (filters types s) = filterByType type s
  /\ filterByType type (final (filterByType type s)) = filterByType type s
  /\ returns (filterByType type (filters types s)) = true.
Proof.
  intros _ Hr.
  assert (filterByType type (filters types s) = filterByType type s) as E.
  { apply filterByType_from_frame; [| apply filters_frame].
    now rewrite (ready_frame _ _ (filters_frame types s)). }
  split; [exact E |]. split.
  - apply filterByType_from_frame; [| apply filterByType_frame].
    now rewrite (ready_frame _ _ (filterByType_frame type s)).
  - rewrite E. now apply filterByType_ready.
Qed.

(** X5 on the sample page. *)
Lemma last_filter_wins_witness :
  filterByType "doctor" (filters ["apostle"; "martyr"; "doctor"] sample_state)
  = filterByType "doctor" sample_state.
Proof.
  exact (proj1 (last_filter_wins ["apostle"; "martyr"; "doctor"] "doctor"
                  sample_state eq_refl eq_refl)).
Defined.

(** X6. The filter named 'all'.  [filterByType('all')] lights the same button
    as [filterAll] does, since [updateButtons] tells the two apart by
    [currentFilter] alone; but it dims by type: on a set-up page none of
    whose nodes has the type 'all', every circle and label is left at
    opacity 0.2 and every line at 0.1. *)
Theorem filterByType_all_dims_everything (s : State) :
  ready s = true ->
  (forall d, d ∈ live_nodes s -> Node.type d <> "all") ->
  buttons (final (filterByType "all" s)) = buttons (final (filterAll s))
  /\ currentFilter (final (filterByType "all" s)) = currentFilter (final (filterAll s))
  /\ (forall c, c ∈ elements (node (final (filterByType "all" s))) ->
        Circle.opacity c = Some 0.2%Q)
  /\ (forall t, t ∈ elements (label (final (filterByType "all" s))) ->
        Text.opacity t = Some 0.2%Q)
  /\ (forall l, l ∈ elements (link (final (filterByType "all" s))) ->
        Line.opacity l = Some 0.1%Q).
Proof.
  intros Hr Hnone.
  assert (forall o, (exists i, o = live_nodes s !! i) -> has_type "all" o = false) as Hno.
  { intros o [i ->]. destruct (live_nodes s !! i) as [d |] eqn:Hd; [| reflexivity].
    apply has_type_false, Hnone. eapply list_elem_of_lookup_2, Hd. }
  destruct (filterByType_ready "all" s Hr) as (_ & Hf & Hn & Ht & Hl).
  destruct (filterAll_ready s Hr) as (_ & Hf' & _).
  split.
  { destruct (filterByType_buttons "all" s) as [-> _].
    destruct (ready_inv s Hr) as (? & ? & cs & ls & ts & _ & En & El & Et).
    destruct s as [sd sv n l t sim tip f net el b]. simpl in En, El, Et. subst.
    reflexivity. }
  split; [now rewrite Hf, Hf' |].
  split; [| split].
  - intros c. rewrite Hn. simpl. intros Hc.
    apply list_elem_of_fmap in Hc as (c0 & -> & _).
    cbn [Circle.opacity Circle.set_opacity]. now rewrite Hno by eauto.
  - intros t. rewrite Ht. simpl. intros Hc.
    apply list_elem_of_fmap in Hc as (t0 & -> & _).
    cbn [Text.opacity Text.set_opacity]. now rewrite Hno by eauto.
  - intros l. rewrite Hl. simpl. intros Hc.
    apply list_elem_of_fmap in Hc as (l0 & -> & _).
    cbn [Line.opacity Line.set_opacity]. unfold link_matches.
    destruct (live_links s !! Line.datum l0) as [lk |]; [| reflexivity].
    assert (forall e, has_type "all" (deref (live_nodes s) e) = false) as Hde.
    { intros [k | i]; [reflexivity | apply Hno; eauto]. }
    now rewrite !Hde.
Qed.

(** X6 on the sample page. *)
Lemma filterByType_all_dims_everything_witness :
  Button.active <$> buttons (final (filterByType "all" sample_state)) = [true; false; false]
  /\ Circle.opacity <$> elements (node (final (filterByType "all" sample_state)))
     = [Some 0.2%Q; Some 0.2%Q; Some 0.2%Q].
Proof.
  assert (forall d, d ∈ live_nodes sample_state -> Node.type d <> "all") as Hnone.
  { intros d Hd. apply list_elem_of_lookup in Hd as [i Hi].
    destruct i as [| [| [| i]]]; vm_compute in Hi; try discriminate;
      injection Hi as <-; discriminate. }
  destruct (filterByType_all_dims_everything sample_state eq_refl Hnone) as (Hb & _).
  rewrite Hb. split; reflexivity.
Defined.

(** ** Lines and the circles at their ends *)

(** X7. Under a filter a line is bright exactly when a circle at one of its
    ends is.  On a set-up page, after [filterByType(t)], for a line bound to
    a link from node [a] to node [b] and the circles bound to [a] and [b]:
    the line has opacity 0.7 if and only if one of the two circles has
    opacity 1, and opacity 0.1 if and only if both have 0.2. *)
Theorem line_bright_iff_an_end_is
    (type : string) (s : State) (l : Line.t) (lk : Link.t) (a b : nat)
    (na nb : Node.t) (ca cb : Circle.t) :
  selector_safe type = true ->
  ready s = true ->
  l ∈ elements (link (final (filterByType type s))) ->
  live_links s !! Line.datum l = Some lk ->
  Link.source lk = Ref a -> Link.target lk = Ref b ->
  live_nodes s !! a = Some na -> live_nodes s !! b = Some nb ->
  ca ∈ elements (node (final (filterByType type s))) -> Circle.datum ca = a ->
  cb ∈ elements (node (final (filterByType type s))) -> Circle.datum cb = b ->
  (Line.opacity l = Some 0.7%Q <->
   Circle.opacity ca = Some 1%Q \/ Circle.opacity cb = Some 1%Q)
  /\ (Line.opacity l = Some 0.1%Q <->
      Circle.opacity ca = Some 0.2%Q /\ Circle.opacity cb = Some 0.2%Q).
Proof.
  intros _ Hr Hl Hlk Hsrc Htgt Hna Hnb Hca Ha Hcb Hb.
  destruct (filterByType_ready type s Hr) as (_ & _ & Hn & _ & Hls).
  rewrite Hls in Hl. rewrite Hn in Hca, Hcb. simpl in Hl, Hca, Hcb.
  apply list_elem_of_fmap in Hl as (l0 & -> & _).
  apply list_elem_of_fmap in Hca as (ca0 & -> & _).
  apply list_elem_of_fmap in Hcb as (cb0 & -> & _).
  cbn [Line.opacity Line.set_opacity Line.datum
       Circle.opacity Circle.set_opacity Circle.datum] in *.
  unfold link_matches. rewrite Hlk, Hsrc, Htgt. cbn [deref].
  rewrite Ha, Hb, Hna, Hnb.
  destruct (has_type type (Some na)), (has_type type (Some nb)); simpl;
    split; split;
    try (intros [H | H]; discriminate H);
    try (intros [H1 H2]; discriminate);
    try (intros H; discriminate H);
    auto.
Qed.

(** X7 on the sample page, with the doctor filter: the line from Peter to
    Paul is dim, as both circles are. *)
Lemma line_bright_iff_an_end_is_witness :
  Line.opacity (Line.mk 0 "link" 1 "pointer" None None None None None (Some 0.1%Q))
  = Some 0.1%Q
  <-> Circle.opacity (Circle.mk 0 "node" 25 (Some "#ff6b6b") None None (Some 0.2%Q))
      = Some 0.2%Q
      /\ Circle.opacity (Circle.mk 1 "node" 20 (Some "#ff6b6b") None None (Some 0.2%Q))
         = Some 0.2%Q.
Proof.
  refine (proj2 (line_bright_iff_an_end_is "doctor" sample_state
            (Line.mk 0 "link" 1 "pointer" None None None None None (Some 0.1%Q))
            (Link.mk (Ref 0) (Ref 1) "colleague") 0 1
            (Node.mk peter (-300) 350 None None) (Node.mk paul 600 350 None None)
            (Circle.mk 0 "node" 25 (Some "#ff6b6b") None None (Some 0.2%Q))
            (Circle.mk 1 "node" 20 (Some "#ff6b6b") None None (Some 0.2%Q))
            eq_refl eq_refl _ eq_refl eq_refl eq_refl eq_refl eq_refl _ eq_refl _ eq_refl)).
  - apply (list_elem_of_lookup_2 _ 0). reflexivity.
  - apply (list_elem_of_lookup_2 _ 0). reflexivity.
  - apply (list_elem_of_lookup_2 _ 1). reflexivity.
Defined.

(** ** More on the position clamp *)

Lemma clamp_inside (size extent v : Q) :
  within size extent v -> (clamp size extent v == v)%Q.
Proof.
  intros [Hlo Hhi]. unfold clamp.
  destruct (Q.min_spec (extent - size) v) as [[H1 E1] | [H1 E1]];
    destruct (Q.max_spec size (Qmin (extent - size) v)) as [[H2 E2] | [H2 E2]];
    rewrite E2; try rewrite E1; lra.
Qed.

Lemma clamp_idempotent (size extent v : Q) :
  (clamp size extent (clamp size extent v) == clamp size extent v)%Q.
Proof.
  destruct (Qlt_le_dec extent (2 * size)) as [Hbig | Hfit].
  - rewrite !(clamp_oversize _ _ _ Hbig). reflexivity.
  - apply clamp_inside, clamp_within, Hfit.
Qed.

(** X8. The tick listener moves only what is out of bounds: a node whose
    position is in [size, width - size] x [size, height - size] keeps its
    position (as a number), and its record and pins are untouched. *)
Theorem updatePositions_keeps_nodes_in_bounds (s : State) (i : nat) (d : Node.t) :
  live_nodes s !! i = Some d ->
  in_bounds d ->
  exists d',
    live_nodes (final (updatePositions s)) !! i = Some d'
    /\ (Node.x d' == Node.x d)%Q /\ (Node.y d' == Node.y d)%Q
    /\ Node.data d' = Node.data d /\ pin d' = pin d.
Proof.
  intros Hi [Hx Hy]. exists (clampNode d).
  rewrite updatePositions_nodes, list_lookup_fmap, Hi.
  split; [reflexivity |].
  rewrite clampNode_x, clampNode_y.
  split; [now apply clamp_inside |]. split; [now apply clamp_inside |].
  split; reflexivity.
Qed.

(** X8 on the sample page: Paul, placed at (600, 350), stays there. *)
Lemma updatePositions_keeps_nodes_in_bounds_witness :
  exists d',
    live_nodes (final (updatePositions sample_state)) !! 1%nat = Some d'
    /\ (Node.x d' == 600)%Q /\ (Node.y d' == 350)%Q.
Proof.
  destruct (updatePositions_keeps_nodes_in_bounds sample_state 1
              (Node.mk paul 600 350 None None) eq_refl) as (d' & H & Hx & Hy & _).
  - unfold in_bounds, within, width, height, Qle. simpl. lia.
  - exists d'. now repeat split.
Defined.

(** X9. The tick listener is idempotent on positions: whatever the state,
    running it a second time leaves every node where the first run put it,
    also a node too large for the viewport. *)
Theorem updatePositions_twice (s : State) (i : nat) (d : Node.t) :
  live_nodes (final (updatePositions s)) !! i = Some d ->
  exists d',
    live_nodes (final (updatePositions (final (updatePositions s)))) !! i = Some d'
    /\ (Node.x d' == Node.x d)%Q /\ (Node.y d' == Node.y d)%Q
    /\ Node.data d' = Node.data d /\ pin d' = pin d.
Proof.
  intros Hi. exists (clampNode d).
  rewrite updatePositions_nodes, list_lookup_fmap, Hi.
  split; [reflexivity |].
  rewrite updatePositions_nodes, list_lookup_fmap in Hi.
  destruct (live_nodes s !! i) as [d0 |]; [| discriminate].
  injection Hi as <-.
  split; [exact (clamp_idempotent (Node.size d0) width (Node.x d0)) |].
  split; [exact (clamp_idempotent (Node.size d0) height (Node.y d0)) |].
  split; reflexivity.
Qed.

(** X9 on the oversize sample: the node of radius 1300 stays at (1300, 1300). *)
Lemma updatePositions_twice_witness :
  exists d',
    live_nodes (final (updatePositions (final (updatePositions oversize_state)))) !! 0%nat
    = Some d'
    /\ (Node.x d' == 1300)%Q /\ (Node.y d' == 1300)%Q.
Proof.
  destruct (updatePositions_twice oversize_state 0
              (Node.mk colossus 1300 1300 None None) eq_refl) as (d' & H & Hx & Hy & _).
  exists d'. now repeat split.
Defined.

(** ** Lines follow the circles *)

Lemma tick_lines physics s :
  ready s = true ->
  forall l, l ∈ elements (link (final (tick physics s))) ->
    Line.x1 l = end_coord (live_nodes (final (tick physics s)))
                          (live_links (final (tick physics s))) Link.source Node.x l
    /\ Line.y1 l = end_coord (live_nodes (final (tick physics s)))
                             (live_links (final (tick physics s))) Link.source Node.y l
    /\ Line.x2 l = end_coord (live_nodes (final (tick physics s)))
                             (live_links (final (tick physics s))) Link.target Node.x l
    /\ Line.y2 l = end_coord (live_nodes (final (tick physics s)))
                             (live_links (final (tick physics s))) Link.target Node.y l.
Proof.
  intros Hr. destruct (ready_inv s Hr) as (ns & ls & cs & lns & ts & Hd & Hn & Hl & Ht).
  rewrite (tick_unfold physics s ns ls Hd).
  erewrite updatePositions_Normal; [| destruct s; simpl in *; subst; reflexivity ..].
  simpl. intros l Hin. apply list_elem_of_fmap in Hin as (l0 & -> & _).
  repeat split.
Qed.

(** X10. After a tick on a set-up page every line is drawn from the centre
    of the circle at its source to the centre of the circle at its target:
    for a line bound to a link from node [a] to node [b], its (x1, y1) is
    the (cx, cy) of a circle bound to [a] and its (x2, y2) the (cx, cy) of a
    circle bound to [b], and these are the nodes' clamped positions. *)
Theorem lines_join_circle_centres
    (physics : list Node.t -> list Node.t) (s : State)
    (l : Line.t) (lk : Link.t) (a b : nat) (na nb : Node.t) (ca cb : Circle.t) :
  ready s = true ->
  l ∈ elements (link (final (tick physics s))) ->
  live_links (final (tick physics s)) !! Line.datum l = Some lk ->
  Link.source lk = Ref a -> Link.target lk = Ref b ->
  live_nodes (final (tick physics s)) !! a = Some na ->
  live_nodes (final (tick physics s)) !! b = Some nb ->
  ca ∈ elements (node (final (tick physics s))) -> Circle.datum ca = a ->
  cb ∈ elements (node (final (tick physics s))) -> Circle.datum cb = b ->
  Line.x1 l = Circle.cx ca /\ Line.y1 l = Circle.cy ca
  /\ Line.x2 l = Circle.cx cb /\ Line.y2 l = Circle.cy cb
  /\ Circle.cx ca = Some (Node.x na) /\ Circle.cy ca = Some (Node.y na)
  /\ Circle.cx cb = Some (Node.x nb) /\ Circle.cy cb = Some (Node.y nb).
Proof.
  intros Hr Hl Hlk Hsrc Htgt Hna Hnb Hca Ha Hcb Hb.
  destruct (tick_lines physics s Hr l Hl) as (X1 & Y1 & X2 & Y2).
  destruct (tick_rendered physics s Hr) as [Hcs _].
  destruct (Hcs ca Hca) as [Cxa Cya]. destruct (Hcs cb Hcb) as [Cxb Cyb].
  rewrite Ha, Hna in Cxa, Cya. rewrite Hb, Hnb in Cxb, Cyb. simpl in Cxa, Cya, Cxb, Cyb.
  unfold end_coord in X1, Y1, X2, Y2.
  rewrite Hlk in X1, Y1, X2, Y2. simpl in X1, Y1, X2, Y2.
  rewrite Hsrc in X1, Y1. rewrite Htgt in X2, Y2. simpl in X1, Y1, X2, Y2.
  rewrite Hna in X1, Y1. rewrite Hnb in X2, Y2. simpl in X1, Y1, X2, Y2.
  rewrite X1, Y1, X2, Y2, Cxa, Cya, Cxb, Cyb. repeat split.
Qed.

(** X10 on the sample page: the line from Peter to Paul after a tick. *)
Lemma lines_join_circle_centres_witness :
  Line.x1 (Line.mk 0 "link" 1 "pointer" None
             (Some 25%Q) (Some 350%Q) (Some 600%Q) (Some 350%Q) None)
  = Circle.cx (Circle.mk 0 "node" 25 (Some "#ff6b6b") (Some 25%Q) (Some 350%Q) None).
Proof.
  refine (proj1 (lines_join_circle_centres (fun ns => ns) sample_state
            (Line.mk 0 "link" 1 "pointer" None
               (Some 25%Q) (Some 350%Q) (Some 600%Q) (Some 350%Q) None)
            (Link.mk (Ref 0) (Ref 1) "colleague") 0 1
            (Node.mk peter 25 350 None None) (Node.mk paul 600 350 None None)
            (Circle.mk 0 "node" 25 (Some "#ff6b6b") (Some 25%Q) (Some 350%Q) None)
            (Circle.mk 1 "node" 20 (Some "#ff6b6b") (Some 600%Q) (Some 350%Q) None)
            eq_refl _ eq_refl eq_refl eq_refl eq_refl eq_refl _ eq_refl _ eq_refl)).
  - apply (list_elem_of_lookup_2 _ 0). reflexivity.
  - apply (list_elem_of_lookup_2 _ 0). reflexivity.
  - apply (list_elem_of_lookup_2 _ 1). reflexivity.
Defined.

(** ** What the drag listeners write *)

Lemma beyond_drag_update_node i f s : beyond_drag (update_node i f s) = beyond_drag s.
Proof.
  unfold update_node, beyond_drag, live_links.
  destruct (saintsData s) eqn:Hd; rewrite ?Hd; reflexivity.
Qed.

Lemma beyond_drag_retarget event a restart s :
  beyond_drag (final (retarget event a restart s)) = beyond_drag s
  /\ live_nodes (final (retarget event a restart s)) = live_nodes s.
Proof.
  unfold retarget. destruct (DragEvent.active event); [| now split].
  destruct (simulation s); now split.
Qed.

Lemma update_node_only_pins i f s :
  (forall d, Node.data (f d) = Node.data d /\ Node.x (f d) = Node.x d
             /\ Node.y (f d) = Node.y d) ->
  length (live_nodes (update_node i f s)) = length (live_nodes s)
  /\ forall j d',
       live_nodes (update_node i f s) !! j = Some d' ->
       exists d, live_nodes s !! j = Some d
                 /\ Node.data d' = Node.data d /\ Node.x d' = Node.x d
                 /\ Node.y d' = Node.y d /\ (j <> i -> d' = d).
Proof.
  intros Hf. split.
  - pose proof (shape_update_node i f s) as H. unfold shape in H. now injection H.
  - intros j d' Hj. apply update_node_inv in Hj as (d & Hd & ->).
    exists d. split; [exact Hd |].
    destruct (decide (i = j)) as [-> | Hne].
    + destruct (Hf d) as (? & ? & ?). repeat split; try assumption. congruence.
    + repeat split. 
Qed.

(** X11. The drag listeners write the pins of their subject and the
    simulation's alpha target, and nothing else: the selections, the tooltip,
    the filter, the buttons, the container and the links are as before, no
    node is added or dropped, every node keeps its record and its x and y,
    and every node but the subject is untouched.  [dragged] does not touch
    the simulation.  This holds also when the listener throws. *)
Theorem drag_listeners_frame (event : DragEvent.t) (s : State) :
  (forall s',
     s' = final (dragstarted event s) \/ s' = final (dragged event s)
     \/ s' = final (dragended event s) ->
     beyond_drag s' = beyond_drag s
     /\ length (live_nodes s') = length (live_nodes s)
     /\ forall j d',
          live_nodes s' !! j = Some d' ->
          exists d, live_nodes s !! j = Some d
                    /\ Node.data d' = Node.data d /\ Node.x d' = Node.x d
                    /\ Node.y d' = Node.y d
                    /\ (j <> DragEvent.subject event -> d' = d))
  /\ simulation (final (dragged event s)) = simulation s.
Proof.
  assert (forall (f : Node.t -> Node.t) s0,
            (forall d, Node.data (f d) = Node.data d /\ Node.x (f d) = Node.x d
                       /\ Node.y (f d) = Node.y d) ->
            beyond_drag s0 = beyond_drag s -> live_nodes s0 = live_nodes s ->
            beyond_drag (update_node (DragEvent.subject event) f s0) = beyond_drag s
            /\ length (live_nodes (update_node (DragEvent.subject event) f s0))
               = length (live_nodes s)
            /\ forall j d',
                 live_nodes (update_node (DragEvent.subject event) f s0) !! j = Some d' ->
                 exists d, live_nodes s !! j = Some d
                           /\ Node.data d' = Node.data d /\ Node.x d' = Node.x d
                           /\ Node.y d' = Node.y d
                           /\ (j <> DragEvent.subject event -> d' = d)) as Hupd.
  { intros f s0 Hf Hb Hn.
    destruct (update_node_only_pins (DragEvent.subject event) f s0 Hf) as [Hlen Hall].
    rewrite beyond_drag_update_node, Hb, Hlen, <- Hn. now repeat split. }
  assert (forall s0, beyond_drag s0 = beyond_drag s -> live_nodes s0 = live_nodes s ->
            beyond_drag s0 = beyond_drag s
            /\ length (live_nodes s0) = length (live_nodes s)
            /\ forall j d',
                 live_nodes s0 !! j = Some d' ->
                 exists d, live_nodes s !! j = Some d
                           /\ Node.data d' = Node.data d /\ Node.x d' = Node.x d
                           /\ Node.y d' = Node.y d
                           /\ (j <> DragEvent.subject event -> d' = d)) as Hsame.
  { intros s0 Hb Hn. rewrite Hn. split; [exact Hb |]. split; [reflexivity |].
    intros j d' Hj. exists d'. now repeat split. }
  split; [| unfold dragged; simpl; apply update_node_simulation].
  intros s' [-> | [-> | ->]].
  - unfold dragstarted.
    destruct (beyond_drag_retarget event 0.3 true s) as [Hb Hn].
    destruct (retarget event 0.3 true s) as [s0 | s0]; simpl in *.
    + apply Hupd; [intros d; repeat split | exact Hb | exact Hn].
    + now apply Hsame.
  - unfold dragged. simpl. apply Hupd; [intros d; repeat split | reflexivity ..].
  - unfold dragended.
    destruct (beyond_drag_retarget event 0 false s) as [Hb Hn].
    destruct (retarget event 0 false s) as [s0 | s0]; simpl in *.
    + apply Hupd; [intros d; repeat split | exact Hb | exact Hn].
    + now apply Hsame.
Qed.

(** ** A whole gesture *)

Lemma unpin_unpinned d : pinned d = false -> unpin d = d.
Proof.
  destruct d as [dt x y fx fy]. unfold pinned, unpin. simpl.
  destruct fx, fy; try discriminate. reflexivity.
Qed.

Lemma alter_unpin_absorb (h : Node.t -> Node.t) (ns : list Node.t) (i : nat) :
  (forall d, unpin (h d) = unpin d) ->
  alter unpin i (alter h i ns) = alter unpin i ns.
Proof.
  intros Hh. apply list_eq. intros j.
  destruct (decide (i = j)) as [<- |].
  - rewrite !list_lookup_alter_eq. destruct (ns !! i); simpl; [| reflexivity].
    now rewrite Hh.
  - now rewrite !list_lookup_alter_ne.
Qed.

Lemma alter_unpin_id (ns : list Node.t) (i : nat) (d : Node.t) :
  ns !! i = Some d -> pinned d = false -> alter unpin i ns = ns.
Proof.
  intros Hi Hp. apply list_eq. intros j.
  destruct (decide (i = j)) as [<- |].
  - rewrite list_lookup_alter_eq, Hi. simpl. now rewrite unpin_unpinned.
  - now rewrite list_lookup_alter_ne.
Qed.

Section Gesture.

Variable physics : list Node.t -> list Node.t.
Variables (ls : list Link.t) (sv : option Svg.t) (n : option (list Circle.t))
          (l : option (list Line.t)) (t : option (list Text.t)) (tip : bool)
          (f : string) (net : list Child) (el : Tooltip.t) (b : list Button.t).
Variable i : nat.
Variable stop : DragEvent.t.
Hypothesis stop_active : DragEvent.active stop = 0.
Hypothesis stop_subject : DragEvent.subject stop = i.

(** From a state in mid-gesture, the remaining moves and the end. *)
Lemma moves_then_end (moves : list DragEvent.t) : forall (ns : list Node.t) running,
  forallb (fun m => Nat.eqb (DragEvent.subject m) i) moves = true ->
  run physics (map DragMove moves ++ [DragEnd stop])%list
      (mkState (Live ns ls) sv n l t (Some (Simulation.mk 0.3 running)) tip f net el b)
  = mkState (Live (alter unpin i ns) ls) sv n l t (Some (Simulation.mk 0 running))
            tip f net el b.
Proof.
  induction moves as [| m moves IH]; intros ns running Hall.
  - cbn [map app run handle]. unfold dragended, retarget. rewrite stop_active.
    cbn [simulation bind final]. unfold update_node.
    cbn [saintsData set_simulation set_saintsData svg node link label simulation tooltip
         currentFilter network tooltip_el buttons Simulation.running orb].
    rewrite stop_subject. reflexivity.
  - cbn [forallb] in Hall. apply andb_true_iff in Hall as [Hm Hall].
    apply Nat.eqb_eq in Hm.
    set (g := fun d : Node.t =>
                Node.set_fy (Some (clamp (Node.size d) height (DragEvent.y m)))
                  (Node.set_fx (Some (clamp (Node.size d) width (DragEvent.x m))) d)).
    assert (final (handle physics (DragMove m)
                     (mkState (Live ns ls) sv n l t (Some (Simulation.mk 0.3 running))
                              tip f net el b))
            = mkState (Live (alter g i ns) ls) sv n l t (Some (Simulation.mk 0.3 running))
                      tip f net el b) as Hstep.
    { cbn [handle]. unfold dragged. cbn [final]. unfold update_node.
      cbn [saintsData set_saintsData svg node link label simulation tooltip
           currentFilter network tooltip_el buttons].
      now rewrite Hm. }
    cbn [map app run]. rewrite Hstep, (IH _ running Hall).
    f_equal. f_equal. now apply alter_unpin_absorb.
Qed.

End Gesture.

(** X12. A whole drag gesture leaves no trace but a restarted simulation.
    On a state whose simulation is defined, a gesture on an unpinned node
    with no other gesture in progress - one start, any moves, one end, and no
    tick in between - ends in the state it started from, with the
    simulation's alpha target at 0 and the simulation running. *)
Theorem gesture_leaves_no_trace
    (physics : list Node.t -> list Node.t)
    (start : DragEvent.t) (moves : list DragEvent.t) (stop : DragEvent.t)
    (s : State) (sim : Simulation.t) (d : Node.t) :
  single_gesture start moves stop = true ->
  simulation s = Some sim ->
  live_nodes s !! DragEvent.subject start = Some d ->
  pinned d = false ->
  run physics (gesture start moves stop) s
  = set_simulation (Some (Simulation.mk 0 true)) s.
Proof.
  unfold single_gesture. intros Hg Hsim Hd Hp.
  apply andb_true_iff in Hg as [Hg Hmoves].
  apply andb_true_iff in Hg as [Hg Hsubj].
  apply andb_true_iff in Hg as [Hstart Hstop].
  apply Nat.eqb_eq in Hstart, Hstop, Hsubj.
  destruct s as [sd sv n l t sm tip f net el b].
  cbn [simulation] in Hsim. subst sm.
  unfold live_nodes in Hd. cbn [saintsData] in Hd.
  destruct sd as [| doc | ns ls]; try discriminate.
  set (g := fun d : Node.t => Node.set_fy (Some (Node.y d)) (Node.set_fx (Some (Node.x d)) d)).
  assert (final (handle physics (DragStart start)
                   (mkState (Live ns ls) sv n l t (Some sim) tip f net el b))
          = mkState (Live (alter g (DragEvent.subject start) ns) ls) sv n l t
                    (Some (Simulation.mk 0.3 true)) tip f net el b) as Hstep.
  { cbn [handle]. unfold dragstarted, retarget. rewrite Hstart.
    cbn [simulation bind final]. unfold update_node.
    cbn [saintsData set_simulation set_saintsData svg node link label simulation tooltip
         currentFilter network tooltip_el buttons orb].
    reflexivity. }
  unfold gesture. cbn [run]. rewrite Hstep.
  rewrite (moves_then_end physics ls sv n l t tip f net el b
             (DragEvent.subject start) stop Hstop Hsubj moves _ true Hmoves).
  unfold set_simulation.
  cbn [saintsData svg node link label simulation tooltip currentFilter network
       tooltip_el buttons].
  f_equal. f_equal.
  rewrite alter_unpin_absorb by reflexivity.
  exact (alter_unpin_id ns _ d Hd Hp).
Qed.

(** X12 on the sample page: Paul is picked up, moved twice and dropped. *)
Lemma gesture_leaves_no_trace_witness :
  run (fun ns => ns)
      (gesture (DragEvent.mk 0 1 600 350)
               [DragEvent.mk 0 1 (-50) 900; DragEvent.mk 0 1 700 20]
               (DragEvent.mk 0 1 700 20))
      sample_state
  = sample_state.
Proof.
  exact (gesture_leaves_no_trace (fun ns => ns)
           (DragEvent.mk 0 1 600 350)
           [DragEvent.mk 0 1 (-50) 900; DragEvent.mk 0 1 700 20]
           (DragEvent.mk 0 1 700 20)
           sample_state (Simulation.mk 0 true) (Node.mk paul 600 350 None None)
           eq_refl eq_refl eq_refl eq_refl).
Defined.

(** ** Once the page is set up, no listener throws *)

Lemma operational_inv s :
  operational s = true ->
  exists ns ls cs lns ts sim,
    saintsData s = Live ns ls /\ node s = Some cs /\ link s = Some lns
    /\ label s = Some ts /\ simulation s = Some sim /\ tooltip s = true.
Proof.
  unfold operational. intros H.
  apply andb_true_iff in H as [H Htip]. apply andb_true_iff in H as [Hr Hsim].
  destruct (ready_inv s Hr) as (ns & ls & cs & lns & ts & Hd & Hn & Hl & Ht).
  destruct (simulation s) as [sim |]; [| discriminate].
  now exists ns, ls, cs, lns, ts, sim.
Qed.

Lemma listen_operational physics ev s :
  operational s = true ->
  returns (listen physics ev s) = true
  /\ operational (final (listen physics ev s)) = true.
Proof.
  intros Hop.
  destruct (operational_inv s Hop)
    as (ns & ls & cs & lns & ts & sim & Hd & Hn & Hl & Ht & Hsim & Htip).
  destruct s as [sd sv n l t sm tip f net el b]. simpl in Hd, Hn, Hl, Ht, Hsim, Htip.
  subst.
  destruct ev as [[e | e | e | | | type | this e d] | this e d | this e d | this e d];
    cbn [listen handle];
    try (split; reflexivity).
  - unfold dragstarted, retarget. destruct (DragEvent.active e); split; reflexivity.
  - unfold dragended, retarget. destruct (DragEvent.active e); split; reflexivity.
Qed.

Lemma listen_all_operational physics evs : forall s,
  operational s = true ->
  fst (listen_all physics evs s) = true
  /\ operational (snd (listen_all physics evs s)) = true.
Proof.
  induction evs as [| ev evs IH]; intros s Hop; [now split |].
  cbn [listen_all fst snd].
  destruct (listen_operational physics ev s Hop) as [Hret Hop'].
  destruct (IH _ Hop') as [Hrest Hfin].
  now rewrite Hret, Hrest.
Qed.

Lemma init_operational place ns ls s :
  links_known ns ls = true ->
  forallb named ns = true ->
  operational (init place (Parsed (Doc.mk (Some ns) (Some ls))) s) = true.
Proof.
  intros Hk Hnm. rewrite <- (links_known_returns place) in Hk.
  rewrite <- (join_texts_named place) in Hnm.
  destruct (forceLink (forceSimulation place ns) (link_object <$> ls)) as [ls' | ls'] eqn:Hf;
    [| discriminate].
  destruct (join_texts (forceSimulation place ns)) as [ts |] eqn:Hts; [| discriminate].
  unfold init. cbn [Doc.nodes Doc.links]. cbv zeta.
  now rewrite (setup_Normal place ns ls s ls' ts Hf Hts).
Qed.

(** X13. After a successful load no listener throws.  For a document whose
    links name nodes of the document and whose nodes all have a name (the
    label callback of the set-up throws on a node without one and leaves
    the labels undefined), whatever the page was before and
    whatever the layout library does to the nodes, every listener called
    after [init] - drag start, move and end, tick, the two filters (with
    filter names that need no escaping in the selector), and the four hover
    listeners, in any order and number - returns normally, and
    the data, the three selections, the simulation and the tooltip stay
    defined. *)
Theorem no_listener_throws_after_load
    (place : nat -> Q * Q) (physics : list Node.t -> list Node.t)
    (ns : list Saint.t) (ls : list RawLink.t) (s : State) (evs : list Event) :
  links_known ns ls = true ->
  forallb named ns = true ->
  forallb safe_event evs = true ->
  fst (listen_all physics evs (init place (Parsed (Doc.mk (Some ns) (Some ls))) s)) = true
  /\ operational
       (snd (listen_all physics evs (init place (Parsed (Doc.mk (Some ns) (Some ls))) s)))
     = true.
Proof.
  intros Hk Hnm _. apply listen_all_operational. now apply init_operational.
Qed.

(** X13 on the sample page. *)
Lemma no_listener_throws_after_load_witness :
  fst (listen_all (fun ns => ns)
         [Act (FilterByType "doctor"); Act (DragStart (DragEvent.mk 0 1 600 350));
          Act Tick; LinkMouseOver 0 (MouseEvent.mk 10 10) (Link.mk (Ref 0) (Ref 1) "colleague");
          Act (DragEnd (DragEvent.mk 0 1 600 350));
          MouseOut 7 (MouseEvent.mk 10 10) (Node.mk peter 25 350 None None)]
         sample_state) = true.
Proof.
  exact (proj1 (no_listener_throws_after_load sample_place (fun ns => ns)
                  [peter; paul; augustine]
                  [RawLink.mk "peter" "paul" "colleague";
                   RawLink.mk "paul" "augustine" "influence"]
                  sample_page
                  [Act (FilterByType "doctor"); Act (DragStart (DragEvent.mk 0 1 600 350));
                   Act Tick;
                   LinkMouseOver 0 (MouseEvent.mk 10 10) (Link.mk (Ref 0) (Ref 1) "colleague");
                   Act (DragEnd (DragEvent.mk 0 1 600 350));
                   MouseOut 7 (MouseEvent.mk 10 10) (Node.mk peter 25 350 None None)]
                  eq_refl eq_refl eq_refl)).
Defined.

(** ** A filter chosen before the data arrive *)

(** X14. A filter button pressed while the data are still loading.  On the
    page as it is before [init] ran, [filterByType(t)] throws, after it has
    stored the filter and lit its button.  A load that then succeeds (every
    link end is known and every node has a name) does not apply the stored
    filter: the filter and the buttons stay as the click
    left them, while no circle, label or line has an opacity style. *)
Theorem filter_before_load_is_not_applied
    (place : nat -> Q * Q) (type : string)
    (children : list Child) (tip : Tooltip.t) (bs : list Button.t)
    (ns : list Saint.t) (ls : list RawLink.t) :
  selector_safe type = true ->
  links_known ns ls = true ->
  forallb named ns = true ->
  filterByType type (page children tip bs)
  = Thrown (updateButtons (set_currentFilter type (page children tip bs)))
  /\ currentFilter (init place (Parsed (Doc.mk (Some ns) (Some ls)))
                      (final (filterByType type (page children tip bs)))) = type
  /\ buttons (init place (Parsed (Doc.mk (Some ns) (Some ls)))
                (final (filterByType type (page children tip bs))))
     = buttons (updateButtons (set_currentFilter type (page children tip bs)))
  /\ length (visible_circles (init place (Parsed (Doc.mk (Some ns) (Some ls)))
                                (final (filterByType type (page children tip bs)))))
     = length ns
  /\ (forall c,
        c ∈ visible_circles (init place (Parsed (Doc.mk (Some ns) (Some ls)))
                               (final (filterByType type (page children tip bs)))) ->
        Circle.opacity c = None)
  /\ (forall t,
        t ∈ visible_texts (init place (Parsed (Doc.mk (Some ns) (Some ls)))
                             (final (filterByType type (page children tip bs)))) ->
        Text.opacity t = None)
  /\ (forall l,
        l ∈ visible_lines (init place (Parsed (Doc.mk (Some ns) (Some ls)))
                             (final (filterByType type (page children tip bs)))) ->
        Line.opacity l = None).
Proof.
  intros _ Hk Hnm. split; [reflexivity |].
  rewrite <- (join_texts_named place) in Hnm.
  destruct (join_texts (forceSimulation place ns)) as [ts |] eqn:Hts; [| discriminate].
  assert (final (filterByType type (page children tip bs))
          = updateButtons (set_currentFilter type (page children tip bs))) as ->
      by reflexivity.
  set (s0 := updateButtons (set_currentFilter type (page children tip bs))).
  pose proof Hk as Hk'. rewrite <- (links_known_returns place) in Hk'.
  destruct (forceLink (forceSimulation place ns) (link_object <$> ls)) as [ls' | ls'] eqn:Hf;
    [| discriminate].
  assert (init place (Parsed (Doc.mk (Some ns) (Some ls))) s0
          = mkState (Live (forceSimulation place ns) ls')
              (Some (Svg.mk width height [0%Q; 0%Q; width; height]))
              (Some (join_circles (forceSimulation place ns)))
              (Some (join_lines ls'))
              (Some ts)
              (Some (Simulation.mk 0 true)) true (currentFilter s0)
              (network s0 ++ [ChildSvg]) (tooltip_el s0) (buttons s0)) as ->.
  { unfold init. cbn [Doc.nodes Doc.links]. cbv zeta.
    now rewrite (setup_Normal place ns ls s0 ls' ts Hf Hts). }
  unfold visible_circles, visible_texts, visible_lines, attached.
  cbn [currentFilter buttons network node label link elements].
  rewrite attached_appended.
  split; [reflexivity |]. split; [reflexivity |].
  split; [unfold join_circles; now rewrite length_imap, forceSimulation_length |].
  split; [| split].
  - intros c Hc. apply list_elem_of_lookup in Hc as [i Hi].
    rewrite join_circles_lookup in Hi.
    destruct (forceSimulation place ns !! i); simplify_eq/=. reflexivity.
  - intros t Hc. apply list_elem_of_lookup in Hc as [i Hi].
    rewrite (join_texts_lookup _ _ i Hts) in Hi.
    destruct (forceSimulation place ns !! i) as [d |]; [| discriminate].
    cbn [mbind option_bind] in Hi. unfold text_of in Hi.
    destruct (Node.name d); simplify_eq/=. reflexivity.
  - intros l Hc. apply list_elem_of_lookup in Hc as [i Hi].
    rewrite join_lines_lookup in Hi.
    destruct (ls' !! i); simplify_eq/=. reflexivity.
Qed.

(** X14 on the sample page: the doctor button pressed before the load. *)
Lemma filter_before_load_is_not_applied_witness :
  Button.active
    <$> buttons (init sample_place (Parsed sample_doc)
                   (final (filterByType "doctor" sample_page)))
  = [false; false; true]
  /\ Circle.opacity
       <$> visible_circles (init sample_place (Parsed sample_doc)
                              (final (filterByType "doctor" sample_page)))
     = [None; None; None].
Proof.
  destruct (filter_before_load_is_not_applied sample_place "doctor" []
              (Tooltip.mk None "" None None)
              [Button.mk "filterAll()" true;
               Button.mk "filterByType('apostle')" false;
               Button.mk "filterByType('doctor')" false]
              [peter; paul; augustine]
              [RawLink.mk "peter" "paul" "colleague";
               RawLink.mk "paul" "augustine" "influence"]
              eq_refl eq_refl eq_refl) as (_ & _ & Hb & _).
  split; [| reflexivity].
  unfold sample_doc, sample_page. rewrite Hb. reflexivity.
Defined.

(** ** The text of a label *)

Lemma replace_unfold pat by_ s :
  replace pat by_ s
  = if startsWith pat s then by_ ++ drop_chars (String.length pat) s
    else match s with
         | EmptyString => EmptyString
         | String c s' => String c (replace pat by_ s')
         end.
Proof. destruct s; reflexivity. Qed.

Lemma occurs_unfold pat s :
  occurs pat s
  = startsWith pat s
    || match s with
       | EmptyString => false
       | String _ s' => occurs pat s'
       end.
Proof. destruct s; reflexivity. Qed.

Lemma replace_absent pat by_ s : occurs pat s = false -> replace pat by_ s = s.
Proof.
  induction s as [| c s IH]; rewrite occurs_unfold, replace_unfold;
    intros H; apply orb_false_iff in H as [-> H]; [reflexivity |].
  now rewrite IH.
Qed.

Lemma startsWith_app pat s : startsWith pat (pat ++ s) = true.
Proof. induction pat as [| c pat IH]; simpl; [reflexivity |]. now rewrite Ascii.eqb_refl. Qed.

Lemma drop_chars_app pat s : drop_chars (String.length pat) (pat ++ s) = s.
Proof. induction pat as [| c pat IH]; simpl; [reflexivity | exact IH]. Qed.

Lemma replace_prefix pat s : replace pat "" (pat ++ s) = s.
Proof. now rewrite replace_unfold, startsWith_app, drop_chars_app. Qed.

(** X15. When every node has a name the labels are created, and the label
    of a node is its name with the first "St. " and then the first
    "Blessed " taken out.  A name with neither title is shown as it is;
    a leading "St. " or a leading "Blessed " is dropped; of two leading
    "St. " only the first is dropped. *)
Theorem label_text_drops_one_title :
  (forall ns,
     forallb (fun d => named (Node.data d)) ns = true ->
     exists ts,
       join_texts ns = Some ts
       /\ forall i d,
            ns !! i = Some d ->
            exists name,
              Node.name d = Some name
              /\ Text.text <$> ts !! i = Some (label_text name))
  /\ (forall name,
        occurs "St. " name = false -> occurs "Blessed " name = false ->
        label_text name = name)
  /\ (forall rest, occurs "Blessed " rest = false -> label_text ("St. " ++ rest) = rest)
  /\ (forall rest, occurs "St. " rest = false -> label_text ("Blessed " ++ rest) = rest)
  /\ (forall rest,
        occurs "Blessed " rest = false ->
        label_text ("St. " ++ "St. " ++ rest) = "St. " ++ rest).
Proof.
  split; [| split; [| split; [| split]]].
  - intros ns Hnm. unfold join_texts in *. rewrite <- (join_texts_from_named ns 0) in Hnm.
    destruct (join_texts_from 0 ns) as [ts |] eqn:Hts; [| discriminate].
    exists ts. split; [reflexivity |]. intros i d Hi.
    rewrite (join_texts_from_lookup ns 0 ts i Hts), Hi.
    cbn [mbind option_bind]. unfold text_of.
    destruct (Node.name d) as [name |] eqn:Hname.
    + exists name. split; reflexivity.
    + exfalso.
      assert (is_some (Node.name d) = true) as Hd; [| now rewrite Hname in Hd].
      assert (forall l : list Node.t,
                forallb (fun d => named (Node.data d)) l = true ->
                forall j e, l !! j = Some e -> is_some (Node.name e) = true) as Hall.
      { induction l as [| e0 l IH]; intros Hl j e Hj; [destruct j; discriminate |].
        simpl in Hl. apply andb_true_iff in Hl as [H0 Hl].
        destruct j as [| j]; simpl in Hj; [injection Hj as <-; exact H0 | eauto]. }
      apply (Hall ns) with i; [| exact Hi].
      rewrite <- (join_texts_from_named ns 0), Hts. reflexivity.
  - intros name H1 H2. unfold label_text. now rewrite (replace_absent _ _ _ H1), replace_absent.
  - intros rest H. unfold label_text. rewrite replace_prefix. now apply replace_absent.
  - intros rest H. unfold label_text.
    rewrite (replace_absent "St. " "" ("Blessed " ++ rest)).
    + apply replace_prefix.
    + simpl. exact H.
  - intros rest H. unfold label_text. rewrite replace_prefix.
    apply replace_absent. simpl. exact H.
Qed.

(** ** What the tick listener writes *)

(** X16. The tick listener writes positions only: the nodes' x and y, the
    centres of the circles, the positions of the labels and the ends of the
    lines.  The nodes' records and pins, the links, the opacity, radius,
    fill, stroke and text of every shape, the filter, the buttons, the
    tooltip, the simulation and the container are as before - so a tick
    undoes neither a filter nor a hover highlight.  This holds also when
    the listener throws. *)
Theorem updatePositions_writes_positions_only (s : State) :
  beyond_tick (final (updatePositions s)) = beyond_tick s.
Proof.
  unfold updatePositions.
  destruct s as [d sv n l t sim tip f net el b].
  destruct d as [| doc | ns ls]; [reflexivity .. |].
  cbn [saintsData link node label set_saintsData set_link set_node set_label].
  destruct l as [lines |]; [destruct n as [circles |]; [destruct t as [texts |] |] |];
    unfold beyond_tick, live_nodes, live_links;
    cbn [final saintsData svg simulation tooltip currentFilter network tooltip_el buttons
         node link label elements set_saintsData set_link set_node set_label];
    rewrite <- ?list_fmap_compose; reflexivity.
Qed.
